(** * mpxpy: the Mathpix client SDK, embedded in Rocq

    A shallow embedding of [mpxpy/conversion.py] (the poller and the
    downloads of a conversion), [mpxpy/errors.py], [mpxpy/image.py] and,
    of [mpxpy/mathpix_client.py], the factory methods [image_new] and
    [file_batch_new].

    The Python code is effectful: it logs, performs HTTP requests through
    [mpxpy.request_handler], sleeps, and writes files.  All of this is
    threaded through an explicit [World]: the remote service and the disk
    faults are oracles of the world, every effect appends an event to the
    world's trace, and a computation is a function from a world to an
    outcome (a value or a raised exception) and the world after it.
    Exceptions are the subclasses of [Exception]; Python values are
    dynamically typed, so the operations on them can raise. *)

From Stdlib Require Import ZArith String Ascii List Bool Lia Floats.
From Stdlib Require Strings.Byte.
From stdpp Require Import base option list gmap strings.

#[local] Set Warnings "-register-all".

Open Scope string_scope.
Open Scope list_scope.
Open Scope Z_scope.

(** ** Python values *)

(** The values that flow through the client: decoded JSON
    ([response.json()]) and the keyword arguments of the factory methods. *)
Inductive pyval : Type :=
| PNone
| PBool (b : bool)
| PInt (z : Z)
| PFloat (f : float)
| PStr (s : string)
| PList (l : list pyval)
| PTuple (l : list pyval)
| PDict (d : list (pyval * pyval)).

(** [isinstance(v, int)]: [bool] is a subclass of [int]. *)
Definition isinstance_int (v : pyval) : bool :=
  match v with
  | PInt _ | PBool _ => true
  | _ => false
  end.

(** The integer a value of type [int] (or [bool]) stands for. *)
Definition int_value (v : pyval) : option Z :=
  match v with
  | PInt z => Some z
  | PBool b => Some (if b then 1 else 0)
  | _ => None
  end.

(** [v == s] for a string literal [s]: only an equal [str] compares equal. *)
Definition py_eq_str (v : pyval) (s : string) : bool :=
  match v with
  | PStr t => String.eqb t s
  | _ => false
  end.

(** The integer a float is exactly equal to, if any ([1.0 == 1]). *)
Definition float_as_Z (f : float) : option Z :=
  match Prim2SF f with
  | S754_zero _ => Some 0
  | S754_finite s m e =>
      let mag :=
        match e with
        | Z0 => Some (Zpos m)
        | Zpos p => Some (Zpos m * 2 ^ Zpos p)
        | Zneg p =>
            if (Zpos m mod 2 ^ Zpos p =? 0) then Some (Zpos m / 2 ^ Zpos p) else None
        end in
      match mag with
      | Some z => Some (if s then - z else z)
      | None => None
      end
  | _ => None
  end.

(** Python's [==] on the values that can be dictionary keys (the hashable
    ones): numbers compare across [bool], [int] and [float], tuples
    elementwise.  Lists and dictionaries are never keys. *)
Fixpoint py_key_eqb (a b : pyval) {struct a} : bool :=
  match a, b with
  | PNone, PNone => true
  | PStr s, PStr t => String.eqb s t
  | PFloat f, PFloat g => PrimFloat.eqb f g
  | PFloat f, (PInt _ | PBool _) =>
      match float_as_Z f, int_value b with
      | Some x, Some y => x =? y
      | _, _ => false
      end
  | (PInt _ | PBool _), PFloat g =>
      match int_value a, float_as_Z g with
      | Some x, Some y => x =? y
      | _, _ => false
      end
  | (PInt _ | PBool _), (PInt _ | PBool _) =>
      match int_value a, int_value b with
      | Some x, Some y => x =? y
      | _, _ => false
      end
  | PTuple l, PTuple m =>
      (fix go (l m : list pyval) {struct l} : bool :=
         match l, m with
         | [], [] => true
         | x :: l', y :: m' => py_key_eqb x y && go l' m'
         | _, _ => false
         end) l m
  | _, _ => false
  end.

(** [hash(v)] succeeds: lists and dictionaries are unhashable, a tuple is
    hashable when its elements are. *)
Fixpoint py_hashable (v : pyval) : bool :=
  match v with
  | PList _ | PDict _ => false
  | PTuple l =>
      (fix go (l : list pyval) : bool :=
         match l with
         | [] => true
         | x :: l' => py_hashable x && go l'
         end) l
  | _ => true
  end.

(** The name [type(v).__name__] used in Python's error messages. *)
Definition type_name (v : pyval) : string :=
  match v with
  | PNone => "NoneType"
  | PBool _ => "bool"
  | PInt _ => "int"
  | PFloat _ => "float"
  | PStr _ => "str"
  | PList _ => "list"
  | PTuple _ => "tuple"
  | PDict _ => "dict"
  end.

(** Dictionary lookup: the first entry whose key equals [k]. *)
Fixpoint dict_get (d : list (pyval * pyval)) (k : pyval) : option pyval :=
  match d with
  | [] => None
  | (k', v) :: d' => if py_key_eqb k' k then Some v else dict_get d' k
  end.

(** [d[k] = v]: replaces the value of an existing key in place, appends a
    new key at the end (insertion order). *)
Fixpoint dict_set (d : list (pyval * pyval)) (k v : pyval) : list (pyval * pyval) :=
  match d with
  | [] => [(k, v)]
  | (k', v') :: d' =>
      if py_key_eqb k' k then (k', v) :: d' else (k', v') :: dict_set d' k v
  end.

(** ** Exceptions *)

(** The exception classes the client raises or lets through.
    [ValidationError], [AuthenticationError] and [FilesystemError] are
    imported from [mpxpy.errors] by the modules, next to
    [MathpixClientError] and [ConversionIncompleteError].
    [RequestsError n] is the subclass [n] of
    [requests.exceptions.RequestException]; [OtherError n] is any other
    subclass [n] of [Exception]. *)
Inductive exn_class : Type :=
| TypeError
| KeyError
| IndexError
| ValueError
| AttributeError
| OSError
| FileNotFoundError
| FileExistsError
| NotADirectoryError
| IsADirectoryError
| NotImplementedError
| RequestsError (name : string)
| OtherError (name : string)
| MathpixClientError
| ValidationError
| AuthenticationError
| ConversionIncompleteError
| FilesystemError.

(** A message is kept as its pieces: literal text and the interpolated
    values of an f-string, unrendered. *)
Inductive exn : Type :=
| Exn (cls : exn_class) (message : list piece) (status_info : pyval) (context : option exn)
with piece : Type :=
| Lit (s : string)
| Val (v : pyval)
| StrOf (e : exn).

Definition exn_cls (e : exn) : exn_class := let 'Exn c _ _ _ := e in c.
Definition exn_message (e : exn) : list piece := let 'Exn _ m _ _ := e in m.
(** [e.status_info], the attribute of [ConversionIncompleteError]. *)
Definition exn_status_info (e : exn) : pyval := let 'Exn _ _ i _ := e in i.
(** [e.__context__]: the exception that was being handled when [e] was raised. *)
Definition exn_context (e : exn) : option exn := let 'Exn _ _ _ c := e in c.

(** A freshly constructed exception [cls(message)]. *)
Definition new_exn (c : exn_class) (m : list piece) : exn := Exn c m PNone None.

(** errors.py: [ConversionIncompleteError.__init__(self, message, status_info=None)]
    stores [status_info or {}].  [status_info] is [None] when the argument
    is left out. *)
Definition py_truthy (v : pyval) : bool :=
  match v with
  | PNone => false
  | PBool b => b
  | PInt z => negb (z =? 0)
  | PFloat f => negb (PrimFloat.eqb f 0%float)
  | PStr s => negb (String.eqb s "")
  | PList l | PTuple l => match l with [] => false | _ => true end
  | PDict d => match d with [] => false | _ => true end
  end.

Definition new_ConversionIncompleteError (m : list piece) (status_info : pyval) : exn :=
  Exn ConversionIncompleteError m
      (if py_truthy status_info then status_info else PDict []) None.

(** Raising [e] while [handled] is being handled sets [e.__context__]. *)
Definition with_context (handled : exn) (e : exn) : exn :=
  let 'Exn c m i _ := e in Exn c m i (Some handled).

(** [isinstance(e, requests.exceptions.RequestException)]. *)
Definition is_RequestException (e : exn) : bool :=
  match exn_cls e with
  | RequestsError _ => true
  | _ => false
  end.

(** ** The world: remote service, file system, trace *)

Inductive log_level : Type := INFO | WARNING | ERROR.

Inductive http_method : Type := GET | POST.

(** A form field whose value is the text [json.dumps(v)]. *)
Inductive form_value : Type :=
| JsonText (v : pyval).

(** What a request carries besides its URL and headers: nothing, a JSON
    body ([json=]), or a form with attached open files ([data=], [files=];
    an open file is given by its location). *)
Inductive http_body : Type :=
| NoBody
| JsonBody (v : pyval)
| FormBody (data : list (string * form_value)) (files : list (string * list string)).

Record request : Type := {
  req_method : http_method;
  req_url : string;
  req_headers : list (string * string);
  req_body : http_body
}.

(** One item of [response.iter_content(...)]: a chunk of bytes, or the
    exception the iterator raises at that point. *)
Inductive chunk_item : Type :=
| Chunk (data : list Byte.byte)
| ChunkRaise (e : exn).

(** A [requests.Response], as far as the client looks at it. *)
Record response : Type := {
  resp_json : exn + pyval;            (* [response.json()] *)
  resp_content : list Byte.byte;      (* [response.content] *)
  resp_chunks : list chunk_item;      (* [response.iter_content(chunk_size=8192)] *)
  resp_raise_for_status : option exn  (* [response.raise_for_status()] *)
}.

(** [mpxpy.request_handler.get]/[post] either return a response or raise. *)
Inductive http_result : Type :=
| HttpOk (r : response)
| HttpRaise (e : exn).

Inductive node : Type :=
| Dir
| File (content : list Byte.byte).

Inductive event : Type :=
| EvLog (level : log_level) (message : list piece)
| EvRequest (rq : request)
| EvSleep (seconds : Z)
| EvMakedirs (path : string)
| EvOpenWrite (path : string)
| EvOpenRead (path : string)
| EvWrite (file : list string) (data : list Byte.byte)
| EvClose (file : list string).

Definition is_request (ev : event) : bool :=
  match ev with EvRequest _ => true | _ => false end.

(** File-system operations, attempted or done. *)
Definition is_io (ev : event) : bool :=
  match ev with
  | EvMakedirs _ | EvOpenWrite _ | EvOpenRead _ | EvWrite _ _ | EvClose _ => true
  | _ => false
  end.

Definition is_open_write (ev : event) : bool :=
  match ev with EvOpenWrite _ => true | _ => false end.

Definition count_requests (tr : list event) : nat := length (filter is_request tr).
Definition count_io (tr : list event) : nat := length (filter is_io tr).

(** The world a call runs in.  [w_server n rq] is what the transport
    answers to the request [rq] when [n] requests were made before it;
    [w_io_fault n] is the failure, if any, of the file-system operation
    attempted after [n] earlier ones (disk full, permissions).  The file
    system maps the component list of an absolute path to its node; the
    trace holds every effect, the most recent first. *)
Record World : Type := {
  w_server : nat -> request -> http_result;
  w_io_fault : nat -> option exn;
  w_fs : gmap (list string) node;
  w_cwd : list string;
  w_trace : list event
}.

Definition emit (ev : event) (w : World) : World :=
  {| w_server := w_server w; w_io_fault := w_io_fault w; w_fs := w_fs w;
     w_cwd := w_cwd w; w_trace := ev :: w_trace w |}.

Definition set_fs (fs : gmap (list string) node) (w : World) : World :=
  {| w_server := w_server w; w_io_fault := w_io_fault w; w_fs := fs;
     w_cwd := w_cwd w; w_trace := w_trace w |}.

(** ** Computations *)

Inductive outcome (A : Type) : Type :=
| Ret (a : A)
| Raise (e : exn)
| OutOfFuel.
Arguments Ret {A} a.
Arguments Raise {A} e.
Arguments OutOfFuel {A}.

Definition M (A : Type) : Type := World -> outcome A * World.

Definition ret {A} (a : A) : M A := fun w => (Ret a, w).
Definition raise {A} (e : exn) : M A := fun w => (Raise e, w).
Definition out_of_fuel {A} : M A := fun w => (OutOfFuel, w).

Definition bind {A B} (m : M A) (k : A -> M B) : M B :=
  fun w =>
    match m w with
    | (Ret a, w') => k a w'
    | (Raise e, w') => (Raise e, w')
    | (OutOfFuel, w') => (OutOfFuel, w')
    end.

Notation "'let!' x ':=' m 'in' k" := (bind m (fun x => k))
  (at level 10, x name, m at level 100, k at level 200).
Notation "m '>>' k" := (bind m (fun _ => k))
  (at level 100, k at level 200, right associativity).

(** [try: m  except Exception as e: handler e]. *)
Definition try_except {A} (m : M A) (handler : exn -> M A) : M A :=
  fun w =>
    match m w with
    | (Raise e, w') => handler e w'
    | r => r
    end.

(** A pure step that may raise. *)
Definition lift {A} (r : exn + A) : M A :=
  match r with
  | inl e => raise e
  | inr a => ret a
  end.

Definition tell (ev : event) : M unit := fun w => (Ret tt, emit ev w).

(** [logger.info], [logger.warning], [logger.error] of [mpxpy.logger]. *)
Definition logger_info (m : list piece) : M unit := tell (EvLog INFO m).
Definition logger_warning (m : list piece) : M unit := tell (EvLog WARNING m).
Definition logger_error (m : list piece) : M unit := tell (EvLog ERROR m).

(** [time.sleep(seconds)]. *)
Definition time_sleep (seconds : Z) : M unit := tell (EvSleep seconds).

(** [mpxpy.request_handler.get] and [post]: the request is recorded, the
    transport answers. *)
Definition send (rq : request) : M response :=
  fun w =>
    match w_server w (count_requests (w_trace w)) rq with
    | HttpOk r => (Ret r, emit (EvRequest rq) w)
    | HttpRaise e => (Raise e, emit (EvRequest rq) w)
    end.

Definition get (url : string) (headers : list (string * string)) : M response :=
  send {| req_method := GET; req_url := url; req_headers := headers; req_body := NoBody |}.

Definition post (url : string) (headers : list (string * string)) (body : http_body) : M response :=
  send {| req_method := POST; req_url := url; req_headers := headers; req_body := body |}.

Definition response_json (r : response) : M pyval := lift (resp_json r).

Definition raise_for_status (r : response) : M unit :=
  match resp_raise_for_status r with
  | Some e => raise e
  | None => ret tt
  end.

(** ** Paths and the file system *)

Definition starts_with_sep (s : string) : bool :=
  match s with
  | String c _ => Ascii.eqb c "/"
  | EmptyString => false
  end.

Fixpoint ends_with_sep (s : string) : bool :=
  match s with
  | EmptyString => false
  | String c EmptyString => Ascii.eqb c "/"
  | String _ s' => ends_with_sep s'
  end.

(** One step of [posixpath.join]: an absolute component discards what came
    before it; a separator is added unless the path is empty or ends in one. *)
Definition join_step (path b : string) : string :=
  if starts_with_sep b then b
  else if String.eqb path "" || ends_with_sep path then path +:+ b
  else path +:+ "/" +:+ b.

(** [os.path.join(a, *p)]. *)
Definition os_path_join (a : string) (p : list string) : string :=
  fold_left join_step p a.

(** The components of a path, split at every ["/"]. *)
Fixpoint split_sep (s : string) : list string :=
  match s with
  | EmptyString => [""]
  | String c s' =>
      if Ascii.eqb c "/" then "" :: split_sep s'
      else match split_sep s' with
           | [] => [String c ""]
           | h :: t => String c h :: t
           end
  end.

(** The directory a path starts from. *)
Definition start_dir (cwd : list string) (p : string) : list string :=
  if starts_with_sep p then [] else cwd.

(** The root always exists and is a directory. *)
Definition fs_lookup (fs : gmap (list string) node) (p : list string) : option node :=
  match p with
  | [] => Some Dir
  | _ => fs !! p
  end.

(** A component that names no new entry: empty (doubled or trailing
    separator) or ["."]. *)
Definition is_dot (c : string) : bool := String.eqb c "" || String.eqb c ".".

(** [os.makedirs(path, exist_ok=True)], component by component: a missing
    directory is created, an existing one is entered, [".."] goes up; a
    regular file in the way raises. *)
Fixpoint makedirs_walk (fs : gmap (list string) node) (cur : list string)
    (comps : list string) : exn_class + gmap (list string) node :=
  match comps with
  | [] => inr fs
  | c :: rest =>
      if is_dot c then makedirs_walk fs cur rest
      else if String.eqb c ".." then makedirs_walk fs (removelast cur) rest
      else
        let p := cur ++ [c] in
        match fs_lookup fs p with
        | None => makedirs_walk (<[p := Dir]> fs) p rest
        | Some Dir => makedirs_walk fs p rest
        | Some (File _) =>
            inl (match rest with [] => FileExistsError | _ => NotADirectoryError end)
        end
  end.

(** Path resolution for [open]: every component but the last must be an
    existing directory.  Returns the directory reached and the last
    component. *)
Fixpoint open_walk (fs : gmap (list string) node) (cur : list string)
    (comps : list string) : exn_class + list string :=
  match comps with
  | [] => inr cur
  | c :: rest =>
      if is_dot c then open_walk fs cur rest
      else if String.eqb c ".." then open_walk fs (removelast cur) rest
      else
        let p := cur ++ [c] in
        match rest with
        | [] => inr p
        | _ =>
            match fs_lookup fs p with
            | Some Dir => open_walk fs p rest
            | Some (File _) => inl NotADirectoryError
            | None => inl FileNotFoundError
            end
        end
  end.

(** A file-system operation fails when the fault oracle says so. *)
Definition io_step {A} (ev : event) (op : World -> outcome A * World) : M A :=
  fun w =>
    match w_io_fault w (count_io (w_trace w)) with
    | Some e => (Raise e, emit ev w)
    | None => op (emit ev w)
    end.

(** [os.makedirs(path, exist_ok=True)]; [path] is [None] or a string. *)
Definition os_makedirs (path : option string) : M unit :=
  match path with
  | None =>
      raise (new_exn TypeError
               [Lit "expected str, bytes or os.PathLike object, not NoneType"])
  | Some p =>
      io_step (EvMakedirs p) (fun w =>
        if String.eqb p "" then (Raise (new_exn FileNotFoundError [Val (PStr p)]), w)
        else
          match makedirs_walk (w_fs w) (start_dir (w_cwd w) p) (split_sep p) with
          | inl c => (Raise (new_exn c [Val (PStr p)]), w)
          | inr fs' => (Ret tt, set_fs fs' w)
          end)
  end.

(** [open(path, 'wb')]: the file is created or truncated.  The handle is
    the resolved location of the file. *)
Definition open_wb (p : string) : M (list string) :=
  io_step (EvOpenWrite p) (fun w =>
    if String.eqb p "" then (Raise (new_exn FileNotFoundError [Val (PStr p)]), w)
    else
      match open_walk (w_fs w) (start_dir (w_cwd w) p) (split_sep p) with
      | inl c => (Raise (new_exn c [Val (PStr p)]), w)
      | inr target =>
          match fs_lookup (w_fs w) target, fs_lookup (w_fs w) (removelast target) with
          | Some Dir, _ => (Raise (new_exn IsADirectoryError [Val (PStr p)]), w)
          | _, Some Dir => (Ret target, set_fs (<[target := File []]> (w_fs w)) w)
          | _, Some (File _) => (Raise (new_exn NotADirectoryError [Val (PStr p)]), w)
          | _, None => (Raise (new_exn FileNotFoundError [Val (PStr p)]), w)
          end
      end).

(** [f.write(data)]: the bytes are appended to the file. *)
Definition file_write (f : list string) (data : list Byte.byte) : M unit :=
  io_step (EvWrite f data) (fun w =>
    match w_fs w !! f with
    | Some (File old) => (Ret tt, set_fs (<[f := File (old ++ data)]> (w_fs w)) w)
    | _ => (Raise (new_exn OSError [Lit "Bad file descriptor"]), w)
    end).

(** [f.close()], run by the [with] statement on every exit. *)
Definition file_close (f : list string) : M unit :=
  io_step (EvClose f) (fun w => (Ret tt, w)).

(** [with open(...) as f: body f]: the file is closed on the way out,
    also when the body raises; an exception of [close] while the body's
    exception is handled carries it as its context. *)
Definition with_file {A} (f : list string) (body : M A) : M A :=
  fun w =>
    match body w with
    | (Ret a, w') =>
        match file_close f w' with
        | (Ret _, w'') => (Ret a, w'')
        | (Raise e, w'') => (Raise e, w'')
        | (OutOfFuel, w'') => (OutOfFuel, w'')
        end
    | (Raise e, w') =>
        match file_close f w' with
        | (Raise e', w'') => (Raise (with_context e e'), w'')
        | (_, w'') => (Raise e, w'')
        end
    | (OutOfFuel, w') => (OutOfFuel, w')
    end.

(** ** Subscripting, membership, iteration *)

Definition not_subscriptable (obj : pyval) : exn :=
  new_exn TypeError [Lit "'"; Lit (type_name obj); Lit "' object is not subscriptable"].

(** [seq[i]] for an integer [i]: negative indices count from the end. *)
Definition seq_index {A} (l : list A) (i : Z) : option A :=
  let n := Z.of_nat (length l) in
  let j := if i <? 0 then i + n else i in
  if (0 <=? j) && (j <? n) then l !! Z.to_nat j else None.

(** [obj[key]]. *)
Definition py_getitem (obj key : pyval) : exn + pyval :=
  match obj with
  | PDict d =>
      if py_hashable key then
        match dict_get d key with
        | Some v => inr v
        | None => inl (new_exn KeyError [Val key])
        end
      else inl (new_exn TypeError [Lit "unhashable type: '"; Lit (type_name key); Lit "'"])
  | PList l | PTuple l =>
      match int_value key with
      | Some i =>
          match seq_index l i with
          | Some v => inr v
          | None => inl (new_exn IndexError [Lit "index out of range"])
          end
      | None => inl (new_exn TypeError [Lit "indices must be integers or slices, not ";
                                        Lit (type_name key)])
      end
  | PStr s =>
      match int_value key with
      | Some i =>
          match seq_index (list_ascii_of_string s) i with
          | Some c => inr (PStr (String c ""))
          | None => inl (new_exn IndexError [Lit "string index out of range"])
          end
      | None => inl (new_exn TypeError [Lit "string indices must be integers, not ";
                                        Lit (type_name key)])
      end
  | _ => inl (not_subscriptable obj)
  end.

(** [obj.items()]: only dictionaries have it. *)
Definition py_items (obj : pyval) : exn + list (pyval * pyval) :=
  match obj with
  | PDict d => inr d
  | _ => inl (new_exn AttributeError
                [Lit "'"; Lit (type_name obj); Lit "' object has no attribute 'items'"])
  end.

Fixpoint is_substring (needle hay : string) : bool :=
  String.prefix needle hay ||
  match hay with
  | EmptyString => false
  | String _ hay' => is_substring needle hay'
  end.

(** [s in obj] for a string [s]: a key of a dictionary, an element of a
    list or tuple, a substring of a string. *)
Definition py_contains_str (s : string) (obj : pyval) : exn + bool :=
  match obj with
  | PDict d => inr (match dict_get d (PStr s) with Some _ => true | None => false end)
  | PList l | PTuple l => inr (existsb (fun v => py_eq_str v s) l)
  | PStr t => inr (is_substring s t)
  | _ => inl (new_exn TypeError
                [Lit "argument of type '"; Lit (type_name obj); Lit "' is not iterable"])
  end.

(** How an f-string renders an [Optional[str]]. *)
Definition fmt_opt (o : option string) : string :=
  match o with
  | Some s => s
  | None => "None"
  end.

Definition opt_val (o : option string) : pyval :=
  match o with
  | Some s => PStr s
  | None => PNone
  end.

(** ** conversion.py *)

(** [mpxpy.auth.Auth], as far as the modules read it. *)
Record Auth : Type := {
  api_url : string;
  headers : list (string * string)
}.

Record Conversion : Type := {
  auth : Auth;
  conversion_id : string;
  conversion_formats : pyval
}.

(** [Conversion.__init__]. *)
Definition Conversion_init (a : option Auth) (cid : option string) (formats : pyval)
  : M Conversion :=
  match a with
  | None =>
      logger_error [Lit "Conversion requires an authenticated client"] >>
      raise (new_exn ValidationError [Lit "Conversion requires an authenticated client"])
  | Some a =>
      let conversion_id := match cid with Some s => s | None => "" end in
      if String.eqb conversion_id "" then
        logger_error [Lit "Conversion requires a Conversion ID"] >>
        raise (new_exn ValidationError [Lit "Conversion requires a Conversion ID"])
      else
        ret {| auth := a; conversion_id := conversion_id; conversion_formats := formats |}
  end.

(** The request of [Conversion.conversion_status]. *)
Definition status_url (c : Conversion) : string :=
  os_path_join (api_url (auth c)) ["v3/converter"; conversion_id c].

(** [Conversion.conversion_status]. *)
Definition conversion_status (c : Conversion) : M pyval :=
  logger_info [Lit "Getting status for conversion "; Val (PStr (conversion_id c))] >>
  let endpoint := status_url c in
  let! response := get endpoint (headers (auth c)) in
  response_json response.

(** [format_data['status'] == 'completed' or format_data['status'] == 'error']. *)
Definition format_done (format_data : pyval) : exn + bool :=
  match py_getitem format_data (PStr "status") with
  | inl e => inl e
  | inr s =>
      if py_eq_str s "completed" then inr true
      else
        match py_getitem format_data (PStr "status") with
        | inl e => inl e
        | inr s' => inr (py_eq_str s' "error")
        end
  end.

(** [all(... for _, format_data in items)]: stops at the first entry that
    is not done; an entry it does not reach is not looked at. *)
Fixpoint all_formats_done (items : list (pyval * pyval)) : exn + bool :=
  match items with
  | [] => inr true
  | (_, format_data) :: rest =>
      match format_done format_data with
      | inl e => inl e
      | inr true => all_formats_done rest
      | inr false => inr false
      end
  end.

(** The condition of the [if] in the polling loop:
    [conversion_status['status'] == 'completed' and all(...)]. *)
Definition success_condition (st : pyval) : exn + bool :=
  match py_getitem st (PStr "status") with
  | inl e => inl e
  | inr s =>
      if py_eq_str s "completed" then
        match py_getitem st (PStr "conversion_status") with
        | inl e => inl e
        | inr fm =>
            match py_items fm with
            | inl e => inl e
            | inr items => all_formats_done items
            end
        end
      else inr false
  end.

(** The condition of the [elif]: [conversion_status['status'] == 'error']. *)
Definition error_condition (st : pyval) : exn + bool :=
  match py_getitem st (PStr "status") with
  | inl e => inl e
  | inr s => inr (py_eq_str s "error")
  end.

(** The [while attempt < timeout and not completed] loop.  [completed] is
    [False] whenever the guard is evaluated (it is set right before a
    [break]), so the loop returns the value [completed] has when it is
    left.  [tv] is the timeout as passed, for the log. *)
Fixpoint poll_loop (fuel : nat) (c : Conversion) (tv : pyval) (timeout attempt : Z)
  : M bool :=
  if attempt <? timeout then
    match fuel with
    | O => out_of_fuel
    | S fuel' =>
        logger_info [Lit "Checking conversion status... ("; Val (PInt attempt);
                     Lit "/"; Val tv; Lit ")"] >>
        let! st := conversion_status c in
        let! ok := lift (success_condition st) in
        if ok then
          logger_info [Lit "Conversion "; Val (PStr (conversion_id c));
                       Lit " completed successfully"] >>
          ret true
        else
          let! failed := lift (error_condition st) in
          if failed then ret false
          else
            time_sleep 1 >>
            poll_loop fuel' c tv timeout (attempt + 1)
    end
  else ret false.

(** [Conversion.wait_until_complete(timeout)]. *)
Definition wait_until_complete (c : Conversion) (timeout : pyval) : M bool :=
  match (if isinstance_int timeout then int_value timeout else None) with
  | None => raise (new_exn ValueError [Lit "Timeout must be a positive, non-zero integer"])
  | Some t =>
      if t <=? 0 then
        raise (new_exn ValueError [Lit "Timeout must be a positive, non-zero integer"])
      else
        logger_info [Lit "Waiting for conversion "; Val (PStr (conversion_id c));
                     Lit " to complete (timeout: "; Val timeout; Lit "s)"] >>
        let! completed := poll_loop (Z.to_nat t) c timeout t 1 in
        (if negb completed then
           logger_warning [Lit "Conversion "; Val (PStr (conversion_id c));
                           Lit " did not complete within timeout period (";
                           Val timeout; Lit "s)"]
         else ret tt) >>
        ret completed
  end.

(** The request of [download_output] and of the safe download. *)
Definition output_url (c : Conversion) (conversion_format : option string) : string :=
  os_path_join (api_url (auth c))
    ["v3/converter"; conversion_id c +:+ "." +:+ fmt_opt conversion_format].

(** [Conversion.download_output]. *)
Definition download_output (c : Conversion) (conversion_format : option string)
  : M (list Byte.byte) :=
  logger_info [Lit "Downloading output for conversion "; Val (PStr (conversion_id c));
               Lit " in format: "; Val (opt_val conversion_format)] >>
  let endpoint := output_url c conversion_format in
  let! response := get endpoint (headers (auth c)) in
  ret (resp_content response).

(** The condition under which the safe download refuses:
    [not 'conversion_status' in st or
     st['conversion_status'][conversion_format]['status'] != 'completed']. *)
Definition incomplete_condition (st : pyval) (conversion_format : option string)
  : exn + bool :=
  match py_contains_str "conversion_status" st with
  | inl e => inl e
  | inr false => inr true
  | inr true =>
      match py_getitem st (PStr "conversion_status") with
      | inl e => inl e
      | inr fm =>
          match py_getitem fm (opt_val conversion_format) with
          | inl e => inl e
          | inr entry =>
              match py_getitem entry (PStr "status") with
              | inl e => inl e
              | inr s => inr (negb (py_eq_str s "completed"))
              end
          end
      end
  end.

(** [for chunk in response.iter_content(chunk_size=8192): if chunk: f.write(chunk)]. *)
Fixpoint write_chunks (f : list string) (chunks : list chunk_item) : M unit :=
  match chunks with
  | [] => ret tt
  | Chunk [] :: rest => write_chunks f rest
  | Chunk data :: rest => file_write f data >> write_chunks f rest
  | ChunkRaise e :: _ => raise e
  end.

(** The name of the downloaded file, [f'{self.conversion_id}.{conversion_format}']. *)
Definition output_name (c : Conversion) (conversion_format : option string) : string :=
  conversion_id c +:+ "." +:+ fmt_opt conversion_format.

(** The request of the download. *)
Definition output_request (c : Conversion) (conversion_format : option string) : request :=
  {| req_method := GET; req_url := output_url c conversion_format;
     req_headers := headers (auth c); req_body := NoBody |}.

(** The first part of [download_output_to_local_path], up to the [try]:
    the status check, the request of the artifact, the directory and the
    file path. *)
Definition download_prepare (c : Conversion) (conversion_format : option string)
    (path : option string) : M (response * string) :=
  logger_info [Lit "Downloading conversion "; Val (PStr (conversion_id c));
               Lit " in format "; Val (opt_val conversion_format);
               Lit " to path "; Val (opt_val path)] >>
  let! st := conversion_status c in
  let! incomplete := lift (incomplete_condition st conversion_format) in
  if incomplete then
    raise (new_ConversionIncompleteError [Lit "Conversion not complete"] PNone)
  else
    let endpoint := output_url c conversion_format in
    let! response := get endpoint (headers (auth c)) in
    (match path with
     | Some "" => ret tt
     | _ => os_makedirs path
     end) >>
    let! file_path :=
      match path with
      | Some p => ret (os_path_join p [output_name c conversion_format])
      | None => raise (new_exn TypeError
                         [Lit "expected str, bytes or os.PathLike object, not NoneType"])
      end in
    ret (response, file_path).

(** The body of the [try]: the file is opened and the chunks are written. *)
Definition write_body (file_path : string) (response : response) : M unit :=
  let! f := open_wb file_path in
  with_file f (write_chunks f (resp_chunks response)).

(** The [try] statement: whatever the body raises is replaced by a
    [FilesystemError], raised while the original is being handled. *)
Definition write_to_file (file_path : string) (response : response) : M unit :=
  try_except (write_body file_path response)
    (fun e => raise (with_context e
                       (new_exn FilesystemError [Lit "Failed to save file to system"]))).

(** [Conversion.download_output_to_local_path(conversion_format, path)]. *)
Definition download_output_to_local_path (c : Conversion)
    (conversion_format : option string) (path : option string) : M string :=
  let! prepared := download_prepare c conversion_format path in
  let response := fst prepared in
  let file_path := snd prepared in
  write_to_file file_path response >>
  logger_info [Lit "File saved successfully to "; Val (PStr file_path)] >>
  ret file_path.

(** ** image.py *)

(** The processing options of an image request, the keyword arguments
    shared by [MathpixClient.image_new] and [Image.__init__]. *)
Record image_options : Type := {
  callback : pyval;
  formats : pyval;
  data_options : pyval;
  include_detected_alphabets : pyval;
  alphabets_allowed : pyval;
  region : pyval;
  enable_blue_hsv_filter : pyval;
  confidence_threshold : pyval;
  confidence_rate_threshold : pyval;
  include_equation_tags : pyval;
  include_line_data : pyval;
  include_word_data : pyval;
  include_smiles : pyval;
  include_inchi : pyval;
  include_geometry_data : pyval;
  include_diagram_text : pyval;
  auto_rotate_confidence_threshold : pyval;
  rm_spaces : pyval;
  rm_fonts : pyval;
  idiomatic_eqn_arrays : pyval;
  idiomatic_braces : pyval;
  numbers_default_to_math : pyval;
  math_fonts_default_to_math : pyval;
  math_inline_delimiters : pyval;
  math_display_delimiters : pyval;
  enable_spell_check : pyval;
  enable_tables_fallback : pyval;
  fullwidth_punctuation : pyval
}.

(** The attributes of an [Image]: [file_path] and [file_url] hold the
    argument or [''], the options are stored as given. *)
Record Image : Type := {
  image_auth : Auth;
  file_path : pyval;
  file_url : pyval;
  options : image_options
}.

(** [a or b]. *)
Definition py_or (a b : pyval) : pyval := if py_truthy a then a else b.

(** [Image.__init__]. *)
Definition Image_init (a : option Auth) (fp fu : pyval) (o : image_options) : M Image :=
  match a with
  | None =>
      logger_error [Lit "Image requires an authenticated client"] >>
      raise (new_exn AuthenticationError [Lit "Image requires an authenticated client"])
  | Some a =>
      let self_file_path := py_or fp (PStr "") in
      let self_file_url := py_or fu (PStr "") in
      if negb (py_truthy self_file_path) && negb (py_truthy self_file_url) then
        logger_error [Lit "Image requires a file path or file URL"] >>
        raise (new_exn ValidationError [Lit "Image requires a file path or file URL"])
      else if py_truthy self_file_path && py_truthy self_file_url then
        logger_error [Lit "Exactly one of file path or file URL must be provider"] >>
        raise (new_exn ValidationError
                 [Lit "Exactly one of file path or file URL must be provider"])
      else
        ret {| image_auth := a; file_path := self_file_path; file_url := self_file_url;
               options := o |}
  end.

(** [Path(p).is_file()]. *)
Definition is_file (w : World) (p : string) : bool :=
  match open_walk (w_fs w) (start_dir (w_cwd w) p) (split_sep p) with
  | inr target =>
      match fs_lookup (w_fs w) target with
      | Some (File _) => true
      | _ => false
      end
  | inl _ => false
  end.

(** [Path(p).open("rb")]. *)
Definition open_rb (p : string) : M (list string) :=
  io_step (EvOpenRead p) (fun w =>
    match open_walk (w_fs w) (start_dir (w_cwd w) p) (split_sep p) with
    | inl c => (Raise (new_exn c [Val (PStr p)]), w)
    | inr target =>
        match fs_lookup (w_fs w) target with
        | Some (File _) => (Ret target, w)
        | Some Dir => (Raise (new_exn IsADirectoryError [Val (PStr p)]), w)
        | None => (Raise (new_exn FileNotFoundError [Val (PStr p)]), w)
        end
    end).

(** [try: m  except requests.exceptions.RequestException as e: handler e]. *)
Definition try_except_request {A} (m : M A) (handler : exn -> M A) : M A :=
  fun w =>
    match m w with
    | (Raise e, w') => if is_RequestException e then handler e w' else (Raise e, w')
    | r => r
    end.

(** [json.dumps(v)] succeeds unless a dictionary has a key that is not a
    string, a number, a boolean or [None]; the text itself is not spelled
    out. *)
Fixpoint json_dumpable (v : pyval) : bool :=
  match v with
  | PList l | PTuple l =>
      (fix go (l : list pyval) : bool :=
         match l with
         | [] => true
         | x :: l' => json_dumpable x && go l'
         end) l
  | PDict d =>
      (fix go (d : list (pyval * pyval)) : bool :=
         match d with
         | [] => true
         | (k, x) :: d' =>
             match k with
             | PNone | PBool _ | PInt _ | PFloat _ | PStr _ => json_dumpable x && go d'
             | _ => false
             end
         end) d
  | _ => true
  end.

Definition json_dumps (v : pyval) : exn + form_value :=
  if json_dumpable v then inr (JsonText v)
  else inl (new_exn TypeError [Lit "keys must be str, int, float, bool or None"]).

(** The [options] dictionary of [Image.results]. *)
Definition results_options (self : Image) : list (pyval * pyval) :=
  [(PStr "include_line_data", include_line_data (options self))].

(** The body shared by the two [try] statements of [Image.results], and
    their handler. *)
Definition ocr_request (endpoint : string) (hdrs : list (string * string))
    (body : http_body) : M pyval :=
  try_except_request
    (let! response := post endpoint hdrs body in
     raise_for_status response >>
     logger_info [Lit "OCR processing successful"] >>
     response_json response)
    (fun e =>
       logger_error [Lit "Mathpix image request failed: "; StrOf e] >>
       raise (with_context e
                (new_exn ValueError [Lit "Mathpix image request failed: "; StrOf e]))).

(** [Image.results(include_line_data=False)]. *)
Definition results (self : Image) (include_line_data_arg : pyval) : M pyval :=
  logger_info [Lit "Processing image: path="; Val (file_path self);
               Lit ", url="; Val (file_url self)] >>
  let endpoint := os_path_join (api_url (image_auth self)) ["v3/text"] in
  let opts := results_options self in
  let! options_json := lift (json_dumps (PDict opts)) in
  let data := [("options_json", options_json)] in
  if py_truthy (file_path self) then
    match file_path self with
    | PStr p =>
        fun w =>
          if negb (is_file w p) then
            (logger_error [Lit "File not found: "; Val (file_path self)] >>
             raise (new_exn FileNotFoundError
                      [Lit "File path not found: "; Val (file_path self)])) w
          else
            (let! pdf_file := open_rb p in
             with_file pdf_file
               (ocr_request endpoint (headers (image_auth self))
                  (FormBody data [("file", pdf_file)]))) w
    | v =>
        raise (new_exn TypeError
                 [Lit "expected str, bytes or os.PathLike object, not "; Lit (type_name v)])
    end
  else
    let opts := dict_set opts (PStr "src") (file_url self) in
    ocr_request endpoint (headers (image_auth self)) (JsonBody (PDict opts)).

(** [Image.lines_json]. *)
Definition lines_json (self : Image) : M pyval :=
  logger_info [Lit "Getting line-by-line OCR data"] >>
  let! result := results self (PBool true) in
  lift (py_getitem result (PStr "line_data")).

(** [Image.mmd]. *)
Definition mmd (self : Image) : M pyval :=
  logger_info [Lit "Getting Mathpix Markdown (MMD) representation"] >>
  let! result := results self (PBool false) in
  lift (py_getitem result (PStr "text")).

(** ** mathpix_client.py *)

Record MathpixClient : Type := {
  client_auth : Auth
}.

Definition is_None (v : pyval) : bool :=
  match v with PNone => true | _ => false end.

(** [len(v)]. *)
Definition py_len (v : pyval) : exn + Z :=
  match v with
  | PStr s => inr (Z.of_nat (String.length s))
  | PList l | PTuple l => inr (Z.of_nat (length l))
  | PDict d => inr (Z.of_nat (length d))
  | _ => inl (new_exn TypeError
                [Lit "object of type '"; Lit (type_name v); Lit "' has no len()"])
  end.

(** [v < 0] and [v > 1]: defined on numbers; a comparison with NaN is
    false. *)
Definition py_lt_0 (v : pyval) : exn + bool :=
  match v with
  | PInt z => inr (z <? 0)
  | PBool _ => inr false
  | PFloat f => inr (PrimFloat.ltb f 0%float)
  | _ => inl (new_exn TypeError
                [Lit "'<' not supported between instances of '"; Lit (type_name v);
                 Lit "' and 'int'"])
  end.

Definition py_gt_1 (v : pyval) : exn + bool :=
  match v with
  | PInt z => inr (1 <? z)
  | PBool _ => inr false
  | PFloat f => inr (PrimFloat.ltb 1%float f)
  | _ => inl (new_exn TypeError
                [Lit "'>' not supported between instances of '"; Lit (type_name v);
                 Lit "' and 'int'"])
  end.

(** [v is not None and (v < 0 or v > 1)]. *)
Definition threshold_invalid (v : pyval) : exn + bool :=
  if is_None v then inr false
  else
    match py_lt_0 v with
    | inl e => inl e
    | inr true => inr true
    | inr false => py_gt_1 v
    end.

(** A dictionary display [{k1: v1, k2: v2, ...}]: the entries are added
    from left to right, and every key is hashed. *)
Fixpoint dict_display (entries : list (pyval * pyval)) (acc : list (pyval * pyval))
  : exn + list (pyval * pyval) :=
  match entries with
  | [] => inr acc
  | (k, v) :: rest =>
      if py_hashable k then dict_display rest (dict_set acc k v)
      else inl (new_exn TypeError [Lit "unhashable type: '"; Lit (type_name k); Lit "'"])
  end.

(** The names [Image.__init__] accepts besides [auth]. *)
Definition image_keywords : list string :=
  ["file_path"; "file_url"; "callback"; "formats"; "data_options";
   "include_detected_alphabets"; "alphabets_allowed"; "region";
   "enable_blue_hsv_filter"; "confidence_threshold"; "confidence_rate_threshold";
   "include_equation_tags"; "include_line_data"; "include_word_data";
   "include_smiles"; "include_inchi"; "include_geometry_data";
   "include_diagram_text"; "auto_rotate_confidence_threshold"; "rm_spaces";
   "rm_fonts"; "idiomatic_eqn_arrays"; "idiomatic_braces";
   "numbers_default_to_math"; "math_fonts_default_to_math";
   "math_inline_delimiters"; "math_display_delimiters"; "enable_spell_check";
   "enable_tables_fallback"; "fullwidth_punctuation"].

Definition is_str (v : pyval) : bool :=
  match v with PStr _ => true | _ => false end.

(** A key [Image.__init__] has no parameter for. *)
Definition unexpected_keyword (k : pyval) : bool :=
  match k with
  | PStr s => negb (existsb (String.eqb s) image_keywords)
  | _ => true
  end.

(** The value a keyword argument binds to its parameter, [None] by default. *)
Definition keyword (kwargs : list (pyval * pyval)) (name : string) : pyval :=
  match dict_get kwargs (PStr name) with
  | Some v => v
  | None => PNone
  end.

(** [Image(auth=a, **kwargs)]: the keys must be strings, none of them
    [auth] again, all of them parameters of [Image.__init__]. *)
Definition Image_call (a : option Auth) (kwargs : list (pyval * pyval)) : M Image :=
  if negb (forallb (fun kv => is_str (fst kv)) kwargs) then
    raise (new_exn TypeError [Lit "keywords must be strings"])
  else if existsb (fun kv => py_eq_str (fst kv) "auth") kwargs then
    raise (new_exn TypeError [Lit "got multiple values for keyword argument 'auth'"])
  else if existsb (fun kv => unexpected_keyword (fst kv)) kwargs then
    raise (new_exn TypeError [Lit "__init__() got an unexpected keyword argument"])
  else
    Image_init a (keyword kwargs "file_path") (keyword kwargs "file_url")
      {| callback := keyword kwargs "callback";
         formats := keyword kwargs "formats";
         data_options := keyword kwargs "data_options";
         include_detected_alphabets := keyword kwargs "include_detected_alphabets";
         alphabets_allowed := keyword kwargs "alphabets_allowed";
         region := keyword kwargs "region";
         enable_blue_hsv_filter := keyword kwargs "enable_blue_hsv_filter";
         confidence_threshold := keyword kwargs "confidence_threshold";
         confidence_rate_threshold := keyword kwargs "confidence_rate_threshold";
         include_equation_tags := keyword kwargs "include_equation_tags";
         include_line_data := keyword kwargs "include_line_data";
         include_word_data := keyword kwargs "include_word_data";
         include_smiles := keyword kwargs "include_smiles";
         include_inchi := keyword kwargs "include_inchi";
         include_geometry_data := keyword kwargs "include_geometry_data";
         include_diagram_text := keyword kwargs "include_diagram_text";
         auto_rotate_confidence_threshold := keyword kwargs "auto_rotate_confidence_threshold";
         rm_spaces := keyword kwargs "rm_spaces";
         rm_fonts := keyword kwargs "rm_fonts";
         idiomatic_eqn_arrays := keyword kwargs "idiomatic_eqn_arrays";
         idiomatic_braces := keyword kwargs "idiomatic_braces";
         numbers_default_to_math := keyword kwargs "numbers_default_to_math";
         math_fonts_default_to_math := keyword kwargs "math_fonts_default_to_math";
         math_inline_delimiters := keyword kwargs "math_inline_delimiters";
         math_display_delimiters := keyword kwargs "math_display_delimiters";
         enable_spell_check := keyword kwargs "enable_spell_check";
         enable_tables_fallback := keyword kwargs "enable_tables_fallback";
         fullwidth_punctuation := keyword kwargs "fullwidth_punctuation" |}.

(** The entries of the [image_options] display of [image_new], in source
    order: each argument is used as the key of its own value. *)
Definition image_options_entries (o : image_options) : list (pyval * pyval) :=
  map (fun v => (v, v))
    [callback o; formats o; data_options o; include_detected_alphabets o;
     alphabets_allowed o; region o; enable_blue_hsv_filter o; confidence_threshold o;
     confidence_rate_threshold o; include_equation_tags o; include_line_data o;
     include_word_data o; include_smiles o; include_inchi o; include_geometry_data o;
     include_diagram_text o; auto_rotate_confidence_threshold o; rm_spaces o;
     rm_fonts o; idiomatic_eqn_arrays o; idiomatic_braces o; numbers_default_to_math o;
     math_fonts_default_to_math o; math_inline_delimiters o; math_display_delimiters o;
     enable_spell_check o; enable_tables_fallback o; fullwidth_punctuation o].

(** One of the three threshold checks of [image_new]. *)
Definition check_threshold (v : pyval) (name : string) : M unit :=
  let! bad := lift (threshold_invalid v) in
  if bad then
    logger_error [Lit "Invalid parameters: "; Lit name; Lit " must be between 0 and 1"] >>
    raise (new_exn ValidationError [Lit name; Lit " must be between 0 and 1"])
  else ret tt.

(** [MathpixClient.image_new]. *)
Definition image_new (self : MathpixClient) (fp fu : pyval) (o : image_options) : M Image :=
  if (is_None fp && is_None fu) || (negb (is_None fp) && negb (is_None fu)) then
    logger_error [Lit "Invalid parameters: Exactly one of file_path or file_url must be provided"] >>
    raise (new_exn ValidationError
             [Lit "Exactly one of file_path or file_url must be provided"])
  else
    let! n := lift (py_len (formats o)) in
    if negb (n =? 1) then
      logger_error [Lit "Invalid parameters: formats can only contain one argument"] >>
      raise (new_exn ValidationError [Lit "Formats can only contain one argument"])
    else
      check_threshold (confidence_threshold o) "confidence_threshold" >>
      check_threshold (confidence_rate_threshold o) "confidence_rate_threshold" >>
      check_threshold (auto_rotate_confidence_threshold o)
        "auto_rotate_confidence_threshold" >>
      let! image_options := lift (dict_display (image_options_entries o) []) in
      let! image_options :=
        if py_truthy fp then
          logger_info [Lit "Creating new Image: url="; Val fu] >>
          ret (dict_set image_options (PStr "file_path") fp)
        else
          logger_info [Lit "Creating new Image: url="; Val fu] >>
          ret (dict_set image_options (PStr "file_url") fu) in
      Image_call (Some (client_auth self)) image_options.

(** Modelled from the spec: [mpxpy.file_batch.FileBatch] is not among the
    sources; a BatchHandle owns a batch identifier and a reference to the
    caller's credentials. *)
Record FileBatch : Type := {
  batch_auth : Auth;
  file_batch_uuid : pyval
}.

Definition production_url : string := "https://api.mathpix.com".

(** [MathpixClient.file_batch_new]. *)
Definition file_batch_new (self : MathpixClient) : M FileBatch :=
  if String.eqb (api_url (client_auth self)) production_url then
    logger_warning [Lit "File batch feature not available in production API"] >>
    raise (new_exn NotImplementedError
             [Lit "File batches are not yet available in the production API. ";
              Lit "This feature will be enabled in a future release."])
  else
    logger_info [Lit "Creating new file batch"] >>
    let endpoint := os_path_join (api_url (client_auth self)) ["v3/file-batches"] in
    try_except_request
      (let! response := post endpoint (headers (client_auth self)) NoBody in
       raise_for_status response >>
       let! response_json := response_json response in
       let! uuid := lift (py_getitem response_json (PStr "file_batch_uuid")) in
       logger_info [Lit "File batch created, ID: "; Val uuid] >>
       ret {| batch_auth := client_auth self; file_batch_uuid := uuid |})
      (fun e =>
         logger_error [Lit "File batch creation failed: "; StrOf e] >>
         raise (with_context e
                  (new_exn MathpixClientError [Lit "Mathpix request failed: "; StrOf e]))).

(** ** Worlds for examples *)

Definition add_events (evs : list event) (w : World) : World :=
  {| w_server := w_server w; w_io_fault := w_io_fault w; w_fs := w_fs w;
     w_cwd := w_cwd w; w_trace := evs ++ w_trace w |}.

Definition json_reply (p : pyval) : response :=
  {| resp_json := inr p; resp_content := []; resp_chunks := [];
     resp_raise_for_status := None |}.

(** A status payload of the shape the service sends:
    [{"status": s, "conversion_status": {f: {"status": fs}, ...}}]. *)
Definition status_payload (s : string) (fmts : list (string * string)) : pyval :=
  PDict [(PStr "status", PStr s);
         (PStr "conversion_status",
          PDict (map (fun fs : string * string =>
                        (PStr (fst fs), PDict [(PStr "status", PStr (snd fs))])) fmts))].

(** A service that answers the n-th request with the n-th payload of a
    script, and fails to connect after the script has run out. *)
Definition scripted (script : list pyval) : nat -> request -> http_result :=
  fun n _ =>
    match script !! n with
    | Some p => HttpOk (json_reply p)
    | None => HttpRaise (new_exn (RequestsError "ConnectionError") [Lit "connection refused"])
    end.

Definition world_of (server : nat -> request -> http_result) : World :=
  {| w_server := server; w_io_fault := fun _ => None; w_fs := {[ ["home"] := Dir ]};
     w_cwd := ["home"]; w_trace := [] |}.

Definition demo_auth : Auth :=
  {| api_url := "https://api.mathpix.com"; headers := [("app_id", "id"); ("app_key", "key")] |}.

Definition demo_conversion : Conversion :=
  {| auth := demo_auth; conversion_id := "c42";
     conversion_formats := PDict [(PStr "docx", PBool true); (PStr "tex", PBool true)] |}.

(** ** The polling contract, in the words of the specification *)

(** The request [conversion_status] sends. *)
Definition status_request (c : Conversion) : request :=
  {| req_method := GET; req_url := status_url c; req_headers := headers (auth c);
     req_body := NoBody |}.

(** The transport answers the request [rq], made after [n] earlier ones,
    with a response whose JSON body decodes to [p]. *)
Definition answers (w : World) (n : nat) (rq : request) (p : pyval) : Prop :=
  ∃ r, w_server w n rq = HttpOk r ∧ resp_json r = inr p.

(** [v] has a ["status"] field equal to the string [s]. *)
Definition has_status (v : pyval) (s : string) : Prop :=
  py_getitem v (PStr "status") = inr (PStr s).

(** The per-format mapping of a status payload. *)
Definition formats_of (st : pyval) (items : list (pyval * pyval)) : Prop :=
  py_getitem st (PStr "conversion_status") = inr (PDict items).

(** A format entry is terminal: completed or error. *)
Definition format_terminal (format_data : pyval) : Prop :=
  has_status format_data "completed" ∨ has_status format_data "error".

(** Stopping condition 1: overall [completed] and every format terminal. *)
Definition succeeded (st : pyval) : Prop :=
  has_status st "completed" ∧
  ∃ items, formats_of st items ∧ Forall (λ kv, format_terminal (snd kv)) items.

(** Stopping condition 2: overall [error]. *)
Definition hard_failed (st : pyval) : Prop := has_status st "error".

(** The payload has the fields the stopping conditions read: an overall
    status and, when that is [completed], a format mapping whose entries
    each have a status. *)
Definition readable (st : pyval) : Prop :=
  ∃ v, py_getitem st (PStr "status") = inr v ∧
       (v = PStr "completed" →
        ∃ items, formats_of st items ∧
                 Forall (λ kv, ∃ u, py_getitem (snd kv) (PStr "status") = inr u) items).

(** A status that satisfies no stopping condition. *)
Definition pending (st : pyval) : Prop :=
  readable st ∧ ¬ succeeded st ∧ ¬ hard_failed st.

(** The events of one round of the loop that ends in the sleep, and of
    [k] such rounds starting at [attempt]; the most recent first. *)
Definition fetch_events (c : Conversion) (tv : pyval) (attempt : Z) : list event :=
  [EvRequest (status_request c);
   EvLog INFO [Lit "Getting status for conversion "; Val (PStr (conversion_id c))];
   EvLog INFO [Lit "Checking conversion status... ("; Val (PInt attempt);
               Lit "/"; Val tv; Lit ")"]].

Definition round_events (c : Conversion) (tv : pyval) (attempt : Z) : list event :=
  EvSleep 1 :: fetch_events c tv attempt.

Fixpoint pending_rounds (c : Conversion) (tv : pyval) (attempt : Z) (k : nat) : list event :=
  match k with
  | O => []
  | S k' => pending_rounds c tv (attempt + 1) k' ++ round_events c tv attempt
  end.

Definition is_sleep (ev : event) : bool :=
  match ev with EvSleep _ => true | _ => false end.

Definition count_sleeps (tr : list event) : nat := length (filter is_sleep tr).

(** ** The error taxonomy of the specification *)

Inductive spec_error : Type :=
| InvalidArgument
| RemoteError
| IncompleteJobError
| FilesystemFailure.

(** The exception classes that stand for the four typed errors:
    argument validation raises [ValueError] or [ValidationError], a failed
    request is wrapped in [MathpixClientError], the safe download raises
    [ConversionIncompleteError] and [FilesystemError]. *)
Definition spec_error_of (c : exn_class) : option spec_error :=
  match c with
  | ValueError | ValidationError => Some InvalidArgument
  | MathpixClientError => Some RemoteError
  | ConversionIncompleteError => Some IncompleteJobError
  | FilesystemError => Some FilesystemFailure
  | _ => None
  end.

(** Payloads of the examples. *)
Definition processing_status : pyval :=
  status_payload "processing" [("docx", "processing"); ("tex", "processing")].

Definition mixed_status : pyval :=
  status_payload "completed" [("docx", "completed"); ("tex", "error")].

Definition error_status : pyval :=
  status_payload "error" [("docx", "error")].

(** ** The file system, in the words of the specification *)

(** Where a path leads, read component by component. *)
Fixpoint walk (cur : list string) (comps : list string) : list string :=
  match comps with
  | [] => cur
  | c :: rest =>
      if is_dot c then walk cur rest
      else if String.eqb c ".." then walk (removelast cur) rest
      else walk (cur ++ [c]) rest
  end.

Definition resolve (cwd : list string) (p : string) : list string :=
  walk (start_dir cwd p) (split_sep p).

(** Every entry of the file system lies in a directory. *)
Definition fs_wf (fs : gmap (list string) node) : Prop :=
  ∀ p n, fs !! p = Some n → p ≠ [] ∧ fs_lookup fs (removelast p) = Some Dir.

(** The file system is well formed and the working directory exists. *)
Definition world_ok (w : World) : Prop :=
  fs_wf (w_fs w) ∧ fs_lookup (w_fs w) (w_cwd w) = Some Dir.

Fixpoint has_sep (s : string) : bool :=
  match s with
  | EmptyString => false
  | String c s' => Ascii.eqb c "/" || has_sep s'
  end.

(** A file name that is one path component: no separator, not [""], ["."]
    or [".."]. *)
Definition plain_name (s : string) : bool :=
  negb (has_sep s) && negb (is_dot s) && negb (String.eqb s "..").

(** A downloaded artifact of three chunks, the second one empty. *)
Definition demo_artifact : response :=
  {| resp_json := inl (new_exn (RequestsError "JSONDecodeError") [Lit "not JSON"]);
     resp_content := [Byte.x50; Byte.x4b; Byte.x03];
     resp_chunks := [Chunk [Byte.x50; Byte.x4b]; Chunk []; Chunk [Byte.x03]];
     resp_raise_for_status := None |}.

(** A service that answers the status request with [st] and every later
    request with the artifact. *)
Definition download_service (st : pyval) : nat -> request -> http_result :=
  fun n _ =>
    match n with
    | O => HttpOk (json_reply st)
    | _ => HttpOk demo_artifact
    end.

(** The same world with a disk that fails at its [k]-th operation. *)
Definition failing_disk (k : nat) (e : exn) (w : World) : World :=
  {| w_server := w_server w;
     w_io_fault := fun n => if Nat.eqb n k then Some e else None;
     w_fs := w_fs w; w_cwd := w_cwd w; w_trace := w_trace w |}.

Definition disk_full : exn := new_exn OSError [Lit "No space left on device"].

(** The worlds of the download examples: the status says [processing];
    the status says [completed] for docx; the same on a disk that fails at
    its fourth operation (the second write). *)
Definition processing_world : World := world_of (download_service processing_status).
Definition completed_world : World := world_of (download_service mixed_status).

Definition count_open_writes (tr : list event) : nat := length (filter is_open_write tr).

(** The disk does not fail. *)
Definition no_faults (w : World) : Prop := ∀ n, w_io_fault w n = None.

(** ** Examples for the image requests and the factory *)

(** The options when every keyword argument is left at its default. *)
Definition default_options : image_options :=
  {| callback := PNone; formats := PNone; data_options := PNone;
     include_detected_alphabets := PNone; alphabets_allowed := PNone; region := PNone;
     enable_blue_hsv_filter := PNone; confidence_threshold := PNone;
     confidence_rate_threshold := PNone; include_equation_tags := PNone;
     include_line_data := PNone; include_word_data := PNone; include_smiles := PNone;
     include_inchi := PNone; include_geometry_data := PNone;
     include_diagram_text := PNone; auto_rotate_confidence_threshold := PNone;
     rm_spaces := PNone; rm_fonts := PNone; idiomatic_eqn_arrays := PNone;
     idiomatic_braces := PNone; numbers_default_to_math := PNone;
     math_fonts_default_to_math := PNone; math_inline_delimiters := PNone;
     math_display_delimiters := PNone; enable_spell_check := PNone;
     enable_tables_fallback := PNone; fullwidth_punctuation := PNone |}.

Definition with_formats (v : pyval) (o : image_options) : image_options :=
  {| callback := callback o; formats := v; data_options := data_options o;
     include_detected_alphabets := include_detected_alphabets o;
     alphabets_allowed := alphabets_allowed o; region := region o;
     enable_blue_hsv_filter := enable_blue_hsv_filter o;
     confidence_threshold := confidence_threshold o;
     confidence_rate_threshold := confidence_rate_threshold o;
     include_equation_tags := include_equation_tags o;
     include_line_data := include_line_data o;
     include_word_data := include_word_data o; include_smiles := include_smiles o;
     include_inchi := include_inchi o; include_geometry_data := include_geometry_data o;
     include_diagram_text := include_diagram_text o;
     auto_rotate_confidence_threshold := auto_rotate_confidence_threshold o;
     rm_spaces := rm_spaces o; rm_fonts := rm_fonts o;
     idiomatic_eqn_arrays := idiomatic_eqn_arrays o;
     idiomatic_braces := idiomatic_braces o;
     numbers_default_to_math := numbers_default_to_math o;
     math_fonts_default_to_math := math_fonts_default_to_math o;
     math_inline_delimiters := math_inline_delimiters o;
     math_display_delimiters := math_display_delimiters o;
     enable_spell_check := enable_spell_check o;
     enable_tables_fallback := enable_tables_fallback o;
     fullwidth_punctuation := fullwidth_punctuation o |}.

Definition demo_client : MathpixClient := {| client_auth := demo_auth |}.

Definition local_client : MathpixClient :=
  {| client_auth := {| api_url := "http://localhost:8070"; headers := [] |} |}.

Definition demo_image_url : pyval :=
  PStr "https://mathpix-ocr-examples.s3.amazonaws.com/cases_hw.jpg".

(** An image of a remote file, constructed with the default options. *)
Definition demo_image : Image :=
  {| image_auth := demo_auth; file_path := PStr ""; file_url := demo_image_url;
     options := default_options |}.

(** A transport that cannot connect. *)
Definition connection_error : exn :=
  new_exn (RequestsError "ConnectionError") [Lit "connection refused"].

Definition unreachable : nat -> request -> http_result :=
  fun _ _ => HttpRaise connection_error.

(** ** The caller's view of an outcome *)


(** The request [rq], made after [n] earlier ones, fails with [e]: the
    transport raises it, or [raise_for_status] does, or the decoding of
    the body does. *)
Definition request_fails (w : World) (n : nat) (rq : request) (e : exn) : Prop :=
  w_server w n rq = HttpRaise e ∨
  ∃ r, w_server w n rq = HttpOk r ∧
       (resp_raise_for_status r = Some e ∨
        (resp_raise_for_status r = None ∧ resp_json r = inl e)).

(** The requests of a trace, the most recent first. *)
Fixpoint requests_of (tr : list event) : list request :=
  match tr with
  | [] => []
  | EvRequest rq :: tr' => rq :: requests_of tr'
  | _ :: tr' => requests_of tr'
  end.



(** The explicit checks of [image_new]: exactly one of [file_path] and
    [file_url] is given, and each threshold is [None] or lies in [0, 1]. *)
Definition exactly_one_given (fp fu : pyval) : Prop := is_None fp ≠ is_None fu.

Definition thresholds_valid (o : image_options) : Prop :=
  threshold_invalid (confidence_threshold o) = inr false ∧
  threshold_invalid (confidence_rate_threshold o) = inr false ∧
  threshold_invalid (auto_rotate_confidence_threshold o) = inr false.

(** The request of [file_batch_new] and the request [Image.results] makes
    for a remote image. *)
Definition batch_request (self : MathpixClient) : request :=
  {| req_method := POST;
     req_url := os_path_join (api_url (client_auth self)) ["v3/file-batches"];
     req_headers := headers (client_auth self); req_body := NoBody |}.

Definition remote_image_request (self : Image) : request :=
  {| req_method := POST;
     req_url := os_path_join (api_url (image_auth self)) ["v3/text"];
     req_headers := headers (image_auth self);
     req_body := JsonBody (PDict (dict_set (results_options self) (PStr "src")
                                    (file_url self))) |}.

(** ** Traces, for the properties below *)



(** A trace of writes only. *)
Definition only_writes (tr : list event) : Prop :=
  Forall (λ ev, match ev with EvWrite _ _ => True | _ => False end) tr.

(** What a fetch of JSON gives the caller when nothing handles its
    failures: the decoded body, or the exception of the transport or of
    the decoder. *)
Definition fetch_outcome (w : World) (n : nat) (rq : request) : outcome pyval :=
  match w_server w n rq with
  | HttpOk r =>
      match resp_json r with
      | inr p => Ret p
      | inl e => Raise e
      end
  | HttpRaise e => Raise e
  end.

(** The last request made between the worlds [w] and [w'] was answered
    with the payload [p]. *)
Definition last_fetch (w w' : World) (rq : request) (p : pyval) : Prop :=
  ∃ n, count_requests (w_trace w') = S n
       ∧ (count_requests (w_trace w) ≤ n)%nat
       ∧ answers w n rq p.

(** The number of fetches a timeout allows: [timeout - 1] for an integer,
    none for anything else. *)
Definition fetch_budget (tv : pyval) : nat :=
  match int_value tv with
  | Some t => Z.to_nat (t - 1)
  | None => 0
  end.

(** A payload that is a dictionary without the field [key] the poller
    reads: no ["status"], or the status [completed] without the
    ["conversion_status"] mapping. *)
Definition missing_field (p : pyval) (key : string) : Prop :=
  ∃ d, p = PDict d ∧
       ((key = "status" ∧ dict_get d (PStr "status") = None) ∨
        (key = "conversion_status" ∧
         dict_get d (PStr "status") = Some (PStr "completed") ∧
         dict_get d (PStr "conversion_status") = None)).

(** The events of the safe download up to the request of the artifact,
    the most recent first. *)
Definition download_fetch_events (c : Conversion) (conversion_format path : option string)
  : list event :=
  [EvRequest (output_request c conversion_format);
   EvRequest (status_request c);
   EvLog INFO [Lit "Getting status for conversion "; Val (PStr (conversion_id c))];
   EvLog INFO [Lit "Downloading conversion "; Val (PStr (conversion_id c));
               Lit " in format "; Val (opt_val conversion_format);
               Lit " to path "; Val (opt_val path)]].

(** The status payload says that the format is completed. *)
Definition format_completed (st : pyval) (fmt : string) : Prop :=
  ∃ fm entry,
    py_getitem st (PStr "conversion_status") = inr fm
    ∧ py_getitem fm (PStr fmt) = inr entry
    ∧ has_status entry "completed".

(** A world in which an earlier download left [out/c42.docx] behind. *)
Definition downloaded_world : World :=
  {| w_server := download_service mixed_status;
     w_io_fault := fun _ => None;
     w_fs := <[ ["home"; "out"; "c42.docx"] := File [Byte.x6f; Byte.x6c; Byte.x64; Byte.x21] ]>
               (<[ ["home"; "out"] := Dir ]> {[ ["home"] := Dir ]});
     w_cwd := ["home"];
     w_trace := [] |}.

Definition is_makedirs (ev : event) : bool :=
  match ev with EvMakedirs _ => true | _ => false end.

Definition count_makedirs (tr : list event) : nat := length (filter is_makedirs tr).

(** The events of a safe download that stops at the status check. *)
Definition download_refused_events (c : Conversion) (conversion_format path : option string)
  : list event :=
  [EvRequest (status_request c);
   EvLog INFO [Lit "Getting status for conversion "; Val (PStr (conversion_id c))];
   EvLog INFO [Lit "Downloading conversion "; Val (PStr (conversion_id c));
               Lit " in format "; Val (opt_val conversion_format);
               Lit " to path "; Val (opt_val path)]].

(** The keys of a dictionary are strings, as they are in every dictionary
    decoded from JSON. *)
Definition string_keys (d : list (pyval * pyval)) : Prop :=
  Forall (λ kv, is_str (fst kv) = true) d.

(** The data of the chunks that arrive before the stream fails. *)
Fixpoint chunk_data (chunks : list chunk_item) : list (list Byte.byte) :=
  match chunks with
  | Chunk data :: rest => data :: chunk_data rest
  | _ => []
  end.

(** ** Image requests *)

(** The request [Image.results] makes for a local image whose file was
    opened as [f]. *)
Definition local_image_request (self : Image) (f : list string) : request :=
  {| req_method := POST;
     req_url := os_path_join (api_url (image_auth self)) ["v3/text"];
     req_headers := headers (image_auth self);
     req_body := FormBody [("options_json", JsonText (PDict (results_options self)))]
                          [("file", f)] |}.

(** What a subscript gives the caller. *)
Definition subscript_outcome (obj : pyval) (key : string) : outcome pyval :=
  match py_getitem obj (PStr key) with
  | inr v => Ret v
  | inl e => Raise e
  end.

(** A world with an image in the working directory. *)
Definition image_world (server : nat -> request -> http_result) : World :=
  {| w_server := server;
     w_io_fault := fun _ => None;
     w_fs := <[ ["home"; "eq.png"] := File [Byte.x89; Byte.x50; Byte.x4e; Byte.x47] ]>
               {[ ["home"] := Dir ]};
     w_cwd := ["home"];
     w_trace := [] |}.

Definition local_image : Image :=
  {| image_auth := demo_auth; file_path := PStr "eq.png"; file_url := PStr "";
     options := default_options |}.

Definition ocr_payload : pyval :=
  PDict [(PStr "text", PStr "\( x^2 \)"); (PStr "confidence", PInt 1)].

(** ** mathpix_client.py: [conversion_new] *)

(** A [Conversion] whose identifier is the value found in a response: it
    is stored without a check of its type. *)
Record ConversionObject : Type := {
  obj_auth : Auth;
  obj_conversion_id : pyval;
  obj_conversion_formats : pyval
}.

(** [Conversion(auth=a, conversion_id=cid, conversion_formats=fmts)] for
    arguments of any type: [Conversion.__init__] of conversion.py. *)
Definition Conversion_call (a : Auth) (cid fmts : pyval) : M ConversionObject :=
  let self_conversion_id := py_or cid (PStr "") in
  if negb (py_truthy self_conversion_id) then
    logger_error [Lit "Conversion requires a Conversion ID"] >>
    raise (new_exn ValidationError [Lit "Conversion requires a Conversion ID"])
  else
    ret {| obj_auth := a; obj_conversion_id := self_conversion_id;
           obj_conversion_formats := fmts |}.

(** The object as a [Conversion], when its identifier is a string. *)
Definition typed_conversion (c : ConversionObject) : option Conversion :=
  match obj_conversion_id c with
  | PStr s => Some {| auth := obj_auth c; conversion_id := s;
                      conversion_formats := obj_conversion_formats c |}
  | _ => None
  end.

(** The request of [conversion_new]. *)
Definition conversion_request (self : MathpixClient) (mmd_text fmts : pyval) : request :=
  {| req_method := POST;
     req_url := os_path_join (api_url (client_auth self)) ["v3/converter"];
     req_headers := headers (client_auth self);
     req_body := JsonBody (PDict [(PStr "mmd", mmd_text); (PStr "formats", fmts)]) |}.

(** [MathpixClient.conversion_new(mmd, conversion_formats)]. *)
Definition conversion_new (self : MathpixClient) (mmd_text fmts : pyval)
  : M ConversionObject :=
  logger_info [Lit "Starting new MMD conversions to: "; Val fmts] >>
  let endpoint := os_path_join (api_url (client_auth self)) ["v3/converter"] in
  let opts := [(PStr "mmd", mmd_text); (PStr "formats", fmts)] in
  try_except_request
    (let! response := post endpoint (headers (client_auth self)) (JsonBody (PDict opts)) in
     raise_for_status response >>
     let! response_json := response_json response in
     let! has_error := lift (py_contains_str "error" response_json) in
     if has_error then
       logger_error [Lit "Conversion failed: "; Val response_json] >>
       raise (new_exn MathpixClientError [Lit "Conversion failed: "; Val response_json])
     else
       let! cid := lift (py_getitem response_json (PStr "conversion_id")) in
       logger_info [Lit "Conversion created, ID: "; Val cid] >>
       Conversion_call (client_auth self) cid fmts)
    (fun e =>
       logger_error [Lit "Conversion request failed: "; StrOf e] >>
       raise (with_context e
                (new_exn MathpixClientError [Lit "Conversion request failed: "; StrOf e]))).

(** ** mathpix_client.py: [pdf_new] *)

(** The optional arguments of [pdf_new] besides the two sources. *)
Record pdf_arguments : Type := {
  pdf_file_batch_uuid : pyval;
  pdf_webhook_url : pyval;
  pdf_mathpix_webhook_secret : pyval;
  pdf_webhook_payload : pyval;
  pdf_webhook_enabled_events : pyval;
  pdf_conversion_formats : pyval
}.

(** The keyword arguments [pdf_new] gives to [Pdf(...)]: the identifier
    from the response, the one source that was used ([None] here stands for
    a keyword that is not passed), and the caller's optional arguments. *)
Record Pdf_keywords : Type := {
  kw_pdf_id : pyval;
  kw_file_path : option pyval;
  kw_file_url : option pyval;
  kw_arguments : pdf_arguments
}.

(** [if v: options[key] = v]. *)
Definition set_if_truthy (d : list (pyval * pyval)) (key : string) (v : pyval)
  : list (pyval * pyval) :=
  if py_truthy v then dict_set d (PStr key) v else d.

(** The [options] dictionary of [pdf_new], before the source is added. *)
Definition pdf_options (args : pdf_arguments) : list (pyval * pyval) :=
  let options := [(PStr "math_inline_delimiters", PList [PStr "$"; PStr "$"]);
                  (PStr "rm_spaces", PBool true)] in
  let options := set_if_truthy options "file_batch_uuid" (pdf_file_batch_uuid args) in
  let options := set_if_truthy options "webhook_url" (pdf_webhook_url args) in
  let options := set_if_truthy options "mathpix_webhook_secret"
                   (pdf_mathpix_webhook_secret args) in
  let options := set_if_truthy options "webhook_payload" (pdf_webhook_payload args) in
  let options := set_if_truthy options "webhook_enabled_events"
                   (pdf_webhook_enabled_events args) in
  set_if_truthy options "conversion_formats" (pdf_conversion_formats args).

(** [any([webhook_url, mathpix_webhook_secret, webhook_payload,
    webhook_enabled_events])]. *)
Definition any_webhook (args : pdf_arguments) : bool :=
  existsb py_truthy [pdf_webhook_url args; pdf_mathpix_webhook_secret args;
                     pdf_webhook_payload args; pdf_webhook_enabled_events args].

(** The two requests of [pdf_new]: the form with the open file, and the
    JSON body with the URL. *)
Definition pdf_upload_request (self : MathpixClient) (args : pdf_arguments)
    (f : list string) : request :=
  {| req_method := POST;
     req_url := os_path_join (api_url (client_auth self)) ["v3/pdf"];
     req_headers := headers (client_auth self);
     req_body := FormBody [("options_json", JsonText (PDict (pdf_options args)))]
                          [("file", f)] |}.

Definition pdf_url_request (self : MathpixClient) (fu : pyval) (args : pdf_arguments)
  : request :=
  {| req_method := POST;
     req_url := os_path_join (api_url (client_auth self)) ["v3/pdf"];
     req_headers := headers (client_auth self);
     req_body := JsonBody (PDict (dict_set (pdf_options args) (PStr "url") fu)) |}.

Section pdf_new.

(** [mpxpy.pdf.Pdf] is not among the sources: the class and the call of
    its constructor are parameters of the model. *)
Context {Pdf : Type} (Pdf_call : Auth -> Pdf_keywords -> M Pdf).

(** The checks of [pdf_new] on the production API. *)
Definition pdf_production_check (self : MathpixClient) (args : pdf_arguments) : M unit :=
  if String.eqb (api_url (client_auth self)) production_url then
    if any_webhook args then
      logger_warning [Lit "Webhook features not available in production API"] >>
      raise (new_exn NotImplementedError
               [Lit "Webhook features are not yet available in the production API. ";
                Lit "These features will be enabled in a future release."])
    else if py_truthy (pdf_file_batch_uuid args) then
      logger_warning [Lit "File batch features not available in production API"] >>
      raise (new_exn NotImplementedError
               [Lit "File batches are not yet available in the production API. ";
                Lit "This feature will be enabled in a future release."])
    else ret tt
  else ret tt.

(** [MathpixClient.pdf_new]. *)
Definition pdf_new (self : MathpixClient) (fp fu : pyval) (args : pdf_arguments) : M Pdf :=
  pdf_production_check self args >>
  if (is_None fp && is_None fu) || (negb (is_None fp) && negb (is_None fu)) then
    logger_error [Lit "Invalid parameters: Exactly one of file_path or file_url must be provided"] >>
    raise (new_exn ValidationError
             [Lit "Exactly one of file_path or file_url must be provided"])
  else
    let endpoint := os_path_join (api_url (client_auth self)) ["v3/pdf"] in
    let opts := pdf_options args in
    let! options_json := lift (json_dumps (PDict opts)) in
    let data := [("options_json", options_json)] in
    if py_truthy fp then
      logger_info [Lit "Creating new PDF: path="; Val fp] >>
      match fp with
      | PStr p =>
          fun w =>
            if negb (is_file w p) then
              (logger_error [Lit "File not found: "; Val fp] >>
               raise (new_exn FileNotFoundError [Lit "File path not found: "; Val fp])) w
            else
              (let! pdf_file := open_rb p in
               with_file pdf_file
                 (try_except_request
                    (let! response := post endpoint (headers (client_auth self))
                                        (FormBody data [("file", pdf_file)]) in
                     raise_for_status response >>
                     let! response_json := response_json response in
                     let! pdf_id := lift (py_getitem response_json (PStr "pdf_id")) in
                     logger_info [Lit "PDF from local path processing started, PDF ID: ";
                                  Val pdf_id] >>
                     Pdf_call (client_auth self)
                       {| kw_pdf_id := pdf_id; kw_file_path := Some fp;
                          kw_file_url := None; kw_arguments := args |})
                    (fun e =>
                       logger_error [Lit "PDF upload failed: "; StrOf e] >>
                       raise (with_context e
                                (new_exn MathpixClientError
                                   [Lit "Mathpix PDF request failed: "; StrOf e]))))) w
      | v =>
          raise (new_exn TypeError
                   [Lit "expected str, bytes or os.PathLike object, not "; Lit (type_name v)])
      end
    else
      logger_info [Lit "Creating new PDF: url="; Val fu] >>
      let opts := dict_set opts (PStr "url") fu in
      try_except_request
        (let! response := post endpoint (headers (client_auth self))
                            (JsonBody (PDict opts)) in
         raise_for_status response >>
         let! response_json := response_json response in
         logger_info [Val response_json] >>
         let! pdf_id := lift (py_getitem response_json (PStr "pdf_id")) in
         logger_info [Lit "PDF from URL processing started, PDF ID: "; Val pdf_id] >>
         Pdf_call (client_auth self)
           {| kw_pdf_id := pdf_id; kw_file_path := None;
              kw_file_url := Some fu; kw_arguments := args |})
        (fun e =>
           logger_error [Lit "URL processing failed: "; StrOf e] >>
           raise (with_context e
                    (new_exn MathpixClientError
                       [Lit "Mathpix PDF request failed: "; StrOf e]))).

End pdf_new.

(** Examples for the two factories. *)
Definition no_arguments : pdf_arguments :=
  {| pdf_file_batch_uuid := PNone; pdf_webhook_url := PNone;
     pdf_mathpix_webhook_secret := PNone; pdf_webhook_payload := PNone;
     pdf_webhook_enabled_events := PNone; pdf_conversion_formats := PNone |}.

Definition docx_formats : pyval := PDict [(PStr "docx", PBool true)].

(** The production API does not refuse the optional arguments: the client
    talks to another API, or no webhook argument and no batch are given. *)
Definition pdf_allowed (self : MathpixClient) (args : pdf_arguments) : bool :=
  negb (String.eqb (api_url (client_auth self)) production_url)
  || (negb (any_webhook args) && negb (py_truthy (pdf_file_batch_uuid args))).


(** A PDF in the working directory. *)
Definition pdf_world (server : nat -> request -> http_result) : World :=
  {| w_server := server;
     w_io_fault := fun _ => None;
     w_fs := <[ ["home"; "paper.pdf"] := File [Byte.x25; Byte.x50; Byte.x44; Byte.x46] ]>
               {[ ["home"] := Dir ]};
     w_cwd := ["home"];
     w_trace := [] |}.

(** A constructor that stores its keywords, for the examples. *)
Definition keep_keywords (a : Auth) (kw : Pdf_keywords) : M (Auth * Pdf_keywords) :=
  ret (a, kw).

(** * Properties *)

(** ** Worlds and traces *)

Lemma emit_add_events ev w : emit ev w = add_events [ev] w.
Proof. reflexivity. Qed.

Lemma add_events_app evs evs' w :
  add_events evs (add_events evs' w) = add_events (evs ++ evs') w.
Proof. unfold add_events; simpl. by rewrite app_assoc. Qed.

Lemma add_events_nil w : add_events [] w = w.
Proof. by destruct w. Qed.

Lemma count_requests_app evs evs' :
  count_requests (evs ++ evs') = (count_requests evs + count_requests evs')%nat.
Proof. unfold count_requests. by rewrite filter_app, length_app. Qed.

Lemma count_requests_cons ev evs :
  count_requests (ev :: evs) =
    ((if is_request ev then 1 else 0) + count_requests evs)%nat.
Proof. unfold count_requests. by destruct ev. Qed.

Lemma count_sleeps_app evs evs' :
  count_sleeps (evs ++ evs') = (count_sleeps evs + count_sleeps evs')%nat.
Proof. unfold count_sleeps. by rewrite filter_app, length_app. Qed.

Lemma count_sleeps_cons ev evs :
  count_sleeps (ev :: evs) =
    ((if is_sleep ev then 1 else 0) + count_sleeps evs)%nat.
Proof. unfold count_sleeps. by destruct ev. Qed.

Lemma count_requests_pending_rounds c tv attempt k :
  count_requests (pending_rounds c tv attempt k) = k.
Proof.
  revert attempt. induction k as [|k IH]; intros attempt; [done|].
  simpl. rewrite count_requests_app, IH. unfold count_requests; simpl. lia.
Qed.

Lemma count_sleeps_pending_rounds c tv attempt k :
  count_sleeps (pending_rounds c tv attempt k) = k.
Proof.
  revert attempt. induction k as [|k IH]; intros attempt; [done|].
  simpl. rewrite count_sleeps_app, IH. unfold count_sleeps; simpl. lia.
Qed.

Ltac count_events :=
  repeat first
    [ rewrite count_requests_cons
    | rewrite count_requests_app
    | rewrite count_requests_pending_rounds
    | rewrite count_sleeps_cons
    | rewrite count_sleeps_app
    | rewrite count_sleeps_pending_rounds ];
  change (count_requests []) with 0%nat;
  change (count_sleeps []) with 0%nat;
  simpl; lia.

(** ** The stopping conditions, as the code evaluates them *)

Lemma py_eq_str_true v s : py_eq_str v s = true ↔ v = PStr s.
Proof.
  destruct v; simpl; try (split; [discriminate|intros [=]]).
  rewrite String.eqb_eq. split; [congruence|by intros [= ->]].
Qed.

Lemma py_eq_str_false v s : py_eq_str v s = false ↔ v ≠ PStr s.
Proof.
  rewrite <- py_eq_str_true. destruct (py_eq_str v s); split; congruence.
Qed.

Lemma format_done_terminal fd :
  format_terminal fd → format_done fd = inr true.
Proof.
  unfold format_terminal, has_status, format_done.
  intros [H|H]; by rewrite H.
Qed.

Lemma format_done_readable fd u :
  py_getitem fd (PStr "status") = inr u →
  ∃ b, format_done fd = inr b ∧ (b = true ↔ format_terminal fd).
Proof.
  intros Hu. unfold format_done, format_terminal, has_status. rewrite Hu.
  destruct (py_eq_str u "completed") eqn:Hc.
  - apply py_eq_str_true in Hc as ->. exists true. split; [done|]. split; [by left|done].
  - exists (py_eq_str u "error"). split; [done|].
    rewrite py_eq_str_true. apply py_eq_str_false in Hc.
    split; [intros ->; by right|]. intros [[=]|[=]]; congruence.
Qed.

Lemma all_formats_done_terminal items :
  Forall (λ kv, format_terminal (snd kv)) items → all_formats_done items = inr true.
Proof.
  induction 1 as [|[k fd] items Hfd _ IH]; simpl; [done|].
  by rewrite (format_done_terminal fd Hfd).
Qed.

Lemma all_formats_done_readable items :
  Forall (λ kv, ∃ u, py_getitem (snd kv) (PStr "status") = inr u) items →
  ∃ b, all_formats_done items = inr b ∧
       (b = true ↔ Forall (λ kv, format_terminal (snd kv)) items).
Proof.
  induction 1 as [|[k fd] items [u Hu] _ (b & IH & Hb)]; simpl.
  - exists true. split; [done|]. split; [constructor|done].
  - destruct (format_done_readable fd u Hu) as (b1 & -> & Hb1).
    destruct b1.
    + exists b. split; [done|]. rewrite Hb. split.
      * intros. constructor; [by apply Hb1|done].
      * by inversion 1.
    + exists false. split; [done|]. split; [done|].
      inversion 1; subst. simpl in *. destruct Hb1 as [_ Hb1]. by specialize (Hb1 ltac:(done)).
Qed.

Lemma succeeded_success_condition st :
  succeeded st → success_condition st = inr true.
Proof.
  intros (Hst & items & Hfm & Hall). unfold success_condition.
  rewrite Hst; simpl. rewrite Hfm; simpl. by apply all_formats_done_terminal.
Qed.

Lemma hard_failed_conditions st :
  hard_failed st → success_condition st = inr false ∧ error_condition st = inr true.
Proof.
  intros Hst. unfold success_condition, error_condition. by rewrite Hst.
Qed.

Lemma pending_conditions st :
  pending st → success_condition st = inr false ∧ error_condition st = inr false.
Proof.
  intros ((v & Hv & Hfm) & Hns & Hnf).
  unfold success_condition, error_condition. rewrite Hv.
  assert (py_eq_str v "error" = false) as ->.
  { apply py_eq_str_false. intros ->. by apply Hnf. }
  split; [|done].
  destruct (py_eq_str v "completed") eqn:Hc; [|done].
  apply py_eq_str_true in Hc as ->.
  destruct (Hfm eq_refl) as (items & Hitems & Hread).
  rewrite Hitems; simpl.
  destruct (all_formats_done_readable items Hread) as ([] & -> & Hb); [|done].
  exfalso. apply Hns. split; [done|]. exists items. split; [done|]. by apply Hb.
Qed.

(** ** One fetch *)

Lemma conversion_status_answers c w p :
  answers w (count_requests (w_trace w)) (status_request c) p →
  conversion_status c w =
    (Ret p, add_events [EvRequest (status_request c);
                        EvLog INFO [Lit "Getting status for conversion ";
                                    Val (PStr (conversion_id c))]] w).
Proof.
  intros (r & Hr & Hp).
  unfold conversion_status, bind, logger_info, tell, get, send, response_json; simpl.
  fold (status_request c). change (count_requests _) with (count_requests (w_trace w)).
  rewrite Hr, Hp. reflexivity.
Qed.

(** ** The polling loop *)

Section polling.
Context (c : Conversion) (tv : pyval) (timeout : Z).

Let rq := status_request c.

Lemma poll_loop_exhausted fuel attempt w :
  timeout ≤ attempt → poll_loop fuel c tv timeout attempt w = (Ret false, w).
Proof.
  intros H. destruct fuel; simpl; by rewrite (proj2 (Z.ltb_ge _ _) H).
Qed.

Lemma poll_loop_fetch fuel attempt w p :
  attempt < timeout →
  answers w (count_requests (w_trace w)) rq p →
  poll_loop (S fuel) c tv timeout attempt w =
    let w1 := add_events (fetch_events c tv attempt) w in
    match success_condition p with
    | inl e => (Raise e, w1)
    | inr true =>
        (Ret true,
         add_events [EvLog INFO [Lit "Conversion "; Val (PStr (conversion_id c));
                                 Lit " completed successfully"]] w1)
    | inr false =>
        match error_condition p with
        | inl e => (Raise e, w1)
        | inr true => (Ret false, w1)
        | inr false =>
            poll_loop fuel c tv timeout (attempt + 1) (add_events [EvSleep 1] w1)
        end
    end.
Proof.
  intros Hlt Hans. simpl. rewrite (proj2 (Z.ltb_lt _ _) Hlt).
  unfold bind at 1. unfold logger_info at 1, tell at 1.
  unfold bind at 1.
  rewrite (conversion_status_answers c
             (emit (EvLog INFO [Lit "Checking conversion status... (";
                                Val (PInt attempt); Lit "/"; Val tv; Lit ")"]) w)
             p Hans).
  unfold bind at 1.
  destruct (success_condition p) as [e|[]]; simpl; [done|done|].
  unfold bind at 1.
  destruct (error_condition p) as [e|[]]; simpl; [done|done|].
  reflexivity.
Qed.

Lemma poll_loop_pending_round fuel attempt w p :
  attempt < timeout →
  answers w (count_requests (w_trace w)) rq p →
  pending p →
  poll_loop (S fuel) c tv timeout attempt w =
    poll_loop fuel c tv timeout (attempt + 1) (add_events (round_events c tv attempt) w).
Proof.
  intros Hlt Hans Hp. rewrite (poll_loop_fetch _ _ _ p Hlt Hans).
  destruct (pending_conditions p Hp) as [-> ->]. reflexivity.
Qed.

(** [k] rounds over pending answers are [k] fetches and [k] sleeps. *)
Lemma poll_loop_pending_rounds k fuel attempt w :
  attempt + Z.of_nat k ≤ timeout →
  (∀ i, (i < k)%nat →
        ∃ p, answers w (count_requests (w_trace w) + i) rq p ∧ pending p) →
  poll_loop (k + fuel) c tv timeout attempt w =
    poll_loop fuel c tv timeout (attempt + Z.of_nat k)
      (add_events (pending_rounds c tv attempt k) w).
Proof.
  revert attempt w. induction k as [|k IH]; intros attempt w Hle Hall.
  - simpl. by rewrite Z.add_0_r, add_events_nil.
  - destruct (Hall O ltac:(lia)) as (p & Hans & Hp).
    rewrite Nat.add_0_r in Hans.
    change (S k + fuel)%nat with (S (k + fuel)).
    rewrite (poll_loop_pending_round (k + fuel) attempt w p ltac:(lia) Hans Hp).
    rewrite IH; [| lia |].
    + rewrite add_events_app. simpl pending_rounds.
      by replace (attempt + 1 + Z.of_nat k) with (attempt + Z.of_nat (S k)) by lia.
    + intros i Hi. destruct (Hall (S i) ltac:(lia)) as (q & Hq & Hpq).
      exists q. split; [|done].
      change (answers w (count_requests (round_events c tv attempt ++ w_trace w) + i) rq q).
      rewrite count_requests_app.
      change (count_requests (round_events c tv attempt)) with 1%nat.
      by replace (1 + count_requests (w_trace w) + i)%nat
        with (count_requests (w_trace w) + S i)%nat by lia.
Qed.
End polling.

(** The fuel [wait_until_complete] gives its loop is enough in every
    world: the loop never runs out of it, whatever the transport answers. *)
Lemma conversion_status_total c w : fst (conversion_status c w) ≠ OutOfFuel.
Proof.
  unfold conversion_status, bind, logger_info, tell, get, send, response_json, lift,
    raise, ret; simpl.
  destruct (w_server w _ _) as [r|e]; [|done]. by destruct (resp_json r).
Qed.

Lemma poll_loop_total c tv timeout fuel :
  ∀ attempt w,
    timeout - attempt ≤ Z.of_nat fuel →
    fst (poll_loop fuel c tv timeout attempt w) ≠ OutOfFuel.
Proof.
  induction fuel as [|fuel IH]; intros attempt w Hfuel; simpl.
  - destruct (Z.ltb_spec attempt timeout); [lia|done].
  - destruct (Z.ltb_spec attempt timeout); [|done].
    unfold bind at 1, logger_info at 1, tell at 1. unfold bind at 1.
    pose proof (conversion_status_total c
                  (emit (EvLog INFO [Lit "Checking conversion status... (";
                                     Val (PInt attempt); Lit "/"; Val tv; Lit ")"]) w)) as Hst.
    destruct (conversion_status c _) as [[st|e|] w1]; [|done|done].
    unfold bind at 1, lift.
    destruct (success_condition st) as [e|[]]; [done|done|]. unfold ret at 1.
    unfold bind at 1.
    destruct (error_condition st) as [e|[]]; [done|done|]. unfold ret at 1.
    unfold bind, time_sleep, tell. apply IH. lia.
Qed.

Lemma wait_until_complete_total c tv w : fst (wait_until_complete c tv w) ≠ OutOfFuel.
Proof.
  unfold wait_until_complete.
  destruct (if isinstance_int tv then int_value tv else None) as [t|]; [|done].
  destruct (Z.leb_spec t 0); [done|].
  unfold bind at 1, logger_info at 1, tell at 1. unfold bind at 1.
  pose proof (poll_loop_total c tv t (Z.to_nat t) 1
                (emit (EvLog INFO [Lit "Waiting for conversion ";
                                   Val (PStr (conversion_id c));
                                   Lit " to complete (timeout: "; Val tv; Lit "s)"]) w)
                ltac:(lia)) as Hloop.
  destruct (poll_loop _ _ _ _ _ _) as [[b|e|] w1]; [|done|done].
  unfold bind, logger_warning, tell, ret. by destruct b.
Qed.

(** ** [wait_until_complete] *)

Lemma pending_processing_status : pending processing_status.
Proof.
  split; [|split].
  - exists (PStr "processing"). split; [done|]. intros [=].
  - intros [[=] _].
  - intros [=].
Qed.

(** C1. When a fetch returns a payload whose overall status is [completed]
    and whose format entries are all [completed] or [error],
    [wait_until_complete] returns [True] at that fetch: after the [k]
    fetches that came before it and this one, nothing follows but the
    success line of the log.  A per-format error does not block success. *)
Theorem wait_until_complete_success (c : Conversion) (tv : pyval) (t : Z)
    (w : World) (k : nat) (p : pyval) :
  isinstance_int tv = true →
  int_value tv = Some t →
  Z.of_nat k + 1 < t →
  (∀ i, (i < k)%nat →
        ∃ q, answers w (count_requests (w_trace w) + i) (status_request c) q ∧ pending q) →
  answers w (count_requests (w_trace w) + k) (status_request c) p →
  succeeded p →
  ∃ evs,
    wait_until_complete c tv w =
      (Ret true,
       add_events (EvLog INFO [Lit "Conversion "; Val (PStr (conversion_id c));
                               Lit " completed successfully"]
                   :: EvRequest (status_request c) :: evs) w)
    ∧ count_requests evs = k.
Proof.
  intros Hint Hv Hk Hpend Hans Hp.
  unfold wait_until_complete. rewrite Hint, Hv.
  destruct (Z.leb_spec t 0) as [?|_]; [lia|].
  unfold bind at 1, logger_info at 1, tell at 1. unfold bind at 1.
  set (w0 := emit _ w).
  replace (Z.to_nat t) with (k + S (Z.to_nat t - k - 1))%nat by lia.
  rewrite (poll_loop_pending_rounds c tv t k _ 1 w0); [|lia|exact Hpend].
  erewrite poll_loop_fetch with (p := p); [|lia|].
  - rewrite (succeeded_success_condition p Hp). cbv zeta.
    rewrite !add_events_app. subst w0. rewrite emit_add_events, add_events_app.
    unfold bind, ret; simpl.
    eexists. split; [reflexivity|].
    count_events.
  - change (answers w (count_requests (pending_rounds c tv 1 k ++ w_trace w0)) (status_request c) p).
    rewrite count_requests_app, count_requests_pending_rounds.
    subst w0. simpl w_trace. change (count_requests (_ :: w_trace w)) with (count_requests (w_trace w)).
    by rewrite Nat.add_comm.
Qed.

Lemma succeeded_mixed_status : succeeded mixed_status.
Proof.
  split; [reflexivity|]. eexists. split; [reflexivity|].
  constructor; [by left|]. constructor; [by right|]. constructor.
Qed.

Lemma wait_until_complete_success_witness :
  ∃ evs,
    wait_until_complete demo_conversion (PInt 5)
      (world_of (scripted [processing_status; mixed_status])) =
      (Ret true,
       add_events (EvLog INFO [Lit "Conversion "; Val (PStr "c42");
                               Lit " completed successfully"]
                   :: EvRequest (status_request demo_conversion) :: evs)
         (world_of (scripted [processing_status; mixed_status])))
    ∧ count_requests evs = 1%nat.
Proof.
  apply (wait_until_complete_success demo_conversion (PInt 5) 5
           (world_of (scripted [processing_status; mixed_status])) 1 mixed_status).
  - reflexivity.
  - reflexivity.
  - lia.
  - intros i Hi. assert (i = 0%nat) as -> by lia.
    exists processing_status. split; [|apply pending_processing_status].
    eexists. split; reflexivity.
  - eexists. split; reflexivity.
  - apply succeeded_mixed_status.
Defined.

(** Three fetches, the third one complete, within a timeout of 5. *)
Example wait_until_complete_third_fetch :
  fst (wait_until_complete demo_conversion (PInt 5)
         (world_of (scripted [processing_status; processing_status; mixed_status]))) =
    Ret true
  ∧ count_requests
      (w_trace (snd (wait_until_complete demo_conversion (PInt 5)
                       (world_of (scripted [processing_status; processing_status;
                                            mixed_status]))))) = 3%nat.
Proof. split; reflexivity. Qed.

(** C2. For a positive integer timeout [t], when none of the first
    [t - 1] answers satisfies a stopping condition, [wait_until_complete]
    fetches the status exactly [t - 1] times (not at all when [t = 1]),
    sleeps after each fetch, and returns [False]. *)
Theorem wait_until_complete_timeout (c : Conversion) (tv : pyval) (t : Z) (w : World) :
  isinstance_int tv = true →
  int_value tv = Some t →
  0 < t →
  (∀ i, (i < Z.to_nat (t - 1))%nat →
        ∃ q, answers w (count_requests (w_trace w) + i) (status_request c) q ∧ pending q) →
  ∃ evs,
    wait_until_complete c tv w = (Ret false, add_events evs w)
    ∧ count_requests evs = Z.to_nat (t - 1)
    ∧ count_sleeps evs = Z.to_nat (t - 1).
Proof.
  intros Hint Hv Ht Hpend.
  unfold wait_until_complete. rewrite Hint, Hv.
  destruct (Z.leb_spec t 0) as [?|_]; [lia|].
  unfold bind at 1, logger_info at 1, tell at 1. unfold bind at 1.
  set (w0 := emit _ w).
  replace (Z.to_nat t) with (Z.to_nat (t - 1) + 1)%nat by lia.
  rewrite (poll_loop_pending_rounds c tv t (Z.to_nat (t - 1)) 1 1 w0); [|lia|exact Hpend].
  rewrite poll_loop_exhausted by lia.
  subst w0. rewrite emit_add_events, add_events_app.
  unfold bind, logger_warning, tell, ret; simpl.
  rewrite emit_add_events, add_events_app.
  eexists. split; [reflexivity|]. split; count_events.
Qed.

Lemma wait_until_complete_timeout_witness :
  ∃ evs,
    wait_until_complete demo_conversion (PInt 3)
      (world_of (scripted [processing_status; processing_status; mixed_status])) =
      (Ret false,
       add_events evs (world_of (scripted [processing_status; processing_status; mixed_status])))
    ∧ count_requests evs = 2%nat
    ∧ count_sleeps evs = 2%nat.
Proof.
  apply (wait_until_complete_timeout demo_conversion (PInt 3) 3
           (world_of (scripted [processing_status; processing_status; mixed_status]))).
  - reflexivity.
  - reflexivity.
  - lia.
  - intros i Hi. exists processing_status. split; [|apply pending_processing_status].
    assert (i = 0 ∨ i = 1)%nat as [-> | ->] by (simpl in Hi; lia);
      eexists; split; reflexivity.
Defined.

(** C3. When a fetch returns the overall status [error],
    [wait_until_complete] stops there: it returns [False], raises nothing,
    and after that fetch only logs the warning; no further fetch is made. *)
Theorem wait_until_complete_hard_failure (c : Conversion) (tv : pyval) (t : Z)
    (w : World) (k : nat) (p : pyval) :
  isinstance_int tv = true →
  int_value tv = Some t →
  Z.of_nat k + 1 < t →
  (∀ i, (i < k)%nat →
        ∃ q, answers w (count_requests (w_trace w) + i) (status_request c) q ∧ pending q) →
  answers w (count_requests (w_trace w) + k) (status_request c) p →
  hard_failed p →
  ∃ evs,
    wait_until_complete c tv w =
      (Ret false,
       add_events (EvLog WARNING [Lit "Conversion "; Val (PStr (conversion_id c));
                                  Lit " did not complete within timeout period (";
                                  Val tv; Lit "s)"]
                   :: EvRequest (status_request c) :: evs) w)
    ∧ count_requests evs = k
    ∧ count_sleeps evs = k.
Proof.
  intros Hint Hv Hk Hpend Hans Hp.
  unfold wait_until_complete. rewrite Hint, Hv.
  destruct (Z.leb_spec t 0) as [?|_]; [lia|].
  unfold bind at 1, logger_info at 1, tell at 1. unfold bind at 1.
  set (w0 := emit _ w).
  replace (Z.to_nat t) with (k + S (Z.to_nat t - k - 1))%nat by lia.
  rewrite (poll_loop_pending_rounds c tv t k _ 1 w0); [|lia|exact Hpend].
  erewrite poll_loop_fetch with (p := p); [|lia|].
  - destruct (hard_failed_conditions p Hp) as [-> ->]. cbv zeta.
    rewrite !add_events_app. subst w0. rewrite emit_add_events, add_events_app.
    unfold bind, logger_warning, tell, ret; simpl.
    eexists. split; [reflexivity|]. split; count_events.
  - change (answers w (count_requests (pending_rounds c tv 1 k ++ w_trace w0)) (status_request c) p).
    rewrite count_requests_app, count_requests_pending_rounds.
    subst w0. simpl w_trace. change (count_requests (_ :: w_trace w)) with (count_requests (w_trace w)).
    by rewrite Nat.add_comm.
Qed.

Lemma wait_until_complete_hard_failure_witness :
  ∃ evs,
    wait_until_complete demo_conversion (PInt 5)
      (world_of (scripted [processing_status; error_status; mixed_status])) =
      (Ret false,
       add_events (EvLog WARNING [Lit "Conversion "; Val (PStr "c42");
                                  Lit " did not complete within timeout period (";
                                  Val (PInt 5); Lit "s)"]
                   :: EvRequest (status_request demo_conversion) :: evs)
         (world_of (scripted [processing_status; error_status; mixed_status])))
    ∧ count_requests evs = 1%nat
    ∧ count_sleeps evs = 1%nat.
Proof.
  apply (wait_until_complete_hard_failure demo_conversion (PInt 5) 5
           (world_of (scripted [processing_status; error_status; mixed_status]))
           1 error_status).
  - reflexivity.
  - reflexivity.
  - lia.
  - intros i Hi. assert (i = 0%nat) as -> by lia.
    exists processing_status. split; [|apply pending_processing_status].
    eexists. split; reflexivity.
  - eexists. split; reflexivity.
  - reflexivity.
Defined.

(** C4. A timeout that is not a positive integer (not of integer type, or
    zero or negative) makes [wait_until_complete] raise the argument error
    ([ValueError], the specification's InvalidArgument) in the world it was
    called in: nothing is logged and no request is made. *)
Theorem wait_until_complete_invalid_timeout (c : Conversion) (tv : pyval) (w : World) :
  isinstance_int tv = false ∨ (∃ t, int_value tv = Some t ∧ t ≤ 0) →
  ∃ e,
    wait_until_complete c tv w = (Raise e, w)
    ∧ exn_cls e = ValueError
    ∧ spec_error_of (exn_cls e) = Some InvalidArgument.
Proof.
  intros H. unfold wait_until_complete.
  eexists (new_exn ValueError [Lit "Timeout must be a positive, non-zero integer"]).
  split; [|done].
  destruct H as [-> | (t & Hv & Ht)]; [done|].
  rewrite Hv. destruct (isinstance_int tv); [|done].
  by rewrite (proj2 (Z.leb_le t 0) Ht).
Qed.

Lemma wait_until_complete_invalid_timeout_witness :
  ∃ e,
    wait_until_complete demo_conversion (PInt 0) (world_of (scripted [mixed_status])) =
      (Raise e, world_of (scripted [mixed_status]))
    ∧ exn_cls e = ValueError
    ∧ spec_error_of (exn_cls e) = Some InvalidArgument.
Proof.
  apply (wait_until_complete_invalid_timeout demo_conversion (PInt 0)).
  right. exists 0. split; [reflexivity|lia].
Defined.

(** ** The safe download *)

(** The spec's reading of "not complete": the payload has no format
    mapping, or the entry of the format has a status other than
    [completed]. *)
Lemma incomplete_condition_no_mapping d conversion_format :
  dict_get d (PStr "conversion_status") = None →
  incomplete_condition (PDict d) conversion_format = inr true.
Proof. intros H. unfold incomplete_condition. simpl. by rewrite H. Qed.

Lemma incomplete_condition_entry st fm entry s conversion_format :
  py_getitem st (PStr "conversion_status") = inr fm →
  py_getitem fm (opt_val conversion_format) = inr entry →
  py_getitem entry (PStr "status") = inr s →
  incomplete_condition st conversion_format = inr (negb (py_eq_str s "completed")).
Proof.
  intros Hfm Hentry Hs. unfold incomplete_condition.
  assert (py_contains_str "conversion_status" st = inr true) as ->.
  { destruct st; simpl in Hfm |- *; try discriminate.
    by destruct (dict_get d _). }
  by rewrite Hfm, Hentry, Hs.
Qed.

(** When the format is not complete the download raises
    [ConversionIncompleteError] right after the status fetch: the file
    system is not touched.  The exception is built from the message alone,
    so its [status_info] is the empty dictionary. *)
Lemma download_incomplete c conversion_format path w st :
  answers w (count_requests (w_trace w)) (status_request c) st →
  incomplete_condition st conversion_format = inr true →
  download_output_to_local_path c conversion_format path w =
    (Raise (Exn ConversionIncompleteError [Lit "Conversion not complete"] (PDict []) None),
     add_events
       [EvRequest (status_request c);
        EvLog INFO [Lit "Getting status for conversion "; Val (PStr (conversion_id c))];
        EvLog INFO [Lit "Downloading conversion "; Val (PStr (conversion_id c));
                    Lit " in format "; Val (opt_val conversion_format);
                    Lit " to path "; Val (opt_val path)]] w).
Proof.
  intros Hans Hinc.
  unfold download_output_to_local_path, download_prepare.
  unfold bind at 1. unfold bind at 1, logger_info at 1, tell at 1. unfold bind at 1.
  rewrite (conversion_status_answers c
             (emit (EvLog INFO [Lit "Downloading conversion "; Val (PStr (conversion_id c));
                                Lit " in format "; Val (opt_val conversion_format);
                                Lit " to path "; Val (opt_val path)]) w) st Hans).
  unfold bind at 1. rewrite Hinc. reflexivity.
Qed.

(** C5. The safe download of a format that is still processing, at a
    concrete status payload: the call raises [ConversionIncompleteError]
    and leaves the file system alone (no file-system operation in the
    trace), but the exception does not carry the payload that was fetched:
    its [status_info] is the empty dictionary. *)
Theorem download_incomplete_drops_status :
  (∃ e, fst (download_output_to_local_path demo_conversion (Some "docx")
               (Some "output/dir") processing_world) = Raise e
        ∧ exn_cls e = ConversionIncompleteError
        ∧ exn_status_info e = PDict []
        ∧ exn_status_info e ≠ processing_status)
  ∧ w_fs (snd (download_output_to_local_path demo_conversion (Some "docx")
                 (Some "output/dir") processing_world)) = w_fs processing_world
  ∧ count_io (w_trace (snd (download_output_to_local_path demo_conversion (Some "docx")
                              (Some "output/dir") processing_world))) = 0%nat.
Proof.
  rewrite (download_incomplete demo_conversion (Some "docx") (Some "output/dir")
             processing_world processing_status).
  - split; [|split; reflexivity].
    eexists. split; [reflexivity|]. repeat split. discriminate.
  - eexists. split; reflexivity.
  - reflexivity.
Qed.



(** ** Paths *)

Lemma append_assoc_string (a b c : string) : (a +:+ b) +:+ c = a +:+ (b +:+ c).
Proof.
  induction a as [|x a IH]; [done|].
  change (String x ((a +:+ b) +:+ c) = String x (a +:+ (b +:+ c))). by rewrite IH.
Qed.

Lemma split_sep_nonempty s : split_sep s ≠ [].
Proof.
  destruct s as [|c s]; simpl; [done|].
  destruct (Ascii.eqb c "/"); [done|]. by destruct (split_sep s).
Qed.

Lemma split_sep_plain s : has_sep s = false → split_sep s = [s].
Proof.
  induction s as [|c s IH]; simpl; [done|].
  intros [Hc Hs]%orb_false_iff. rewrite Hc, (IH Hs). done.
Qed.

Lemma split_sep_app_sep a b :
  split_sep (a +:+ "/" +:+ b) = split_sep a ++ split_sep b.
Proof.
  induction a as [|c a IH]; simpl; [done|].
  destruct (Ascii.eqb c "/"); rewrite IH; [done|].
  pose proof (split_sep_nonempty a). by destruct (split_sep a).
Qed.

Lemma ends_with_sep_inv s : ends_with_sep s = true → ∃ s', s = s' +:+ "/".
Proof.
  induction s as [|c s IH]; simpl; [done|].
  destruct s as [|c' s].
  - intros ->%Ascii.eqb_eq. by exists "".
  - intros [s' ->]%IH. by exists (String c s').
Qed.

Lemma starts_with_sep_app a b : a ≠ "" → starts_with_sep (a +:+ b) = starts_with_sep a.
Proof. by destruct a. Qed.

Lemma plain_name_inv s :
  plain_name s = true →
  has_sep s = false ∧ is_dot s = false ∧ String.eqb s ".." = false.
Proof.
  unfold plain_name. rewrite !andb_true_iff, !negb_true_iff. tauto.
Qed.

Lemma has_sep_starts s : has_sep s = false → starts_with_sep s = false.
Proof. destruct s; simpl; [done|]. by intros [? _]%orb_false_iff. Qed.

(** The file path the download writes to, as components: those of the
    directory (but for a trailing separator) and the file name. *)
Lemma join_components dir name :
  dir ≠ "" → has_sep name = false →
  starts_with_sep (os_path_join dir [name]) = starts_with_sep dir ∧
  ∃ cs, split_sep (os_path_join dir [name]) = cs ++ [name] ∧
        (split_sep dir = cs ∨ split_sep dir = cs ++ [""]).
Proof.
  intros Hdir Hname. unfold os_path_join; simpl. unfold join_step.
  rewrite (has_sep_starts name Hname).
  destruct (String.eqb_spec dir ""); [done|]. simpl.
  destruct (ends_with_sep dir) eqn:Hend.
  - split; [by apply starts_with_sep_app|].
    destruct (ends_with_sep_inv dir Hend) as [d ->].
    exists (split_sep d). split.
    + by rewrite append_assoc_string, split_sep_app_sep, (split_sep_plain name Hname).
    + right. change (d +:+ "/") with (d +:+ "/" +:+ ""). by rewrite split_sep_app_sep.
  - split; [by apply starts_with_sep_app|].
    exists (split_sep dir). split; [|by left].
    by rewrite split_sep_app_sep, (split_sep_plain name Hname).
Qed.

Lemma walk_app cur cs cs' : walk cur (cs ++ cs') = walk (walk cur cs) cs'.
Proof.
  revert cur. induction cs as [|c cs IH]; intros cur; simpl; [done|].
  destruct (is_dot c); [done|]. by destruct (String.eqb c "..").
Qed.

Lemma walk_prefix cur cs : ".." ∉ cs → cur `prefix_of` walk cur cs.
Proof.
  revert cur. induction cs as [|c cs IH]; intros cur Hdd; simpl; [done|].
  apply not_elem_of_cons in Hdd as [Hc Hcs].
  destruct (is_dot c); [by apply IH|].
  destruct (String.eqb_spec c ".."); [done|].
  etrans; [|by apply IH]. by apply prefix_app_r.
Qed.

(** ** Directories *)

Lemma fs_lookup_snoc fs cur c : fs_lookup fs (cur ++ [c]) = fs !! (cur ++ [c]).
Proof. by destruct cur. Qed.

(** Two prefixes of one path that extend [cur]: the longer one goes
    through the first step of the other. *)
Lemma prefix_step (cur q target : list string) c :
  cur `prefix_of` q → q `prefix_of` target → q ≠ cur →
  cur ++ [c] `prefix_of` target →
  cur ++ [c] `prefix_of` q.
Proof.
  intros [k ->] [k' ->] Hne [k'' Heq].
  destruct k as [|x k]; [by rewrite app_nil_r in Hne|].
  rewrite <- !app_assoc in Heq. apply app_inv_head in Heq. simpl in Heq.
  injection Heq as -> _. exists k. by rewrite <- app_assoc.
Qed.

Lemma prefix_snoc_ne (cur q : list string) c : cur ++ [c] `prefix_of` q → q ≠ cur.
Proof. intros H ->. by apply prefix_snoc_not in H. Qed.

(** [os.makedirs] on a path without [".."], when no regular file is in
    the way: every directory from [cur] down to the target exists
    afterwards, and nothing else has changed. *)
Lemma makedirs_walk_spec cs :
  ∀ fs cur,
    ".." ∉ cs →
    (∀ q b, q `prefix_of` walk cur cs → fs !! q ≠ Some (File b)) →
    ∃ fs',
      makedirs_walk fs cur cs = inr fs'
      ∧ (∀ q, cur `prefix_of` q → q `prefix_of` walk cur cs → q ≠ cur →
              fs' !! q = Some Dir)
      ∧ (∀ q, fs' !! q = fs !! q ∨
              (fs !! q = None ∧ fs' !! q = Some Dir ∧
               cur `prefix_of` q ∧ q `prefix_of` walk cur cs ∧ q ≠ cur)).
Proof.
  induction cs as [|c cs IH]; intros fs cur Hdd Hfile.
  - exists fs. split; [done|]. split; [|by left].
    intros q H1 H2 Hne. destruct Hne.
    apply prefix_length_eq; [done|]. by apply prefix_length.
  - apply not_elem_of_cons in Hdd as [Hc Hcs]. simpl in Hfile |- *.
    destruct (is_dot c); [by apply IH|].
    destruct (String.eqb_spec c ".."); [done|].
    rewrite fs_lookup_snoc.
    set (p := cur ++ [c]) in *.
    assert (p `prefix_of` walk p cs) as Hp by by apply walk_prefix.
    assert (cur `prefix_of` p) as Hcur by by apply prefix_app_r.
    destruct (fs !! p) as [[|b]|] eqn:Hlook.
    + destruct (IH fs p Hcs Hfile) as (fs' & -> & Hdirs & Hsame).
      exists fs'. split; [done|]. split.
      * intros q H1 H2 Hne.
        assert (p `prefix_of` q) as Hpq by by eapply prefix_step.
        destruct (decide (q = p)) as [->|Hqp]; [|by apply Hdirs].
        destruct (Hsame p) as [->|(? & _)]; congruence.
      * intros q. destruct (Hsame q) as [?|(? & ? & ? & ? & ?)]; [by left|].
        right. repeat split; try done; [by etrans|].
        eapply prefix_snoc_ne. done.
    + by destruct (Hfile p b Hp).
    + destruct (IH (<[p:=Dir]> fs) p Hcs) as (fs' & -> & Hdirs & Hsame).
      { intros q b Hq. destruct (decide (q = p)) as [->|Hqp].
        - by rewrite lookup_insert_eq.
        - rewrite lookup_insert_ne by done. by apply Hfile. }
      exists fs'. split; [done|]. split.
      * intros q H1 H2 Hne.
        assert (p `prefix_of` q) as Hpq by by eapply prefix_step.
        destruct (decide (q = p)) as [->|Hqp]; [|by apply Hdirs].
        destruct (Hsame p) as [Hq|(Hn & _)];
          [by rewrite Hq, lookup_insert_eq | by rewrite lookup_insert_eq in Hn].
      * intros q. destruct (decide (q = p)) as [->|Hqp].
        -- right. repeat split; try done; [|by apply (prefix_snoc_ne cur p c)].
           destruct (Hsame p) as [Hq|(Hn & _)];
          [by rewrite Hq, lookup_insert_eq | by rewrite lookup_insert_eq in Hn].
        -- destruct (Hsame q) as [Hq|(Hq & ? & ? & ? & ?)];
             rewrite lookup_insert_ne in Hq by done; [by left|].
           right. repeat split; try done; [by etrans|].
           eapply prefix_snoc_ne. done.
Qed.

(** Opening a file in a directory whose ancestors all exist. *)
Lemma open_walk_spec cs :
  ∀ fs cur name,
    ".." ∉ cs → is_dot name = false → String.eqb name ".." = false →
    (∀ q, cur `prefix_of` q → q `prefix_of` walk cur cs → q ≠ cur → fs !! q = Some Dir) →
    open_walk fs cur (cs ++ [name]) = inr (walk cur cs ++ [name]).
Proof.
  induction cs as [|c cs IH]; intros fs cur name Hdd Hdot Hup Hdirs; simpl.
  - by rewrite Hdot, Hup.
  - apply not_elem_of_cons in Hdd as [Hc Hcs]. simpl in Hdirs.
    destruct (is_dot c); [by apply IH|].
    destruct (String.eqb_spec c ".."); [done|].
    set (p := cur ++ [c]) in *.
    assert (p `prefix_of` walk p cs) as Hp by by apply walk_prefix.
    destruct (cs ++ [name]) eqn:Hcs'; [by destruct cs|]. rewrite <- Hcs'.
    unfold p at 1. rewrite fs_lookup_snoc. fold p.
    rewrite Hdirs; [|by apply prefix_app_r|done|by apply (prefix_snoc_ne cur p c)].
    apply IH; try done. intros q H1 H2 Hne. apply Hdirs; [|done|].
    + etrans; [|done]. by apply prefix_app_r.
    + eapply prefix_snoc_ne. done.
Qed.

Lemma fs_wf_prefix fs p q :
  fs_wf fs → fs_lookup fs p = Some Dir → q `prefix_of` p → fs_lookup fs q = Some Dir.
Proof.
  intros Hwf Hp [k ->]. revert Hp. induction k as [|x k IH] using rev_ind.
  - by rewrite app_nil_r.
  - intros Hp. apply IH.
    destruct (q ++ k ++ [x]) as [|y l] eqn:Heq; [by destruct q, k|].
    rewrite <- Heq in Hp. rewrite app_assoc in Heq.
    rewrite app_assoc, fs_lookup_snoc in Hp.
    destruct (Hwf _ _ Hp) as [_ Hparent]. by rewrite removelast_last in Hparent.
Qed.

Lemma fs_wf_child fs p c :
  fs_wf fs → fs_lookup fs p = None → fs !! (p ++ [c]) = None.
Proof.
  intros Hwf Hp. destruct (fs !! (p ++ [c])) as [n|] eqn:Hc; [|done].
  destruct (Hwf _ _ Hc) as [_ Hparent]. rewrite removelast_last in Hparent. congruence.
Qed.

Lemma world_eq (w1 w2 : World) :
  w_server w1 = w_server w2 → w_io_fault w1 = w_io_fault w2 → w_fs w1 = w_fs w2 →
  w_cwd w1 = w_cwd w2 → w_trace w1 = w_trace w2 → w1 = w2.
Proof. destruct w1, w2; simpl; congruence. Qed.

Lemma io_step_no_fault {A} ev (op : World → outcome A * World) w :
  no_faults w → io_step ev op w = op (emit ev w).
Proof. intros H. unfold io_step. by rewrite H. Qed.

Lemma count_open_writes_cons ev evs :
  count_open_writes (ev :: evs) =
    ((if is_open_write ev then 1 else 0) + count_open_writes evs)%nat.
Proof. unfold count_open_writes. by destruct ev. Qed.

Lemma count_open_writes_app evs evs' :
  count_open_writes (evs ++ evs') = (count_open_writes evs + count_open_writes evs')%nat.
Proof. unfold count_open_writes. by rewrite filter_app, length_app. Qed.

(** Writing chunks that all arrive, on a disk that does not fail: the
    file grows by their concatenation. *)
Lemma write_chunks_ok datas :
  ∀ f w old,
    no_faults w → w_fs w !! f = Some (File old) →
    ∃ evs,
      write_chunks f (map Chunk datas) w =
        (Ret tt, set_fs (<[f := File (old ++ concat datas)]> (w_fs w)) (add_events evs w))
      ∧ count_open_writes evs = 0%nat.
Proof.
  induction datas as [|data datas IH]; intros f w old Hnf Hf.
  - exists []. split; [|done]. simpl. unfold ret. f_equal.
    rewrite app_nil_r, insert_id by done. by destruct w.
  - destruct data as [|b data].
    + simpl. by apply IH.
    + set (d := b :: data).
      change (write_chunks f (map Chunk (d :: datas)) w)
        with (bind (file_write f d) (λ _, write_chunks f (map Chunk datas)) w).
      unfold bind, file_write. rewrite io_step_no_fault by done.
      simpl w_fs. rewrite Hf.
      destruct (IH f (set_fs (<[f:=File (old ++ d)]> (w_fs w)) (emit (EvWrite f d) w))
                  (old ++ d)) as (evs & -> & Hevs).
      * done.
      * simpl. by rewrite lookup_insert_eq.
      * exists (evs ++ [EvWrite f d]). split.
        -- f_equal. unfold set_fs, add_events, emit; simpl.
           rewrite insert_insert_eq, <- !app_assoc. done.
        -- rewrite count_open_writes_app, Hevs. done.
Qed.

(** C6. The safe download of a completed format into a directory that
    does not exist yet, on a disk that does not fail and with no regular
    file in the way: the directory is created together with its missing
    parents, one file named [{job_id}.{format}] is opened and written
    inside it with the bytes of the chunks, nothing else changes but the
    new directories, and the call returns the path of that file,
    [{directory}/{job_id}.{format}]. *)
Theorem download_creates_directory (c : Conversion) (fmt dir : string) (w : World)
    (st fm entry : pyval) (r : response) (datas : list (list Byte.byte)) :
  world_ok w →
  no_faults w →
  answers w (count_requests (w_trace w)) (status_request c) st →
  py_getitem st (PStr "conversion_status") = inr fm →
  py_getitem fm (PStr fmt) = inr entry →
  has_status entry "completed" →
  w_server w (S (count_requests (w_trace w))) (output_request c (Some fmt)) = HttpOk r →
  resp_chunks r = map Chunk datas →
  dir ≠ "" →
  ".." ∉ split_sep dir →
  fs_lookup (w_fs w) (resolve (w_cwd w) dir) = None →
  (∀ q b, q `prefix_of` resolve (w_cwd w) dir → w_fs w !! q ≠ Some (File b)) →
  plain_name (output_name c (Some fmt)) = true →
  ∃ fs' evs,
    download_output_to_local_path c (Some fmt) (Some dir) w =
      (Ret (os_path_join dir [output_name c (Some fmt)]), set_fs fs' (add_events evs w))
    ∧ (ends_with_sep dir = false →
       os_path_join dir [output_name c (Some fmt)] =
         dir +:+ "/" +:+ conversion_id c +:+ "." +:+ fmt)
    ∧ resolve (w_cwd w) (os_path_join dir [output_name c (Some fmt)]) =
        resolve (w_cwd w) dir ++ [output_name c (Some fmt)]
    ∧ (∀ q, q `prefix_of` resolve (w_cwd w) dir → fs_lookup fs' q = Some Dir)
    ∧ fs' !! (resolve (w_cwd w) dir ++ [output_name c (Some fmt)]) =
        Some (File (concat datas))
    ∧ (∀ q, q ≠ resolve (w_cwd w) dir ++ [output_name c (Some fmt)] →
            fs' !! q = w_fs w !! q ∨
            (w_fs w !! q = None ∧ fs' !! q = Some Dir ∧
             q `prefix_of` resolve (w_cwd w) dir))
    ∧ count_open_writes evs = 1%nat.
Proof.
  intros [Hwf Hcwd] Hnf Hans Hfm Hentry Hdone Hget Hchunks Hdir Hdd Hnew Hfile Hname.
  set (name := output_name c (Some fmt)) in *.
  set (start := start_dir (w_cwd w) dir).
  set (target := resolve (w_cwd w) dir) in *.
  destruct (plain_name_inv name Hname) as (Hsep & Hdot & Hup).
  destruct (join_components dir name Hdir Hsep) as (Hstart & cs & Hsplit & Hcs).
  set (file_path := os_path_join dir [name]) in *.
  assert ((".." ∉ cs) ∧ walk start cs = target) as [Hddcs Hwalk].
  { unfold target, resolve. fold start. destruct Hcs as [Hcs|Hcs]; rewrite Hcs in *.
    - done.
    - split; [|by rewrite walk_app]. intros H. apply Hdd. apply elem_of_app. by left. }
  assert (fs_lookup (w_fs w) start = Some Dir) as Hstartdir.
  { unfold start, start_dir. by destruct (starts_with_sep dir). }
  assert (start `prefix_of` target) as Hst.
  { rewrite <- Hwalk. by apply walk_prefix. }
  assert (target ≠ start) as Hts by congruence.
  assert (target ≠ []) as Htnil by (intros E; by rewrite E in Hnew).
  (* the directory *)
  destruct (makedirs_walk_spec (split_sep dir) (w_fs w) start Hdd Hfile)
    as (fs1 & Hmk & Hdirs & Hsame).
  fold target in Hdirs, Hsame.
  assert (fs1 !! (target ++ [name]) = None) as Hfree.
  { destruct (Hsame (target ++ [name])) as [->|(_ & _ & _ & Hp & _)].
    - by apply fs_wf_child.
    - by apply prefix_snoc_not in Hp. }
  assert (fs1 !! target = Some Dir) as Htarget by by apply Hdirs.
  (* the run *)
  exists (<[target ++ [name] := File (concat datas)]> fs1).
  unfold download_output_to_local_path, download_prepare.
  unfold bind at 1. unfold bind at 1, logger_info at 1, tell at 1. unfold bind at 1.
  rewrite (conversion_status_answers c
             (emit (EvLog INFO [Lit "Downloading conversion "; Val (PStr (conversion_id c));
                                Lit " in format "; Val (opt_val (Some fmt));
                                Lit " to path "; Val (opt_val (Some dir))]) w) st Hans).
  unfold bind at 1.
  rewrite (incomplete_condition_entry st fm entry (PStr "completed") (Some fmt) Hfm Hentry Hdone).
  simpl negb. cbv iota. unfold lift at 1, ret at 1.
  unfold bind at 1. unfold get at 1, send at 1.
  simpl w_trace. rewrite !count_requests_cons. simpl is_request. simpl Nat.add.
  simpl w_server. fold (output_request c (Some fmt)). rewrite Hget.
  unfold bind at 1. unfold bind at 1.
  destruct dir as [|a dir']; [done|]. set (dir := String a dir') in *.
  unfold os_makedirs. rewrite io_step_no_fault by done.
  destruct (String.eqb_spec dir ""); [done|].
  simpl w_fs. simpl w_cwd. fold start. rewrite Hmk.
  cbv beta iota zeta delta [ret bind fst snd].
  fold name. fold file_path.
  unfold write_to_file, try_except, write_body.
  cbv beta iota zeta delta [bind].
  unfold open_wb. rewrite io_step_no_fault by done.
  destruct (String.eqb_spec file_path "") as [Hempty|_].
  { rewrite Hempty in Hsplit. simpl in Hsplit. destruct cs as [|? [|? ?]]; simplify_eq. }
  simpl w_fs. simpl w_cwd. unfold start_dir at 1. rewrite Hstart. fold (start_dir (w_cwd w) dir).
  fold start. rewrite Hsplit.
  rewrite (open_walk_spec cs fs1 start name Hddcs Hdot Hup); [|by rewrite Hwalk].
  rewrite Hwalk, fs_lookup_snoc, Hfree, removelast_last.
  assert (fs_lookup fs1 target = Some Dir) as -> by by destruct target.
  rewrite Hchunks.
  unfold with_file.
  match goal with
  | |- context [write_chunks ?f (map Chunk datas) ?w0] =>
      destruct (write_chunks_ok datas f w0 []) as (evs & -> & Hevs)
  end.
  { done. }
  { simpl. by rewrite lookup_insert_eq. }
  unfold file_close. rewrite io_step_no_fault by done.
  unfold bind, logger_info, tell, ret.
  eexists (_ :: _ :: evs ++ [_; _; _; _; _; _]). split.
  { f_equal. apply world_eq; cbn [w_server w_io_fault w_fs w_cwd w_trace set_fs add_events emit app].
    - reflexivity.
    - reflexivity.
    - by rewrite insert_insert_eq.
    - reflexivity.
    - rewrite <- app_assoc. reflexivity. }
  split.
  { intros Hend. unfold file_path, os_path_join, join_step. cbn [fold_left].
    rewrite (has_sep_starts name Hsep), Hend.
    by destruct (String.eqb_spec dir ""). }
  split.
  { unfold resolve, start_dir. rewrite Hstart. fold (start_dir (w_cwd w) dir). fold start.
    rewrite Hsplit, walk_app, Hwalk. cbn [walk]. by rewrite Hdot, Hup. }
  split.
  { intros q Hq. destruct q as [|x q]; [done|].
    change (<[target ++ [name]:=File (concat datas)]> fs1 !! (x :: q) = Some Dir).
    rewrite lookup_insert_ne
      by (intros E; rewrite <- E in Hq; by apply prefix_snoc_not in Hq).
    destruct (Hsame (x :: q)) as [Hq'|(_ & ? & _)]; [|done].
    destruct (prefix_weak_total start (x :: q) target Hst Hq) as [Hsq|Hqs].
    - destruct (decide (x :: q = start)) as [E|E].
      + rewrite Hq'. rewrite <- E in Hstartdir. exact Hstartdir.
      + by apply Hdirs.
    - rewrite Hq'. by apply (fs_wf_prefix (w_fs w) start (x :: q) Hwf Hstartdir Hqs). }
  split; [by rewrite lookup_insert_eq|].
  split.
  { intros q Hq. rewrite lookup_insert_ne by done.
    destruct (Hsame q) as [?|(? & ? & _ & ? & _)]; [by left|by right]. }
  repeat first [rewrite count_open_writes_cons | rewrite count_open_writes_app].
  rewrite Hevs. reflexivity.
Qed.

Lemma world_ok_completed_world : world_ok completed_world.
Proof.
  split; [|reflexivity].
  intros p n H.
  change (({[ ["home"] := Dir ]} : gmap (list string) node) !! p = Some n) in H.
  apply lookup_singleton_Some in H as [<- <-]. by split.
Qed.

Lemma download_creates_directory_witness :
  ∃ fs' evs,
    download_output_to_local_path demo_conversion (Some "docx") (Some "output/dir")
      completed_world =
      (Ret "output/dir/c42.docx", set_fs fs' (add_events evs completed_world))
    ∧ (∀ q, q `prefix_of` ["home"; "output"; "dir"] → fs_lookup fs' q = Some Dir)
    ∧ fs' !! ["home"; "output"; "dir"; "c42.docx"] =
        Some (File [Byte.x50; Byte.x4b; Byte.x03])
    ∧ (∀ q, q ≠ ["home"; "output"; "dir"; "c42.docx"] →
            fs' !! q = w_fs completed_world !! q ∨
            (w_fs completed_world !! q = None ∧ fs' !! q = Some Dir ∧
             q `prefix_of` ["home"; "output"; "dir"]))
    ∧ count_open_writes evs = 1%nat.
Proof.
  destruct (download_creates_directory demo_conversion "docx" "output/dir" completed_world
              mixed_status
              (PDict [(PStr "docx", PDict [(PStr "status", PStr "completed")]);
                      (PStr "tex", PDict [(PStr "status", PStr "error")])])
              (PDict [(PStr "status", PStr "completed")])
              demo_artifact
              [[Byte.x50; Byte.x4b]; []; [Byte.x03]])
    as (fs' & evs & Hrun & _ & _ & Hdirs & Hfile & Hrest & Hopen).
  - apply world_ok_completed_world.
  - intros n. reflexivity.
  - eexists. split; reflexivity.
  - reflexivity.
  - reflexivity.
  - reflexivity.
  - reflexivity.
  - reflexivity.
  - discriminate.
  - vm_compute. intros H. apply elem_of_cons in H as [H|H]; [discriminate|].
    apply elem_of_cons in H as [H|H]; [discriminate|]. by apply elem_of_nil in H.
  - reflexivity.
  - intros q b _ H.
    change (({[ ["home"] := Dir ]} : gmap (list string) node) !! q = Some (File b)) in H.
    by apply lookup_singleton_Some in H as [_ [=]].
  - reflexivity.
  - exists fs', evs. split; [exact Hrun|]. split; [exact Hdirs|].
    split; [exact Hfile|]. split; [exact Hrest|exact Hopen].
Defined.

(** ** Image requests *)

Lemma requests_of_app evs evs' :
  requests_of (evs ++ evs') = requests_of evs ++ requests_of evs'.
Proof.
  induction evs as [|ev evs IH]; simpl; [done|].
  destruct ev; simpl; by rewrite ?IH.
Qed.






(** An image constructed with the defaults: [lines_json] posts
    [include_line_data: None], and fails on the answer without line data. *)
Example lines_json_default_image :
  requests_of (w_trace (snd (lines_json demo_image
                               (world_of (scripted [PDict [(PStr "text", PStr "x")]]))))) =
    [{| req_method := POST; req_url := "https://api.mathpix.com/v3/text";
        req_headers := headers demo_auth;
        req_body := JsonBody (PDict [(PStr "include_line_data", PNone);
                                     (PStr "src", demo_image_url)]) |}]
  ∧ ∃ e, fst (lines_json demo_image
                (world_of (scripted [PDict [(PStr "text", PStr "x")]]))) = Raise e
         ∧ exn_cls e = KeyError.
Proof. split; [reflexivity|]. eexists. split; reflexivity. Qed.

(** ** [image_new] *)

Lemma threshold_invalid_not_str v b : threshold_invalid v = inr b → is_str v = false.
Proof. by destruct v. Qed.

Lemma check_threshold_ret v name w w' :
  check_threshold v name w = (Ret tt, w') → w' = w ∧ is_str v = false.
Proof.
  unfold check_threshold, bind, lift.
  destruct (threshold_invalid v) as [e|b] eqn:Hv; [done|].
  apply threshold_invalid_not_str in Hv.
  destruct b; simpl; [done|]. by intros [= <-].
Qed.

Lemma check_threshold_cases v name w :
  check_threshold v name w = (Ret tt, w) ∨ ∃ e w', check_threshold v name w = (Raise e, w').
Proof.
  unfold check_threshold, bind, lift.
  destruct (threshold_invalid v) as [e|[]]; simpl; eauto.
Qed.

Lemma py_key_eqb_not_str k' k :
  is_str k = false → k' = k ∨ py_key_eqb k' k = true → is_str k' = false.
Proof.
  intros Hk [->|Heq]; [done|]. destruct k'; try done. by destruct k.
Qed.

Lemma dict_set_keeps_keys d k v k0 :
  k0 ∈ map fst d → k0 ∈ map fst (dict_set d k v).
Proof.
  induction d as [|[k1 v1] d IH]; simpl; [by intros ?%elem_of_nil|].
  intros [->|Hin]%elem_of_cons; destruct (py_key_eqb k1 k); simpl.
  - by left.
  - by left.
  - by right.
  - right. by apply IH.
Qed.

Lemma dict_set_has_key d k v :
  ∃ k', k' ∈ map fst (dict_set d k v) ∧ (k' = k ∨ py_key_eqb k' k = true).
Proof.
  induction d as [|[k1 v1] d (k' & Hin & Hk')]; simpl.
  - exists k. split; [by left|by left].
  - destruct (py_key_eqb k1 k) eqn:Heq; simpl.
    + exists k1. split; [by left|by right].
    + exists k'. split; [by right|done].
Qed.

Lemma dict_display_keys entries :
  ∀ acc d,
    dict_display entries acc = inr d →
    (∀ k0, k0 ∈ map fst acc → k0 ∈ map fst d) ∧
    (∀ k, k ∈ map fst entries → ∃ k', k' ∈ map fst d ∧ (k' = k ∨ py_key_eqb k' k = true)).
Proof.
  induction entries as [|[k v] entries IH]; intros acc d; simpl.
  - intros [= <-]. split; [done|]. by intros k ?%elem_of_nil.
  - destruct (py_hashable k); [|done]. intros Hd.
    destruct (IH _ _ Hd) as [Hacc Hent]. split.
    + intros k0 Hk0. apply Hacc. by apply dict_set_keeps_keys.
    + intros k1 [->|Hin]%elem_of_cons; [|by apply Hent].
      destruct (dict_set_has_key acc k v) as (k' & Hin & Hk').
      exists k'. split; [by apply Hacc|done].
Qed.

Lemma forallb_is_str_false (d : list (pyval * pyval)) k :
  k ∈ map fst d → is_str k = false → forallb (λ kv, is_str (fst kv)) d = false.
Proof.
  induction d as [|[k1 v1] d IH]; simpl; [by intros ?%elem_of_nil|].
  intros [->|Hin]%elem_of_cons Hk.
  - by rewrite Hk.
  - rewrite (IH Hin Hk). by destruct (is_str k1).
Qed.

(** A keyword dictionary with a key that is not a string is refused. *)
Lemma Image_call_non_str a kwargs k w :
  k ∈ map fst kwargs → is_str k = false →
  Image_call a kwargs w = (Raise (new_exn TypeError [Lit "keywords must be strings"]), w).
Proof.
  intros Hin Hk. unfold Image_call. by rewrite (forallb_is_str_false kwargs k Hin Hk).
Qed.

(** [image_new] raises for every choice of arguments. *)
Lemma image_new_raises self fp fu o w :
  ∃ e w', image_new self fp fu o w = (Raise e, w').
Proof.
  unfold image_new.
  destruct (_ || _); [by eexists _, _|].
  unfold bind at 1, lift at 1.
  destruct (py_len (formats o)) as [e|n]; [by eexists _, _|]. unfold ret at 1.
  destruct (negb (n =? 1)); [by eexists _, _|].
  unfold bind at 1.
  destruct (check_threshold_cases (confidence_threshold o) "confidence_threshold" w)
    as [H1|(e & w' & ->)]; [|by eexists _, _].
  rewrite H1. apply check_threshold_ret in H1 as [_ Hstr].
  unfold bind at 1.
  destruct (check_threshold_cases (confidence_rate_threshold o)
              "confidence_rate_threshold" w) as [->|(e & w' & ->)]; [|by eexists _, _].
  unfold bind at 1.
  destruct (check_threshold_cases (auto_rotate_confidence_threshold o)
              "auto_rotate_confidence_threshold" w) as [->|(e & w' & ->)];
    [|by eexists _, _].
  unfold bind at 1, lift at 1.
  destruct (dict_display (image_options_entries o) []) as [e|d] eqn:Hd; [by eexists _, _|].
  unfold ret at 1.
  destruct (dict_display_keys _ _ _ Hd) as [_ Hkeys].
  destruct (Hkeys (confidence_threshold o)) as (k' & Hin & Hk').
  { unfold image_options_entries. rewrite map_map. simpl.
    do 7 (apply elem_of_cons; right). apply elem_of_cons. by left. }
  pose proof (py_key_eqb_not_str k' _ Hstr Hk') as Hk'str.
  unfold bind at 1.
  destruct (py_truthy fp); unfold bind at 1, logger_info at 1, tell at 1, ret at 1;
    erewrite Image_call_non_str by (try apply dict_set_keeps_keys; done);
    by eexists _, _.
Qed.

Lemma check_threshold_valid v name w :
  threshold_invalid v = inr false → check_threshold v name w = (Ret tt, w).
Proof. intros H. unfold check_threshold, bind, lift. by rewrite H. Qed.

(** C9. [image_new] never returns an [Image]: it raises for every choice
    of arguments.  When exactly one of [file_path] and [file_url] is given
    and [formats] is [None] (the default), [len(formats)] raises a
    [TypeError]; when [formats] is a list of one element and the thresholds
    are valid, the dictionary display raises a [TypeError] for an
    unhashable key (the list itself, unless [callback] is unhashable
    already).  In both cases nothing was logged or requested. *)
Theorem image_new_always_raises (self : MathpixClient) (fp fu : pyval)
    (o : image_options) (w : World) :
  (∃ e w', image_new self fp fu o w = (Raise e, w'))
  ∧ (exactly_one_given fp fu → formats o = PNone →
     image_new self fp fu o w =
       (Raise (new_exn TypeError
                 [Lit "object of type '"; Lit "NoneType"; Lit "' has no len()"]), w))
  ∧ (exactly_one_given fp fu →
     ∀ l, formats o = PList l → length l = 1%nat → thresholds_valid o →
     ∃ t, image_new self fp fu o w =
            (Raise (new_exn TypeError [Lit "unhashable type: '"; Lit t; Lit "'"]), w)
          ∧ (py_hashable (callback o) = true → t = "list")).
Proof.
  split; [apply image_new_raises|].
  assert (exactly_one_given fp fu →
          (is_None fp && is_None fu) || (negb (is_None fp) && negb (is_None fu)) = false)
    as Hone.
  { unfold exactly_one_given. by destruct (is_None fp), (is_None fu). }
  split.
  - intros H Hf. unfold image_new. rewrite (Hone H), Hf. reflexivity.
  - intros H l Hf Hl (H1 & H2 & H3). unfold image_new. rewrite (Hone H), Hf.
    unfold bind at 1, lift at 1, py_len. rewrite Hl. unfold ret at 1.
    change (negb (Z.of_nat 1 =? 1)) with false. cbv iota.
    unfold bind at 1. rewrite (check_threshold_valid _ _ _ H1).
    unfold bind at 1. rewrite (check_threshold_valid _ _ _ H2).
    unfold bind at 1. rewrite (check_threshold_valid _ _ _ H3).
    unfold bind at 1, lift at 1, image_options_entries.
    cbn [map dict_display]. rewrite Hf.
    destruct (py_hashable (callback o)) eqn:Hcb.
    + cbn [py_hashable]. cbv iota. by exists "list".
    + exists (type_name (callback o)). split; [reflexivity|done].
Qed.

Lemma image_new_always_raises_witness :
  image_new demo_client PNone demo_image_url default_options (world_of unreachable) =
    (Raise (new_exn TypeError
              [Lit "object of type '"; Lit "NoneType"; Lit "' has no len()"]),
     world_of unreachable)
  ∧ ∃ t, image_new demo_client PNone demo_image_url
           (with_formats (PList [PStr "text"]) default_options) (world_of unreachable) =
           (Raise (new_exn TypeError [Lit "unhashable type: '"; Lit t; Lit "'"]),
            world_of unreachable)
         ∧ (py_hashable PNone = true → t = "list").
Proof.
  split.
  - apply (image_new_always_raises demo_client PNone demo_image_url default_options
             (world_of unreachable)); [discriminate|reflexivity].
  - apply (image_new_always_raises demo_client PNone demo_image_url
             (with_formats (PList [PStr "text"]) default_options)
             (world_of unreachable)) with (l := [PStr "text"]).
    + discriminate.
    + reflexivity.
    + reflexivity.
    + repeat split.
Defined.

(** ** What the caller receives *)

(** [conversion_status] has no handler: an exception of the transport
    reaches the caller as it is. *)
Lemma conversion_status_transport_failure c w e :
  w_server w (count_requests (w_trace w)) (status_request c) = HttpRaise e →
  fst (conversion_status c w) = Raise e.
Proof.
  intros H. unfold conversion_status, bind, logger_info, tell, get, send; simpl.
  fold (status_request c). change (count_requests _) with (count_requests (w_trace w)).
  by rewrite H.
Qed.




(** * Further properties of the code *)

(** ** The requests of a conversion *)

Lemma append_empty_string_r (s : string) : s +:+ "" = s.
Proof.
  induction s as [|x s IH]; [done|].
  change (String x (s +:+ "") = String x s). by rewrite IH.
Qed.

Lemma join_step_suffix p a b :
  starts_with_sep b = false →
  join_step p (a +:+ b) = join_step p a +:+ b.
Proof.
  intros Hb. unfold join_step. destruct a as [|x a].
  - change ("" +:+ b) with b. rewrite Hb. simpl starts_with_sep. cbv iota.
    destruct (_ || _).
    + by rewrite append_empty_string_r.
    + by rewrite !append_assoc_string.
  - change (starts_with_sep (String x a +:+ b)) with (starts_with_sep (String x a)).
    destruct (starts_with_sep (String x a)); [done|].
    destruct (_ || _); by rewrite ?append_assoc_string.
Qed.

(** X1. [download_output] never looks at the status: in every world it
    makes exactly one request, the GET of the artifact, whose URL is the
    status URL followed by ["."] and the format (by [".None"] when the
    format is left out), and it hands back the body of the answer, or the
    transport's exception unchanged.  The file system is not touched. *)
Theorem download_output_single_request (c : Conversion)
    (conversion_format : option string) (w : World) :
  output_url c conversion_format = status_url c +:+ "." +:+ fmt_opt conversion_format
  ∧ requests_of (w_trace (snd (download_output c conversion_format w))) =
      output_request c conversion_format :: requests_of (w_trace w)
  ∧ fst (download_output c conversion_format w) =
      match w_server w (count_requests (w_trace w)) (output_request c conversion_format) with
      | HttpOk r => Ret (resp_content r)
      | HttpRaise e => Raise e
      end
  ∧ w_fs (snd (download_output c conversion_format w)) = w_fs w
  ∧ count_io (w_trace (snd (download_output c conversion_format w))) = count_io (w_trace w).
Proof.
  split.
  - unfold output_url, status_url, os_path_join. cbn [fold_left].
    by apply join_step_suffix.
  - unfold download_output, bind, logger_info, tell, get, send, ret.
    cbn [w_trace w_server emit]. fold (output_request c conversion_format).
    change (count_requests (EvLog _ _ :: w_trace w)) with (count_requests (w_trace w)).
    by destruct (w_server w _ _).
Qed.

(** ** The poller in an arbitrary world *)

Lemma conversion_status_eq c w :
  conversion_status c w =
    (fetch_outcome w (count_requests (w_trace w)) (status_request c),
     add_events [EvRequest (status_request c);
                 EvLog INFO [Lit "Getting status for conversion ";
                             Val (PStr (conversion_id c))]] w).
Proof.
  unfold conversion_status, fetch_outcome, bind, logger_info, tell, get, send,
    response_json, lift, raise, ret.
  cbn [w_trace w_server emit]. fold (status_request c).
  change (count_requests (EvLog _ _ :: w_trace w)) with (count_requests (w_trace w)).
  destruct (w_server w _ _) as [r|e]; [|done]. by destruct (resp_json r).
Qed.

Lemma count_io_cons ev evs :
  count_io (ev :: evs) = ((if is_io ev then 1 else 0) + count_io evs)%nat.
Proof. unfold count_io. by destruct ev. Qed.

Lemma count_io_app evs evs' :
  count_io (evs ++ evs') = (count_io evs + count_io evs')%nat.
Proof. unfold count_io. by rewrite filter_app, length_app. Qed.

Lemma success_condition_succeeded st :
  success_condition st = inr true → succeeded st.
Proof.
  unfold success_condition, succeeded, has_status, formats_of.
  destruct (py_getitem st (PStr "status")) as [e|s]; [done|].
  destruct (py_eq_str s "completed") eqn:Hs; [|done].
  apply py_eq_str_true in Hs as ->.
  destruct (py_getitem st (PStr "conversion_status")) as [e|fm]; [done|].
  destruct fm as [| | | | | | |items]; try done. simpl.
  intros Hall. split; [done|]. exists items. split; [done|].
  induction items as [|[k fd] items IH]; [constructor|].
  simpl in Hall. unfold format_done in Hall.
  destruct (py_getitem fd (PStr "status")) as [e|u] eqn:Hu; [done|].
  destruct (py_eq_str u "completed") eqn:Hc.
  - apply py_eq_str_true in Hc as ->. constructor; [by left|by apply IH].
  - destruct (py_eq_str u "error") eqn:He; [|done].
    apply py_eq_str_true in He as ->. constructor; [by right|by apply IH].
Qed.

Lemma error_condition_hard_failed st :
  error_condition st = inr true → hard_failed st.
Proof.
  unfold error_condition, hard_failed, has_status.
  destruct (py_getitem st (PStr "status")) as [e|s]; [done|].
  by intros [= ->%py_eq_str_true].
Qed.

Lemma fetch_outcome_emit_log level m w rq :
  fetch_outcome (emit (EvLog level m) w)
    (count_requests (w_trace (emit (EvLog level m) w))) rq =
  fetch_outcome w (count_requests (w_trace w)) rq.
Proof. reflexivity. Qed.

(** One round of the loop, whatever the transport answers. *)
Lemma poll_loop_step c tv timeout fuel attempt w :
  attempt < timeout →
  poll_loop (S fuel) c tv timeout attempt w =
    let w1 := add_events (fetch_events c tv attempt) w in
    match fetch_outcome w (count_requests (w_trace w)) (status_request c) with
    | Ret p =>
        match success_condition p with
        | inl e => (Raise e, w1)
        | inr true =>
            (Ret true,
             add_events [EvLog INFO [Lit "Conversion "; Val (PStr (conversion_id c));
                                     Lit " completed successfully"]] w1)
        | inr false =>
            match error_condition p with
            | inl e => (Raise e, w1)
            | inr true => (Ret false, w1)
            | inr false =>
                poll_loop fuel c tv timeout (attempt + 1) (add_events [EvSleep 1] w1)
            end
        end
    | Raise e => (Raise e, w1)
    | OutOfFuel => (OutOfFuel, w1)
    end.
Proof.
  intros Hlt. simpl. rewrite (proj2 (Z.ltb_lt _ _) Hlt).
  unfold bind at 1. unfold logger_info at 1, tell at 1.
  unfold bind at 1. rewrite conversion_status_eq, fetch_outcome_emit_log.
  destruct (fetch_outcome w _ _) as [p|e|]; [|done|done].
  unfold bind at 1.
  destruct (success_condition p) as [e|[]]; simpl; [done|done|].
  unfold bind at 1.
  destruct (error_condition p) as [e|[]]; simpl; [done|done|]. reflexivity.
Qed.

Lemma fetch_outcome_answers w n rq p :
  fetch_outcome w n rq = Ret p → answers w n rq p.
Proof.
  unfold fetch_outcome, answers. destruct (w_server w n rq) as [r|e]; [|done].
  destruct (resp_json r) as [e|q] eqn:Hj; [done|]. intros [= ->]. by exists r.
Qed.

Ltac count_all :=
  repeat first
    [ rewrite count_requests_cons | rewrite count_requests_app
    | rewrite count_sleeps_cons | rewrite count_sleeps_app
    | rewrite count_io_cons | rewrite count_io_app ];
  change (count_requests []) with 0%nat;
  change (count_sleeps []) with 0%nat;
  change (count_io []) with 0%nat;
  cbn [is_request is_sleep is_io Nat.add];
  try lia.

Ltac bounds :=
  repeat match goal with |- _ ∧ _ => split end;
  unfold fetch_events; count_all.

Lemma poll_loop_bounded c tv timeout fuel :
  ∀ attempt w,
    ∃ evs,
      snd (poll_loop fuel c tv timeout attempt w) = add_events evs w
      ∧ (count_requests evs ≤ Z.to_nat (timeout - attempt))%nat
      ∧ (count_sleeps evs ≤ count_requests evs)%nat
      ∧ count_io evs = 0%nat.
Proof.
  induction fuel as [|fuel IH]; intros attempt w.
  - exists []. rewrite add_events_nil. split; [|bounds].
    simpl. by destruct (attempt <? timeout).
  - destruct (Z.ltb_spec attempt timeout) as [Hlt|Hge].
    + rewrite poll_loop_step by done. cbv zeta.
      assert (1 ≤ Z.to_nat (timeout - attempt))%nat as Hone by lia.
      destruct (fetch_outcome w _ _) as [p|e|];
        [|exists (fetch_events c tv attempt); split; [done|bounds]
         |exists (fetch_events c tv attempt); split; [done|bounds]].
      destruct (success_condition p) as [e|[]];
        [exists (fetch_events c tv attempt); split; [done|bounds]| |].
      { eexists (_ :: fetch_events c tv attempt). split; [reflexivity|bounds]. }
      destruct (error_condition p) as [e|[]];
        [exists (fetch_events c tv attempt); split; [done|bounds]
        |exists (fetch_events c tv attempt); split; [done|bounds]|].
      destruct (IH (attempt + 1) (add_events [EvSleep 1]
                  (add_events (fetch_events c tv attempt) w)))
        as (evs & -> & Hreq & Hsl & Hio).
      exists (evs ++ EvSleep 1 :: fetch_events c tv attempt).
      rewrite !add_events_app. split; [by rewrite <- app_assoc|].
      bounds.
    + rewrite poll_loop_exhausted by lia. exists []. rewrite add_events_nil.
      split; [done|bounds].
Qed.

(** X2. Whatever the service answers, [wait_until_complete] makes at most
    [timeout - 1] status requests (none for an invalid timeout), never
    sleeps more often than it fetches, and leaves the file system alone:
    all it adds to the world are log lines, requests and sleeps. *)
Theorem wait_until_complete_bounded (c : Conversion) (tv : pyval) (w : World) :
  ∃ evs,
    snd (wait_until_complete c tv w) = add_events evs w
    ∧ (count_requests evs ≤ fetch_budget tv)%nat
    ∧ (count_sleeps evs ≤ count_requests evs)%nat
    ∧ count_io evs = 0%nat.
Proof.
  unfold wait_until_complete, fetch_budget.
  destruct (isinstance_int tv) eqn:Hint;
    [|exists []; rewrite add_events_nil; split; [done|bounds]].
  destruct (int_value tv) as [t|] eqn:Hv;
    [|exists []; rewrite add_events_nil; split; [done|bounds]].
  destruct (Z.leb_spec t 0);
    [exists []; rewrite add_events_nil; split; [done|bounds]|].
  unfold bind at 1, logger_info at 1, tell at 1. unfold bind at 1.
  set (w0 := emit _ w).
  destruct (poll_loop_bounded c tv t (Z.to_nat t) 1 w0) as (evs & Hevs & Hreq & Hsl & Hio).
  destruct (poll_loop (Z.to_nat t) c tv t 1 w0) as [[b|e|] w1]; simpl in Hevs; subst w1.
  - unfold bind, logger_warning, tell, ret. destruct b; simpl.
    + eexists (evs ++ [_]). subst w0. rewrite emit_add_events, add_events_app.
      split; [reflexivity|bounds].
    + eexists (_ :: evs ++ [_]). subst w0.
      rewrite !emit_add_events, !add_events_app.
      split; [reflexivity|bounds].
  - eexists (evs ++ [_]). subst w0. rewrite emit_add_events, add_events_app.
    split; [reflexivity|bounds].
  - eexists (evs ++ [_]). subst w0. rewrite emit_add_events, add_events_app.
    split; [reflexivity|bounds].
Qed.

Lemma poll_loop_sound c tv timeout fuel :
  ∀ attempt w b,
    fst (poll_loop fuel c tv timeout attempt w) = Ret b →
    (b = true →
     ∃ p, last_fetch w (snd (poll_loop fuel c tv timeout attempt w)) (status_request c) p
          ∧ succeeded p)
    ∧ (b = false →
       (∃ p, last_fetch w (snd (poll_loop fuel c tv timeout attempt w)) (status_request c) p
             ∧ hard_failed p)
       ∨ count_requests (w_trace (snd (poll_loop fuel c tv timeout attempt w))) =
           (count_requests (w_trace w) + Z.to_nat (timeout - attempt))%nat).
Proof.
  induction fuel as [|fuel IH]; intros attempt w b.
  - simpl. destruct (Z.ltb_spec attempt timeout); [done|].
    intros [= <-]. split; [done|]. intros _. right. simpl. lia.
  - destruct (Z.ltb_spec attempt timeout) as [Hlt|Hge].
    + rewrite poll_loop_step by done. cbv zeta.
      destruct (fetch_outcome w _ _) as [p|e|] eqn:Hfetch; [|done|done].
      apply fetch_outcome_answers in Hfetch.
      destruct (success_condition p) as [e|[]] eqn:Hs; [done| |].
      { intros [= <-]. split; [|done]. intros _. exists p.
        split; [|by apply success_condition_succeeded].
        exists (count_requests (w_trace w)). split; [|by split].
        cbn [snd add_events w_trace]. unfold fetch_events. count_all. }
      destruct (error_condition p) as [e|[]] eqn:He; [done| |].
      { intros [= <-]. split; [done|]. intros _. left. exists p.
        split; [|by apply error_condition_hard_failed].
        exists (count_requests (w_trace w)). split; [|by split].
        cbn [snd add_events w_trace]. unfold fetch_events. count_all. }
      set (w2 := add_events [EvSleep 1] (add_events (fetch_events c tv attempt) w)).
      assert (count_requests (w_trace w2) = S (count_requests (w_trace w))) as Hw2.
      { subst w2. cbn [add_events w_trace]. unfold fetch_events. count_all. }
      intros Hb. destruct (IH (attempt + 1) w2 b Hb) as [Ht Hf]. split.
      * intros Hbt. destruct (Ht Hbt) as (q & (n & Hn & Hle & Hans) & Hq).
        exists q. split; [|done]. exists n. split; [done|]. split; [lia|exact Hans].
      * intros Hbf. destruct (Hf Hbf) as [(q & (n & Hn & Hle & Hans) & Hq)|Hcount].
        -- left. exists q. split; [|done]. exists n. split; [done|]. split; [lia|exact Hans].
        -- right. rewrite Hcount, Hw2. lia.
    + rewrite poll_loop_exhausted by lia. intros [= <-]. split; [done|].
      intros _. right. simpl. lia.
Qed.

(** [wait_until_complete] on a valid timeout, in terms of its loop. *)
Lemma wait_until_complete_eq c tv t w :
  isinstance_int tv = true → int_value tv = Some t → 0 < t →
  wait_until_complete c tv w =
    match poll_loop (Z.to_nat t) c tv t 1
            (emit (EvLog INFO [Lit "Waiting for conversion "; Val (PStr (conversion_id c));
                               Lit " to complete (timeout: "; Val tv; Lit "s)"]) w) with
    | (Ret true, w1) => (Ret true, w1)
    | (Ret false, w1) =>
        (Ret false,
         emit (EvLog WARNING [Lit "Conversion "; Val (PStr (conversion_id c));
                              Lit " did not complete within timeout period (";
                              Val tv; Lit "s)"]) w1)
    | (Raise e, w1) => (Raise e, w1)
    | (OutOfFuel, w1) => (OutOfFuel, w1)
    end.
Proof.
  intros Hint Hv Ht. unfold wait_until_complete. rewrite Hint, Hv.
  destruct (Z.leb_spec t 0); [lia|].
  unfold bind at 1, logger_info at 1, tell at 1. unfold bind at 1.
  destruct (poll_loop _ _ _ _ _ _) as [[[]|e|] w1]; reflexivity.
Qed.

(** X3. What the result of [wait_until_complete] says about the service:
    [True] is returned only when the last status fetched was overall
    [completed] with every format [completed] or [error]; [False] only
    when the last status fetched was overall [error], or when all
    [timeout - 1] fetches were made. *)
Theorem wait_until_complete_sound (c : Conversion) (tv : pyval) (w : World) (b : bool) :
  fst (wait_until_complete c tv w) = Ret b →
  (b = true →
   ∃ p, last_fetch w (snd (wait_until_complete c tv w)) (status_request c) p
        ∧ succeeded p)
  ∧ (b = false →
     (∃ p, last_fetch w (snd (wait_until_complete c tv w)) (status_request c) p
           ∧ hard_failed p)
     ∨ count_requests (w_trace (snd (wait_until_complete c tv w))) =
         (count_requests (w_trace w) + fetch_budget tv)%nat).
Proof.
  destruct (isinstance_int tv) eqn:Hint;
    [|by unfold wait_until_complete; rewrite Hint].
  destruct (int_value tv) as [t|] eqn:Hv;
    [|by unfold wait_until_complete; rewrite Hint, Hv].
  destruct (Z.leb_spec t 0) as [Hle|Hlt].
  { unfold wait_until_complete. rewrite Hint, Hv. by rewrite (proj2 (Z.leb_le t 0) Hle). }
  rewrite (wait_until_complete_eq c tv t w Hint Hv Hlt).
  unfold fetch_budget. rewrite Hv.
  set (w0 := emit _ w).
  assert (count_requests (w_trace w0) = count_requests (w_trace w)) as Hw0 by done.
  pose proof (poll_loop_sound c tv t (Z.to_nat t) 1 w0) as Hsound.
  destruct (poll_loop (Z.to_nat t) c tv t 1 w0) as [[b'|e|] w1]; [|done|done].
  destruct b'; cbn [fst snd]; intros [= <-]; destruct (Hsound _ eq_refl) as [Ht Hf];
    (split; [intros Hb|intros Hb]); try done.
  - destruct (Ht Hb) as (p & (n & Hn & Hle & Hans) & Hp).
    exists p. split; [|done]. exists n. split; [done|]. split; [lia|exact Hans].
  - destruct (Hf Hb) as [(p & (n & Hn & Hle & Hans) & Hp)|Hcount].
    + left. exists p. split; [|done]. exists n. split; [|split; [lia|exact Hans]].
      cbn [snd] in Hn. cbn [emit w_trace]. by rewrite count_requests_cons.
    + right. cbn [snd] in Hcount. cbn [emit w_trace].
      rewrite count_requests_cons, Hcount, Hw0. cbn [is_request]. lia.
Qed.

Lemma wait_until_complete_sound_witness :
  ∃ p, last_fetch (world_of (scripted [processing_status; mixed_status]))
         (snd (wait_until_complete demo_conversion (PInt 5)
                 (world_of (scripted [processing_status; mixed_status]))))
         (status_request demo_conversion) p
       ∧ succeeded p.
Proof.
  apply (wait_until_complete_sound demo_conversion (PInt 5)
           (world_of (scripted [processing_status; mixed_status])) true);
    reflexivity.
Defined.

(** The loop after [k] rounds over pending answers. *)
Lemma poll_after_rounds c tv t w k :
  Z.of_nat k + 1 < t →
  (∀ i, (i < k)%nat →
        ∃ q, answers w (count_requests (w_trace w) + i) (status_request c) q ∧ pending q) →
  poll_loop (Z.to_nat t) c tv t 1 w =
    poll_loop (S (Z.to_nat t - k - 1)) c tv t (1 + Z.of_nat k)
      (add_events (pending_rounds c tv 1 k) w).
Proof.
  intros Hk Hpend.
  replace (Z.to_nat t) with (k + S (Z.to_nat t - k - 1))%nat at 1 by lia.
  by rewrite (poll_loop_pending_rounds c tv t k _ 1 w) by (lia || done).
Qed.

Lemma fetch_outcome_after_rounds c tv w k level m rq :
  fetch_outcome
    (add_events (pending_rounds c tv 1 k) (emit (EvLog level m) w))
    (count_requests
       (w_trace (add_events (pending_rounds c tv 1 k) (emit (EvLog level m) w)))) rq =
  fetch_outcome w (count_requests (w_trace w) + k) rq.
Proof.
  cbn [add_events emit w_trace].
  rewrite count_requests_app, count_requests_pending_rounds, count_requests_cons.
  cbn [is_request]. unfold fetch_outcome. cbn [w_server].
  by rewrite Nat.add_0_l, Nat.add_comm.
Qed.

(** X4. The poller has no handler and does not retry: when a fetch fails
    (the transport raises, or the body does not decode), after [k] rounds
    that found nothing to stop at, [wait_until_complete] raises that very
    exception.  The failed request is the last thing it did: [k + 1]
    requests and [k] sleeps were made, and no warning was logged. *)
Theorem wait_until_complete_propagates (c : Conversion) (tv : pyval) (t : Z)
    (w : World) (k : nat) (e : exn) :
  isinstance_int tv = true →
  int_value tv = Some t →
  Z.of_nat k + 1 < t →
  (∀ i, (i < k)%nat →
        ∃ q, answers w (count_requests (w_trace w) + i) (status_request c) q ∧ pending q) →
  fetch_outcome w (count_requests (w_trace w) + k) (status_request c) = Raise e →
  ∃ evs,
    wait_until_complete c tv w =
      (Raise e, add_events (EvRequest (status_request c) :: evs) w)
    ∧ count_requests evs = k
    ∧ count_sleeps evs = k.
Proof.
  intros Hint Hv Hk Hpend Hfail.
  rewrite (wait_until_complete_eq c tv t w Hint Hv) by lia.
  rewrite poll_after_rounds with (k := k) by done.
  rewrite poll_loop_step by lia. cbv zeta.
  rewrite fetch_outcome_after_rounds, Hfail.
  eexists (_ :: _ :: pending_rounds c tv 1 k ++ [_]). split.
  - f_equal. by rewrite emit_add_events, !add_events_app.
  - split; count_events.
Qed.

Lemma wait_until_complete_propagates_witness :
  ∃ evs,
    wait_until_complete demo_conversion (PInt 5)
      (world_of (scripted [processing_status])) =
      (Raise (new_exn (RequestsError "ConnectionError") [Lit "connection refused"]),
       add_events (EvRequest (status_request demo_conversion) :: evs)
         (world_of (scripted [processing_status])))
    ∧ count_requests evs = 1%nat
    ∧ count_sleeps evs = 1%nat.
Proof.
  apply (wait_until_complete_propagates demo_conversion (PInt 5) 5
           (world_of (scripted [processing_status])) 1).
  - reflexivity.
  - reflexivity.
  - lia.
  - intros i Hi. assert (i = 0%nat) as -> by lia.
    exists processing_status. split; [|apply pending_processing_status].
    eexists. split; reflexivity.
  - reflexivity.
Defined.

Lemma missing_field_success_condition p key :
  missing_field p key → success_condition p = inl (new_exn KeyError [Val (PStr key)]).
Proof.
  intros (d & -> & [[-> Hd]|(-> & Hs & Hd)]); unfold success_condition; simpl.
  - by rewrite Hd.
  - by rewrite Hs, Hd.
Qed.

(** X5. A payload without the field the poller reads makes
    [wait_until_complete] raise [KeyError] for that field, not return
    [False]: a dictionary without ["status"], or with the status
    [completed] but without the ["conversion_status"] mapping.  Nothing is
    fetched after it. *)
Theorem wait_until_complete_missing_field (c : Conversion) (tv : pyval) (t : Z)
    (w : World) (k : nat) (p : pyval) (key : string) :
  isinstance_int tv = true →
  int_value tv = Some t →
  Z.of_nat k + 1 < t →
  (∀ i, (i < k)%nat →
        ∃ q, answers w (count_requests (w_trace w) + i) (status_request c) q ∧ pending q) →
  answers w (count_requests (w_trace w) + k) (status_request c) p →
  missing_field p key →
  ∃ evs,
    wait_until_complete c tv w =
      (Raise (new_exn KeyError [Val (PStr key)]),
       add_events (EvRequest (status_request c) :: evs) w)
    ∧ count_requests evs = k
    ∧ count_sleeps evs = k.
Proof.
  intros Hint Hv Hk Hpend (r & Hr & Hp) Hmiss.
  rewrite (wait_until_complete_eq c tv t w Hint Hv) by lia.
  rewrite poll_after_rounds with (k := k) by done.
  rewrite poll_loop_step by lia. cbv zeta.
  rewrite fetch_outcome_after_rounds. unfold fetch_outcome at 1. rewrite Hr, Hp.
  rewrite (missing_field_success_condition p key Hmiss).
  eexists (_ :: _ :: pending_rounds c tv 1 k ++ [_]). split.
  - f_equal. by rewrite emit_add_events, !add_events_app.
  - split; count_events.
Qed.

Lemma wait_until_complete_missing_field_witness :
  ∃ evs,
    wait_until_complete demo_conversion (PInt 5)
      (world_of (scripted [PDict [(PStr "status", PStr "completed")]])) =
      (Raise (new_exn KeyError [Val (PStr "conversion_status")]),
       add_events (EvRequest (status_request demo_conversion) :: evs)
         (world_of (scripted [PDict [(PStr "status", PStr "completed")]])))
    ∧ count_requests evs = 0%nat
    ∧ count_sleeps evs = 0%nat.
Proof.
  apply (wait_until_complete_missing_field demo_conversion (PInt 5) 5
           (world_of (scripted [PDict [(PStr "status", PStr "completed")]])) 0
           (PDict [(PStr "status", PStr "completed")])).
  - reflexivity.
  - reflexivity.
  - lia.
  - intros i Hi. lia.
  - eexists. split; reflexivity.
  - eexists. split; [reflexivity|]. right. by repeat split.
Defined.

(** ** The safe download in other situations *)

(** The download up to the directory, once the status says [completed]
    and the artifact request is answered. *)
Lemma download_prepare_fetched c fmt path w st r :
  answers w (count_requests (w_trace w)) (status_request c) st →
  format_completed st fmt →
  w_server w (S (count_requests (w_trace w))) (output_request c (Some fmt)) = HttpOk r →
  download_prepare c (Some fmt) path w =
    match path with
    | Some "" =>
        (Ret (r, os_path_join "" [output_name c (Some fmt)]),
         add_events (download_fetch_events c (Some fmt) path) w)
    | Some p =>
        match os_makedirs (Some p)
                (add_events (download_fetch_events c (Some fmt) path) w) with
        | (Ret _, w3) => (Ret (r, os_path_join p [output_name c (Some fmt)]), w3)
        | (Raise e, w3) => (Raise e, w3)
        | (OutOfFuel, w3) => (OutOfFuel, w3)
        end
    | None =>
        (Raise (new_exn TypeError
                  [Lit "expected str, bytes or os.PathLike object, not NoneType"]),
         add_events (download_fetch_events c (Some fmt) path) w)
    end.
Proof.
  intros Hans (fm & entry & Hfm & Hentry & Hdone) Hget.
  unfold download_prepare.
  unfold bind at 1. unfold logger_info at 1, tell at 1. unfold bind at 1.
  rewrite (conversion_status_answers c
             (emit (EvLog INFO [Lit "Downloading conversion "; Val (PStr (conversion_id c));
                                Lit " in format "; Val (opt_val (Some fmt));
                                Lit " to path "; Val (opt_val path)]) w) st Hans).
  unfold bind at 1.
  rewrite (incomplete_condition_entry st fm entry (PStr "completed") (Some fmt) Hfm Hentry Hdone).
  simpl negb. cbv iota. unfold lift at 1, ret at 1.
  unfold bind at 1. unfold get at 1, send at 1.
  simpl w_trace. rewrite !count_requests_cons. simpl is_request. simpl Nat.add.
  simpl w_server. fold (output_request c (Some fmt)). rewrite Hget.
  destruct path as [[|a p]|].
  - reflexivity.
  - unfold bind at 1. unfold bind at 1.
    change (emit (EvRequest (output_request c (Some fmt))) _)
      with (add_events (download_fetch_events c (Some fmt) (Some (String a p))) w).
    destruct (os_makedirs _ _) as [[[]|e|] w3]; reflexivity.
  - reflexivity.
Qed.

Lemma write_chunks_writes datas :
  ∀ f w old,
    no_faults w → w_fs w !! f = Some (File old) →
    ∃ evs,
      write_chunks f (map Chunk datas) w =
        (Ret tt, set_fs (<[f := File (old ++ concat datas)]> (w_fs w)) (add_events evs w))
      ∧ only_writes evs.
Proof.
  induction datas as [|data datas IH]; intros f w old Hnf Hf.
  - exists []. split; [|constructor]. simpl. unfold ret. f_equal.
    rewrite app_nil_r, insert_id by done. by destruct w.
  - destruct data as [|b data].
    + simpl. by apply IH.
    + set (d := b :: data).
      change (write_chunks f (map Chunk (d :: datas)) w)
        with (bind (file_write f d) (λ _, write_chunks f (map Chunk datas)) w).
      unfold bind, file_write. rewrite io_step_no_fault by done.
      simpl w_fs. rewrite Hf.
      destruct (IH f (set_fs (<[f:=File (old ++ d)]> (w_fs w)) (emit (EvWrite f d) w))
                  (old ++ d)) as (evs & -> & Hevs).
      * done.
      * simpl. by rewrite lookup_insert_eq.
      * exists (evs ++ [EvWrite f d]). split.
        -- f_equal. unfold set_fs, add_events, emit; simpl.
           rewrite insert_insert_eq, <- !app_assoc. done.
        -- apply Forall_app. split; [done|]. by constructor.
Qed.

(** Writing a response whose chunks all arrive to a location that can be
    opened, on a disk that does not fail. *)
Lemma write_to_file_ok p r datas w f :
  no_faults w → p ≠ "" →
  resp_chunks r = map Chunk datas →
  open_walk (w_fs w) (start_dir (w_cwd w) p) (split_sep p) = inr f →
  f ≠ [] →
  w_fs w !! f ≠ Some Dir →
  fs_lookup (w_fs w) (removelast f) = Some Dir →
  ∃ evs,
    write_to_file p r w =
      (Ret tt,
       set_fs (<[f := File (concat datas)]> (w_fs w))
         (add_events (EvClose f :: evs ++ [EvOpenWrite p]) w))
    ∧ only_writes evs.
Proof.
  intros Hnf Hp Hchunks Hwalk Hf Hnodir Hparent.
  unfold write_to_file, try_except, write_body.
  unfold bind at 1. unfold open_wb. rewrite io_step_no_fault by done.
  destruct (String.eqb_spec p ""); [done|].
  simpl w_fs. simpl w_cwd. rewrite Hwalk, Hparent.
  assert (fs_lookup (w_fs w) f = w_fs w !! f) as Hlook by by destruct f.
  rewrite Hlook, Hchunks. unfold with_file.
  destruct (write_chunks_writes datas f
              (set_fs (<[f:=File []]> (w_fs w)) (emit (EvOpenWrite p) w)) [])
    as (evs & Hrun & Hevs).
  { done. }
  { simpl. by rewrite lookup_insert_eq. }
  exists evs. split; [|done].
  destruct (w_fs w !! f) as [[|old]|] eqn:Hold; [done| |];
    rewrite Hrun; unfold file_close; rewrite io_step_no_fault by done;
    (f_equal; apply world_eq;
     cbn [w_server w_io_fault w_fs w_cwd w_trace set_fs add_events emit app];
     [reflexivity|reflexivity|by rewrite insert_insert_eq|reflexivity
     |by rewrite <- app_assoc]).
Qed.

Lemma makedirs_walk_existing cs :
  ∀ fs cur,
    ".." ∉ cs → fs_wf fs →
    fs_lookup fs (walk cur cs) = Some Dir →
    makedirs_walk fs cur cs = inr fs.
Proof.
  induction cs as [|c cs IH]; intros fs cur Hdd Hwf Htarget; simpl; [done|].
  apply not_elem_of_cons in Hdd as [Hc Hcs]. simpl in Htarget.
  destruct (is_dot c); [by apply IH|].
  destruct (String.eqb_spec c ".."); [done|].
  assert (fs_lookup fs (cur ++ [c]) = Some Dir) as ->.
  { apply (fs_wf_prefix fs (walk (cur ++ [c]) cs)); [done|done|by apply walk_prefix]. }
  by apply IH.
Qed.

Lemma os_makedirs_existing p w :
  no_faults w → p ≠ "" → ".." ∉ split_sep p → fs_wf (w_fs w) →
  fs_lookup (w_fs w) (resolve (w_cwd w) p) = Some Dir →
  os_makedirs (Some p) w = (Ret tt, add_events [EvMakedirs p] w).
Proof.
  intros Hnf Hp Hdd Hwf Htarget. unfold os_makedirs.
  rewrite io_step_no_fault by done.
  destruct (String.eqb_spec p ""); [done|].
  simpl w_fs. simpl w_cwd.
  by rewrite (makedirs_walk_existing (split_sep p) (w_fs w) _ Hdd Hwf Htarget).
Qed.

(** Where the file of a download lies, once its directory exists. *)
Lemma open_walk_download fs cwd dir name :
  dir ≠ "" → ".." ∉ split_sep dir → plain_name name = true →
  fs_wf fs → fs_lookup fs (start_dir cwd dir) = Some Dir →
  fs_lookup fs (resolve cwd dir) = Some Dir →
  os_path_join dir [name] ≠ ""
  ∧ open_walk fs (start_dir cwd (os_path_join dir [name]))
      (split_sep (os_path_join dir [name])) = inr (resolve cwd dir ++ [name]).
Proof.
  intros Hdir Hdd Hname Hwf Hstart Htarget.
  destruct (plain_name_inv name Hname) as (Hsep & Hdot & Hup).
  destruct (join_components dir name Hdir Hsep) as (Hs & cs & Hsplit & Hcs).
  split.
  { intros Hempty. rewrite Hempty in Hsplit.
    change (split_sep "") with [""] in Hsplit.
    destruct cs as [|? [|? ?]]; cbn [app] in Hsplit; simplify_eq. }
  unfold start_dir at 1. rewrite Hs. fold (start_dir cwd dir). rewrite Hsplit.
  assert ((".." ∉ cs) ∧ walk (start_dir cwd dir) cs = resolve cwd dir) as [Hddcs Hwalk].
  { unfold resolve. destruct Hcs as [Hcs|Hcs]; rewrite Hcs in *.
    - done.
    - split; [|by rewrite walk_app]. intros H. apply Hdd. apply elem_of_app. by left. }
  rewrite (open_walk_spec cs fs (start_dir cwd dir) name Hddcs Hdot Hup);
    [by rewrite Hwalk|].
  intros q H1 H2 Hne. rewrite Hwalk in H2.
  pose proof (fs_wf_prefix fs _ q Hwf Htarget H2) as Hq.
  destruct q; [|done]. destruct Hne. symmetry. by apply prefix_nil_inv.
Qed.

(** X6. A repeated download overwrites.  When the directory exists
    already and the file is absent or a regular file, on a disk that does
    not fail, the safe download of a completed format leaves the file
    system as it was except for that one file, which holds exactly the
    bytes of the chunks (not the old content followed by them); no
    directory is created. *)
Theorem download_overwrites (c : Conversion) (fmt dir : string) (w : World)
    (st : pyval) (r : response) (datas : list (list Byte.byte)) :
  world_ok w →
  no_faults w →
  answers w (count_requests (w_trace w)) (status_request c) st →
  format_completed st fmt →
  w_server w (S (count_requests (w_trace w))) (output_request c (Some fmt)) = HttpOk r →
  resp_chunks r = map Chunk datas →
  dir ≠ "" →
  ".." ∉ split_sep dir →
  fs_lookup (w_fs w) (resolve (w_cwd w) dir) = Some Dir →
  w_fs w !! (resolve (w_cwd w) dir ++ [output_name c (Some fmt)]) ≠ Some Dir →
  plain_name (output_name c (Some fmt)) = true →
  ∃ evs,
    download_output_to_local_path c (Some fmt) (Some dir) w =
      (Ret (os_path_join dir [output_name c (Some fmt)]),
       set_fs (<[resolve (w_cwd w) dir ++ [output_name c (Some fmt)] :=
                   File (concat datas)]> (w_fs w))
         (add_events evs w))
    ∧ count_open_writes evs = 1%nat
    ∧ requests_of evs = [output_request c (Some fmt); status_request c].
Proof.
  intros [Hwf Hcwd] Hnf Hans Hdone Hget Hchunks Hdir Hdd Htarget Hfile Hname.
  set (name := output_name c (Some fmt)) in *.
  assert (fs_lookup (w_fs w) (start_dir (w_cwd w) dir) = Some Dir) as Hstart.
  { unfold start_dir. by destruct (starts_with_sep dir). }
  destruct (open_walk_download (w_fs w) (w_cwd w) dir name Hdir Hdd Hname Hwf Hstart Htarget)
    as [Hpath Hwalk].
  unfold download_output_to_local_path. unfold bind at 1.
  rewrite (download_prepare_fetched c fmt (Some dir) w st r Hans Hdone Hget).
  destruct dir as [|a dir']; [done|]. set (dir := String a dir') in *.
  rewrite os_makedirs_existing by done.
  cbv beta iota zeta. cbn [fst snd]. fold name.
  set (w3 := add_events [EvMakedirs dir] _).
  destruct (write_to_file_ok (os_path_join dir [name]) r datas w3
              (resolve (w_cwd w) dir ++ [name])) as (writes & Hrun & Hwrites);
    try done.
  { by destruct (resolve (w_cwd w) dir). }
  { by rewrite removelast_last. }
  unfold bind at 1. rewrite Hrun.
  unfold bind, logger_info, tell, ret.
  eexists (_ :: _ :: writes ++ [_; _] ++ download_fetch_events c (Some fmt) (Some dir)).
  split; [|split].
  - f_equal. apply world_eq;
      cbn [w_server w_io_fault w_fs w_cwd w_trace set_fs add_events emit app w3];
      try reflexivity.
    by rewrite <- !app_assoc.
  - rewrite !count_open_writes_cons, count_open_writes_app.
    assert (count_open_writes writes = 0%nat) as ->.
    { clear -Hwrites. induction Hwrites as [|ev evs Hev _ IH]; [done|].
      rewrite count_open_writes_cons, IH. by destruct ev. }
    reflexivity.
  - cbn [requests_of]. rewrite requests_of_app.
    assert (requests_of writes = []) as ->.
    { clear -Hwrites. induction Hwrites as [|ev evs Hev _ IH]; [done|]. by destruct ev. }
    reflexivity.
Qed.

Lemma world_ok_downloaded_world : world_ok downloaded_world.
Proof.
  split; [|reflexivity].
  intros p n H.
  change ((<[ ["home"; "out"; "c42.docx"] := File [Byte.x6f; Byte.x6c; Byte.x64; Byte.x21] ]>
             (<[ ["home"; "out"] := Dir ]> {[ ["home"] := Dir ]})
           : gmap (list string) node) !! p = Some n) in H.
  apply lookup_insert_Some in H as [[<- _]|[_ H]]; [by split|].
  apply lookup_insert_Some in H as [[<- _]|[_ H]]; [by split|].
  apply lookup_singleton_Some in H as [<- _]. by split.
Qed.

Lemma download_overwrites_witness :
  ∃ evs,
    download_output_to_local_path demo_conversion (Some "docx") (Some "out")
      downloaded_world =
      (Ret "out/c42.docx",
       set_fs (<[ ["home"; "out"; "c42.docx"] := File [Byte.x50; Byte.x4b; Byte.x03] ]>
                 (w_fs downloaded_world))
         (add_events evs downloaded_world))
    ∧ count_open_writes evs = 1%nat.
Proof.
  destruct (download_overwrites demo_conversion "docx" "out" downloaded_world
              mixed_status demo_artifact [[Byte.x50; Byte.x4b]; []; [Byte.x03]])
    as (evs & Hrun & Hopen & _).
  - apply world_ok_downloaded_world.
  - intros n. reflexivity.
  - eexists. split; reflexivity.
  - eexists _, _. split; [reflexivity|]. split; reflexivity.
  - reflexivity.
  - reflexivity.
  - discriminate.
  - vm_compute. intros H. apply elem_of_cons in H as [H|H]; [discriminate|].
    by apply elem_of_nil in H.
  - reflexivity.
  - vm_compute. discriminate.
  - reflexivity.
  - exists evs. split; [exact Hrun|exact Hopen].
Defined.

Lemma count_makedirs_cons ev evs :
  count_makedirs (ev :: evs) =
    ((if is_makedirs ev then 1 else 0) + count_makedirs evs)%nat.
Proof. unfold count_makedirs. rewrite filter_cons. by destruct (is_makedirs ev). Qed.

Lemma count_makedirs_app evs evs' :
  count_makedirs (evs ++ evs') = (count_makedirs evs + count_makedirs evs')%nat.
Proof. unfold count_makedirs. by rewrite filter_app, length_app. Qed.

Lemma only_writes_counts evs :
  only_writes evs →
  count_makedirs evs = 0%nat ∧ count_open_writes evs = 0%nat ∧ requests_of evs = [].
Proof.
  induction 1 as [|ev evs Hev _ (IH1 & IH2 & IH3)]; [done|].
  rewrite count_makedirs_cons, count_open_writes_cons, IH1, IH2.
  by destruct ev.
Qed.

(** X7. The default directory.  With [path] left at its default, the empty
    string, the safe download creates no directory: on a disk that does
    not fail it writes the artifact into the working directory and returns
    the bare file name, [id.format], with no directory part. *)
Theorem download_default_path (c : Conversion) (fmt : string) (w : World)
    (st : pyval) (r : response) (datas : list (list Byte.byte)) :
  world_ok w →
  no_faults w →
  answers w (count_requests (w_trace w)) (status_request c) st →
  format_completed st fmt →
  w_server w (S (count_requests (w_trace w))) (output_request c (Some fmt)) = HttpOk r →
  resp_chunks r = map Chunk datas →
  plain_name (output_name c (Some fmt)) = true →
  w_fs w !! (w_cwd w ++ [output_name c (Some fmt)]) ≠ Some Dir →
  ∃ evs,
    download_output_to_local_path c (Some fmt) (Some "") w =
      (Ret (output_name c (Some fmt)),
       set_fs (<[w_cwd w ++ [output_name c (Some fmt)] := File (concat datas)]> (w_fs w))
         (add_events evs w))
    ∧ count_makedirs evs = 0%nat
    ∧ count_open_writes evs = 1%nat.
Proof.
  intros [Hwf Hcwd] Hnf Hans Hdone Hget Hchunks Hname Hfile.
  set (name := output_name c (Some fmt)) in *.
  destruct (plain_name_inv name Hname) as (Hsep & Hdot & Hup).
  assert (os_path_join "" [name] = name) as Hjoin.
  { unfold os_path_join. cbn [fold_left]. unfold join_step.
    by rewrite (has_sep_starts name Hsep). }
  unfold download_output_to_local_path. unfold bind at 1.
  rewrite (download_prepare_fetched c fmt (Some "") w st r Hans Hdone Hget).
  cbv beta iota zeta. cbn [fst snd]. fold name. rewrite Hjoin.
  set (w2 := add_events _ w).
  destruct (write_to_file_ok name r datas w2 (w_cwd w ++ [name]))
    as (writes & Hrun & Hwrites); try done.
  { intros ->. done. }
  { unfold start_dir. rewrite (has_sep_starts name Hsep), (split_sep_plain name Hsep).
    apply (open_walk_spec [] (w_fs w2) (w_cwd w2) name); try done.
    - apply not_elem_of_nil.
    - intros q H1 H2 Hne. destruct Hne. cbn [walk] in H2.
      symmetry. apply prefix_length_eq; [done|]. by apply prefix_length. }
  { by destruct (w_cwd w). }
  { by rewrite removelast_last. }
  destruct (only_writes_counts writes Hwrites) as (Hmk & Hop & _).
  unfold bind at 1. rewrite Hrun.
  unfold bind, logger_info, tell, ret.
  eexists (_ :: _ :: writes ++ [_] ++ download_fetch_events c (Some fmt) (Some "")).
  split; [|split].
  - f_equal. apply world_eq;
      cbn [w_server w_io_fault w_fs w_cwd w_trace set_fs add_events emit app w2];
      try reflexivity.
    by rewrite <- !app_assoc.
  - rewrite !count_makedirs_cons, count_makedirs_app, Hmk. reflexivity.
  - rewrite !count_open_writes_cons, count_open_writes_app, Hop. reflexivity.
Qed.

Lemma download_default_path_witness :
  ∃ evs,
    download_output_to_local_path demo_conversion (Some "docx") (Some "")
      completed_world =
      (Ret "c42.docx",
       set_fs (<[ ["home"; "c42.docx"] := File [Byte.x50; Byte.x4b; Byte.x03] ]>
                 (w_fs completed_world))
         (add_events evs completed_world))
    ∧ count_makedirs evs = 0%nat.
Proof.
  destruct (download_default_path demo_conversion "docx" completed_world
              mixed_status demo_artifact [[Byte.x50; Byte.x4b]; []; [Byte.x03]])
    as (evs & Hrun & Hmk & _).
  - apply world_ok_completed_world.
  - intros n. reflexivity.
  - eexists. split; reflexivity.
  - eexists _, _. split; [reflexivity|]. split; reflexivity.
  - reflexivity.
  - reflexivity.
  - reflexivity.
  - vm_compute. discriminate.
  - exists evs. split; [exact Hrun|exact Hmk].
Defined.

(** ** The status check of the safe download *)

Lemma incomplete_condition_false st conversion_format :
  incomplete_condition st conversion_format = inr false →
  ∃ fm entry,
    py_getitem st (PStr "conversion_status") = inr fm
    ∧ py_getitem fm (opt_val conversion_format) = inr entry
    ∧ has_status entry "completed".
Proof.
  unfold incomplete_condition, has_status.
  destruct (py_contains_str _ st) as [e|[]]; [done| |done].
  destruct (py_getitem st _) as [e|fm] eqn:Hfm; [done|].
  destruct (py_getitem fm _) as [e|entry] eqn:Hentry; [done|].
  destruct (py_getitem entry _) as [e|s] eqn:Hs; [done|].
  intros [= H%negb_false_iff%py_eq_str_true]. subst s. by exists fm, entry.
Qed.

(** Unless the status that was fetched says that the format is completed,
    the safe download stops right after the status fetch. *)
Lemma download_refused c conversion_format path w :
  (∀ st, fetch_outcome w (count_requests (w_trace w)) (status_request c) = Ret st →
         incomplete_condition st conversion_format ≠ inr false) →
  ∃ e,
    download_output_to_local_path c conversion_format path w =
      (Raise e, add_events (download_refused_events c conversion_format path) w)
    ∧ (fetch_outcome w (count_requests (w_trace w)) (status_request c) = Raise e
       ∨ ∃ st, fetch_outcome w (count_requests (w_trace w)) (status_request c) = Ret st
               ∧ (incomplete_condition st conversion_format = inl e
                  ∨ (incomplete_condition st conversion_format = inr true
                     ∧ e = new_ConversionIncompleteError [Lit "Conversion not complete"]
                             PNone))).
Proof.
  intros Hnot.
  unfold download_output_to_local_path, download_prepare.
  unfold bind at 1. unfold bind at 1, logger_info at 1, tell at 1. unfold bind at 1.
  rewrite conversion_status_eq.
  change (count_requests (w_trace (emit (EvLog _ _) w))) with (count_requests (w_trace w)).
  change (fetch_outcome (emit _ w)) with (fetch_outcome w).
  destruct (fetch_outcome w _ _) as [st|e|] eqn:Hfetch.
  - unfold bind at 1.
    destruct (incomplete_condition st conversion_format) as [e|[]] eqn:Hinc.
    + exists e. split; [reflexivity|]. right. exists st. split; [done|]. by left.
    + eexists. split; [reflexivity|]. right. exists st. split; [done|]. right. by split.
    + by destruct (Hnot st).
  - exists e. split; [reflexivity|]. by left.
  - exfalso. revert Hfetch. unfold fetch_outcome.
    destruct (w_server w _ _) as [r|e]; [|done]. by destruct (resp_json r).
Qed.

(** X8. The safe download touches nothing before the status allows it.
    Either the status fetch answered with a payload in which the format
    is completed, or the call raises with the status request as its only
    request and no file-system operation: the artifact is not requested,
    no directory is made, no file is opened.  What is raised is then the
    failure of the fetch as it is, the error of a subscript on the
    payload, or [ConversionIncompleteError] with an empty [status_info]. *)
Theorem download_only_when_completed (c : Conversion) (fmt : string)
    (path : option string) (w : World) :
  (∃ st, answers w (count_requests (w_trace w)) (status_request c) st
         ∧ format_completed st fmt)
  ∨ (∃ e evs,
       download_output_to_local_path c (Some fmt) path w = (Raise e, add_events evs w)
       ∧ requests_of evs = [status_request c]
       ∧ count_io evs = 0%nat
       ∧ (fetch_outcome w (count_requests (w_trace w)) (status_request c) = Raise e
          ∨ ∃ st, answers w (count_requests (w_trace w)) (status_request c) st
                  ∧ (incomplete_condition st (Some fmt) = inl e
                     ∨ e = Exn ConversionIncompleteError [Lit "Conversion not complete"]
                             (PDict []) None))).
Proof.
  assert (∀ P : Prop,
            (∀ st, fetch_outcome w (count_requests (w_trace w)) (status_request c) = Ret st →
                   incomplete_condition st (Some fmt) ≠ inr false) →
            P ∨ (∃ e evs,
       download_output_to_local_path c (Some fmt) path w = (Raise e, add_events evs w)
       ∧ requests_of evs = [status_request c]
       ∧ count_io evs = 0%nat
       ∧ (fetch_outcome w (count_requests (w_trace w)) (status_request c) = Raise e
          ∨ ∃ st, answers w (count_requests (w_trace w)) (status_request c) st
                  ∧ (incomplete_condition st (Some fmt) = inl e
                     ∨ e = Exn ConversionIncompleteError [Lit "Conversion not complete"]
                             (PDict []) None)))) as Hrefused.
  { intros P Hnot. right.
    destruct (download_refused c (Some fmt) path w Hnot) as (e & Hrun & Horigin).
    exists e, (download_refused_events c (Some fmt) path).
    split; [exact Hrun|]. split; [reflexivity|]. split; [reflexivity|].
    destruct Horigin as [H|(st & Hst & H)]; [by left|right].
    exists st. split; [by apply fetch_outcome_answers|].
    destruct H as [H|[_ ->]]; [by left|by right]. }
  destruct (fetch_outcome w (count_requests (w_trace w)) (status_request c))
    as [st|e|] eqn:Hfetch.
  - destruct (incomplete_condition st (Some fmt)) as [e|[]] eqn:Hinc.
    + apply Hrefused. intros st' [= <-]. congruence.
    + apply Hrefused. intros st' [= <-]. congruence.
    + left. exists st. split; [by apply fetch_outcome_answers|].
      by apply (incomplete_condition_false st (Some fmt)).
  - apply Hrefused. intros st' [=].
  - apply Hrefused. intros st' [=].
Qed.

Lemma answers_fetch_outcome w n rq p :
  answers w n rq p → fetch_outcome w n rq = Ret p.
Proof. intros (r & Hr & Hj). unfold fetch_outcome. by rewrite Hr, Hj. Qed.

Lemma dict_get_None_string_keys d : string_keys d → dict_get d PNone = None.
Proof.
  induction 1 as [|[k v] d Hk _ IH]; [done|].
  simpl in *. by destruct k.
Qed.

(** [fm[None]] fails on every value whose keys, if it is a dictionary,
    are strings. *)
Lemma py_getitem_None fm :
  (∀ d, fm = PDict d → string_keys d) →
  ∃ e, py_getitem fm PNone = inl e
       ∧ (∀ d, fm = PDict d → e = new_exn KeyError [Val PNone]).
Proof.
  intros Hkeys. destruct fm; simpl; try (eexists; split; [reflexivity|by intros]).
  rewrite (dict_get_None_string_keys d (Hkeys d eq_refl)).
  eexists. split; [reflexivity|done].
Qed.

(** X9. The default format cannot be downloaded.  With
    [conversion_format] left at its default, [None], the safe download
    looks up the key [None] in the format mapping of the status; the keys
    of a mapping decoded from JSON are strings, so the call raises
    whatever the service answers: at most the status is requested, and
    the file system is not touched.  When the status has a format mapping,
    what is raised is [KeyError(None)]. *)
Theorem download_default_format_raises (c : Conversion) (path : option string) (w : World) :
  (∀ st d, answers w (count_requests (w_trace w)) (status_request c) st →
           py_getitem st (PStr "conversion_status") = inr (PDict d) → string_keys d) →
  ∃ e evs,
    download_output_to_local_path c None path w = (Raise e, add_events evs w)
    ∧ requests_of evs = [status_request c]
    ∧ count_io evs = 0%nat
    ∧ (∀ st d, answers w (count_requests (w_trace w)) (status_request c) st →
               py_getitem st (PStr "conversion_status") = inr (PDict d) →
               e = new_exn KeyError [Val PNone]).
Proof.
  intros Hkeys.
  assert (∀ st, fetch_outcome w (count_requests (w_trace w)) (status_request c) = Ret st →
                (∀ fm, py_getitem st (PStr "conversion_status") = inr fm →
                       ∃ e, py_getitem fm PNone = inl e
                            ∧ (∀ d, fm = PDict d → e = new_exn KeyError [Val PNone])))
    as Hlookup.
  { intros st Hst fm Hfm. apply py_getitem_None. intros d ->.
    apply (Hkeys st d); [by apply fetch_outcome_answers|done]. }
  destruct (download_refused c None path w) as (e & Hrun & Horigin).
  { intros st Hst Hinc.
    destruct (incomplete_condition_false st None Hinc) as (fm & entry & Hfm & Hentry & _).
    destruct (Hlookup st Hst fm Hfm) as (e & He & _).
    simpl in Hentry. congruence. }
  exists e, (download_refused_events c None path).
  split; [exact Hrun|]. split; [reflexivity|]. split; [reflexivity|].
  intros st d Hans Hfm.
  pose proof (answers_fetch_outcome _ _ _ _ Hans) as Hst.
  destruct (Hlookup st Hst (PDict d) Hfm) as (e' & He' & Hkey).
  rewrite <- (Hkey d eq_refl).
  destruct Horigin as [H|(st' & Hst' & H)]; [congruence|].
  assert (st' = st) as -> by congruence.
  assert (incomplete_condition st None = inl e') as Hinc.
  { unfold incomplete_condition.
    assert (py_contains_str "conversion_status" st = inr true) as ->.
    { destruct st; simpl in Hfm |- *; try discriminate.
      by destruct (dict_get _ _). }
    rewrite Hfm. simpl opt_val. by rewrite He'. }
  destruct H as [H|[H _]]; congruence.
Qed.

Lemma download_default_format_raises_witness :
  ∃ evs,
    download_output_to_local_path demo_conversion None (Some "out") completed_world =
      (Raise (new_exn KeyError [Val PNone]), add_events evs completed_world)
    ∧ requests_of evs = [status_request demo_conversion]
    ∧ count_io evs = 0%nat.
Proof.
  assert (∀ st d,
            answers completed_world (count_requests (w_trace completed_world))
              (status_request demo_conversion) st →
            py_getitem st (PStr "conversion_status") = inr (PDict d) → string_keys d)
    as Hkeys.
  { intros st d (r & Hr & Hj) Hfm.
    vm_compute in Hr. injection Hr as <-. vm_compute in Hj. injection Hj as <-.
    vm_compute in Hfm. injection Hfm as <-.
    repeat constructor. }
  destruct (download_default_format_raises demo_conversion (Some "out") completed_world
              Hkeys) as (e & evs & Hrun & Hreq & Hio & Hkey).
  exists evs. split; [|split; [exact Hreq|exact Hio]].
  rewrite Hrun. f_equal. f_equal.
  apply (Hkey mixed_status
           [(PStr "docx", PDict [(PStr "status", PStr "completed")]);
            (PStr "tex", PDict [(PStr "status", PStr "error")])]).
  - eexists. split; reflexivity.
  - reflexivity.
Defined.

(** X10. No directory given at all.  With [path=None] and a completed
    format, the safe download requests the status and the artifact and
    then raises the [TypeError] of [os.makedirs(None)] as it is: the
    failure happens before the guarded write, so it is not turned into a
    [FilesystemError], and no file-system operation is attempted. *)
Theorem download_path_None (c : Conversion) (fmt : string) (w : World)
    (st : pyval) (r : response) :
  answers w (count_requests (w_trace w)) (status_request c) st →
  format_completed st fmt →
  w_server w (S (count_requests (w_trace w))) (output_request c (Some fmt)) = HttpOk r →
  ∃ e evs,
    download_output_to_local_path c (Some fmt) None w = (Raise e, add_events evs w)
    ∧ exn_cls e = TypeError
    ∧ exn_context e = None
    ∧ requests_of evs = [output_request c (Some fmt); status_request c]
    ∧ count_io evs = 0%nat.
Proof.
  intros Hans Hdone Hget.
  unfold download_output_to_local_path. unfold bind at 1.
  rewrite (download_prepare_fetched c fmt None w st r Hans Hdone Hget).
  eexists _, _. split; [reflexivity|]. by repeat split.
Qed.

Lemma download_path_None_witness :
  ∃ e evs,
    download_output_to_local_path demo_conversion (Some "docx") None completed_world =
      (Raise e, add_events evs completed_world)
    ∧ exn_cls e = TypeError
    ∧ count_io evs = 0%nat.
Proof.
  destruct (download_path_None demo_conversion "docx" completed_world
              mixed_status demo_artifact) as (e & evs & Hrun & Hcls & _ & _ & Hio).
  - eexists. split; reflexivity.
  - eexists _, _. split; [reflexivity|]. split; reflexivity.
  - reflexivity.
  - exists e, evs. split; [exact Hrun|]. split; [exact Hcls|exact Hio].
Defined.

(** ** Failures around the write *)

(** X11. A directory that cannot be created.  [os.makedirs] runs before
    the guarded write, so whatever it raises (a file in the way, a full
    disk, missing permissions) reaches the caller as it is, not as a
    [FilesystemError]; by then both requests were made, and no file is
    opened. *)
Theorem makedirs_failure_escapes (c : Conversion) (fmt p : string) (w : World)
    (st : pyval) (r : response) (e : exn) (w' : World) :
  answers w (count_requests (w_trace w)) (status_request c) st →
  format_completed st fmt →
  w_server w (S (count_requests (w_trace w))) (output_request c (Some fmt)) = HttpOk r →
  p ≠ "" →
  os_makedirs (Some p) (add_events (download_fetch_events c (Some fmt) (Some p)) w)
    = (Raise e, w') →
  download_output_to_local_path c (Some fmt) (Some p) w = (Raise e, w')
  ∧ w' = add_events (EvMakedirs p :: download_fetch_events c (Some fmt) (Some p)) w.
Proof.
  intros Hans Hdone Hget Hp Hmk. split.
  - unfold download_output_to_local_path. unfold bind at 1.
    rewrite (download_prepare_fetched c fmt (Some p) w st r Hans Hdone Hget).
    destruct p as [|a p]; [done|]. by rewrite Hmk.
  - revert Hmk. unfold os_makedirs, io_step.
    destruct (w_io_fault _ _) as [e0|]; [by intros [= _ <-]|].
    destruct (String.eqb p ""); [by intros [= _ <-]|].
    destruct (makedirs_walk _ _ _); [by intros [= _ <-]|done].
Qed.

Lemma makedirs_failure_escapes_witness :
  ∃ e w',
    download_output_to_local_path demo_conversion (Some "docx") (Some "out/c42.docx/new")
      downloaded_world = (Raise e, w')
    ∧ exn_cls e = NotADirectoryError
    ∧ count_open_writes (w_trace w') = 0%nat.
Proof.
  edestruct (makedirs_failure_escapes demo_conversion "docx" "out/c42.docx/new"
               downloaded_world mixed_status demo_artifact) as [Hrun Hw'].
  - eexists. split; reflexivity.
  - eexists _, _. split; [reflexivity|]. split; reflexivity.
  - reflexivity.
  - discriminate.
  - vm_compute. reflexivity.
  - eexists _, _. split; [exact Hrun|]. split; reflexivity.
Defined.

Lemma open_wb_ret p w f w1 :
  open_wb p w = (Ret f, w1) →
  w1 = set_fs (<[f := File []]> (w_fs w)) (add_events [EvOpenWrite p] w).
Proof.
  unfold open_wb, io_step.
  destruct (w_io_fault _ _); [done|].
  destruct (String.eqb p ""); [done|].
  cbn [w_fs w_cwd emit].
  destruct (open_walk _ _ _) as [cls|target]; [done|].
  destruct (fs_lookup (w_fs w) target) as [[|b]|];
    destruct (fs_lookup (w_fs w) (removelast target)) as [[|b']|]; try done;
    by intros [= <- <-].
Qed.

(** The loop over the chunks, whatever the disk and the stream do: it
    writes the data of some of the first chunks and nothing else. *)
Lemma write_chunks_any chunks :
  ∀ f w old,
    w_fs w !! f = Some (File old) →
    ∃ o evs k,
      write_chunks f chunks w =
        (o, set_fs (<[f := File (old ++ concat (take k (chunk_data chunks)))]> (w_fs w))
              (add_events evs w))
      ∧ only_writes evs
      ∧ o ≠ OutOfFuel.
Proof.
  induction chunks as [|[data|e] chunks IH]; intros f w old Hf.
  - exists (Ret tt), [], 0%nat. split; [|split; [constructor|done]].
    simpl. unfold ret. f_equal. rewrite app_nil_r, insert_id by done. by destruct w.
  - destruct data as [|b data].
    + destruct (IH f w old Hf) as (o & evs & k & Hrun & Hevs & Ho).
      exists o, evs, (S k). split; [|done]. simpl. exact Hrun.
    + set (d := b :: data).
      change (write_chunks f (Chunk d :: chunks) w)
        with (bind (file_write f d) (λ _, write_chunks f chunks) w).
      unfold bind, file_write, io_step.
      destruct (w_io_fault w _) as [e|].
      * exists (Raise e), [EvWrite f d], 0%nat. split; [|split; [|done]].
        -- f_equal. apply world_eq; try reflexivity.
           cbn [take concat w_fs set_fs emit]. by rewrite app_nil_r, insert_id.
        -- by repeat constructor.
      * cbn [w_fs emit]. rewrite Hf.
        destruct (IH f (set_fs (<[f:=File (old ++ d)]> (w_fs w)) (emit (EvWrite f d) w))
                    (old ++ d)) as (o & evs & k & -> & Hevs & Ho).
        { simpl. by rewrite lookup_insert_eq. }
        exists o, (evs ++ [EvWrite f d]), (S k). split; [|split; [|done]].
        -- f_equal. unfold set_fs, add_events, emit; simpl.
           by rewrite insert_insert_eq, <- !app_assoc.
        -- apply Forall_app. split; [done|]. by repeat constructor.
  - exists (Raise e), [], 0%nat. split; [|split; [constructor|done]].
    simpl. unfold raise. f_equal. rewrite app_nil_r, insert_id by done. by destruct w.
Qed.

(** X12. The file is closed on every way out, and a failed write leaves
    its file behind.  Once [open] has succeeded, the last file-system
    operation of the write is the close of that file, whether the loop
    ends, a chunk fails to arrive or a write fails; in between there are
    only writes.  The file then holds the data of some of the first
    chunks: on a failure it is neither removed nor restored to its old
    content. *)
Theorem write_closes_file (p : string) (r : response) (w : World)
    (f : list string) (w1 : World) :
  open_wb p w = (Ret f, w1) →
  ∃ o w' evs k,
    write_to_file p r w = (o, w')
    ∧ w_trace w' = EvClose f :: evs ++ EvOpenWrite p :: w_trace w
    ∧ only_writes evs
    ∧ w_fs w' = <[f := File (concat (take k (chunk_data (resp_chunks r))))]> (w_fs w)
    ∧ (o = Ret tt ∨ ∃ e, o = Raise e ∧ exn_cls e = FilesystemError).
Proof.
  intros Hopen. pose proof (open_wb_ret p w f w1 Hopen) as ->.
  set (w1 := set_fs _ _) in *.
  destruct (write_chunks_any (resp_chunks r) f w1 []) as (o & evs & k & Hrun & Hevs & Ho).
  { subst w1. simpl. by rewrite lookup_insert_eq. }
  assert (∀ w2, w_fs (emit (EvClose f) w2) = w_fs w2) as Hfs by done.
  unfold write_to_file, try_except, write_body. unfold bind at 1. rewrite Hopen.
  unfold with_file. rewrite Hrun. unfold file_close, io_step.
  set (w2 := set_fs _ (add_events evs w1)).
  assert (w_trace (emit (EvClose f) w2) = EvClose f :: evs ++ EvOpenWrite p :: w_trace w)
    as Htrace by done.
  assert (w_fs (emit (EvClose f) w2) =
            <[f := File (concat (take k (chunk_data (resp_chunks r))))]> (w_fs w)) as Hfinal.
  { subst w2 w1. cbn [w_fs set_fs emit add_events]. by rewrite insert_insert_eq. }
  destruct o as [[]|e|]; [| |done].
  - destruct (w_io_fault w2 _) as [e'|].
    + eexists _, _, evs, k. split; [reflexivity|]. repeat split; try done.
      right. eexists. by split.
    + eexists _, _, evs, k. split; [reflexivity|]. repeat split; try done. by left.
  - destruct (w_io_fault w2 _) as [e'|].
    + eexists _, _, evs, k. split; [reflexivity|]. repeat split; try done.
      right. eexists. by split.
    + eexists _, _, evs, k. split; [reflexivity|]. repeat split; try done.
      right. eexists. by split.
Qed.

Lemma write_closes_file_witness :
  ∃ e w' evs,
    write_to_file "c42.docx" demo_artifact (failing_disk 2 disk_full completed_world)
      = (Raise e, w')
    ∧ w_trace w' = EvClose ["home"; "c42.docx"] :: evs ++ [EvOpenWrite "c42.docx"]
    ∧ w_fs w' !! ["home"; "c42.docx"] = Some (File [Byte.x50; Byte.x4b]).
Proof.
  edestruct (write_closes_file "c42.docx" demo_artifact
               (failing_disk 2 disk_full completed_world))
    as (o & w' & evs & k & Hrun & Htrace & _ & _ & _).
  - vm_compute. reflexivity.
  - revert Hrun. vm_compute. intros [= <- <-].
    eexists _, _, [_; _]. split; [reflexivity|]. split; reflexivity.
Defined.

(** ** Images *)

(** X13. An image has exactly one source.  Whatever [Image.__init__]
    returns holds a truthy [file_path] and the empty string as [file_url],
    or the other way round; a falsy argument ([None], [''], [0], an empty
    list) is stored as [''].  Otherwise the constructor raises
    [AuthenticationError] or [ValidationError] after one error line in the
    log.  It never reaches the service or the disk. *)
Theorem Image_init_one_source (a : option Auth) (fp fu : pyval) (o : image_options)
    (w : World) :
  (∃ img, Image_init a fp fu o w = (Ret img, w)
          ∧ a = Some (image_auth img) ∧ options img = o
          ∧ ((file_path img = fp ∧ py_truthy fp = true
              ∧ file_url img = PStr "" ∧ py_truthy fu = false)
             ∨ (file_url img = fu ∧ py_truthy fu = true
                ∧ file_path img = PStr "" ∧ py_truthy fp = false)))
  ∨ (∃ e m, Image_init a fp fu o w = (Raise e, add_events [EvLog ERROR m] w)
            ∧ ((a = None ∧ exn_cls e = AuthenticationError)
               ∨ (py_truthy fp = py_truthy fu ∧ exn_cls e = ValidationError))).
Proof.
  unfold Image_init, py_or. destruct a as [a|].
  - destruct (py_truthy fp) eqn:Hfp, (py_truthy fu) eqn:Hfu;
      rewrite ?Hfp, ?Hfu; simpl.
    + right. eexists _, _. split; [reflexivity|]. right. by split.
    + left. eexists. split; [reflexivity|]. repeat split. left. by repeat split.
    + left. eexists. split; [reflexivity|]. repeat split. right. by repeat split.
    + right. eexists _, _. split; [reflexivity|]. right. by split.
  - right. eexists _, _. split; [reflexivity|]. left. by split.
Qed.

(** X14. A conversion has an identifier.  Whatever [Conversion.__init__]
    returns holds the credentials, the formats and the identifier it was
    given, and the identifier is not empty; without credentials or with
    an identifier that is [None] or [''] it raises [ValidationError] after
    one error line in the log. *)
Theorem Conversion_init_validates (a : option Auth) (cid : option string)
    (fmts : pyval) (w : World) :
  (∃ c, Conversion_init a cid fmts w = (Ret c, w)
        ∧ a = Some (auth c) ∧ cid = Some (conversion_id c)
        ∧ conversion_id c ≠ "" ∧ conversion_formats c = fmts)
  ∨ (∃ e m, Conversion_init a cid fmts w = (Raise e, add_events [EvLog ERROR m] w)
            ∧ exn_cls e = ValidationError
            ∧ (a = None ∨ cid = None ∨ cid = Some "")).
Proof.
  unfold Conversion_init. destruct a as [a|].
  - destruct cid as [s|]; simpl.
    + destruct (String.eqb_spec s "") as [->|Hs].
      * right. eexists _, _. split; [reflexivity|]. split; [done|]. right. by right.
      * left. eexists. split; [reflexivity|]. by repeat split.
    + right. eexists _, _. split; [reflexivity|]. split; [done|]. right. by left.
  - right. eexists _, _. split; [reflexivity|]. split; [done|]. by left.
Qed.

(** The guarded request of [Image.results]: one request, no file-system
    operation, whatever the transport answers. *)
Lemma ocr_request_events endpoint hdrs body w :
  ∃ o evs,
    ocr_request endpoint hdrs body w = (o, add_events evs w)
    ∧ requests_of evs =
        [{| req_method := POST; req_url := endpoint; req_headers := hdrs;
            req_body := body |}]
    ∧ count_io evs = 0%nat
    ∧ o ≠ OutOfFuel.
Proof.
  unfold ocr_request, try_except_request, bind, post, send, raise_for_status,
    response_json, lift, logger_info, logger_error, tell, raise, ret.
  destruct (w_server w _ _) as [r|e]; simpl.
  - destruct (resp_raise_for_status r) as [e|]; simpl.
    + destruct (is_RequestException e); simpl;
        [eexists _, [_; _] | eexists _, [_]]; by repeat split.
    + destruct (resp_json r) as [e|v]; simpl; [|eexists _, [_; _]; by repeat split].
      destruct (is_RequestException e); simpl;
        [eexists _, [_; _; _] | eexists _, [_; _]]; by repeat split.
  - destruct (is_RequestException e); simpl;
      [eexists _, [_; _] | eexists _, [_]]; by repeat split.
Qed.



(** X16. A local image is read while its file is open.  When
    [file_path] leads to a regular file and the disk lets it be opened,
    [Image.results] opens the file, sends exactly one request, the form
    with the stored options and the open file, and closes the file on
    every way out, whatever the transport answered; the files on disk are
    as before. *)
Theorem results_local_file (self : Image) (a : pyval) (w : World) (p : string) :
  file_path self = PStr p →
  p ≠ "" →
  json_dumpable (PDict (results_options self)) = true →
  is_file w p = true →
  w_io_fault w (count_io (w_trace w)) = None →
  ∃ f o evs m,
    results self a w =
      (o, add_events (EvClose f :: evs ++ [EvOpenRead p; EvLog INFO m]) w)
    ∧ (∃ b, fs_lookup (w_fs w) f = Some (File b))
    ∧ requests_of evs = [local_image_request self f]
    ∧ count_io evs = 0%nat
    ∧ o ≠ OutOfFuel.
Proof.
  intros Hp Hne Hjson Hfile Hio.
  unfold results. unfold bind at 1, logger_info at 1, tell at 1.
  unfold bind at 1, json_dumps, lift. rewrite Hjson. unfold ret at 1.
  rewrite Hp. cbn [py_truthy].
  destruct (String.eqb_spec p ""); [done|]. cbn [negb].
  set (w1 := emit _ w).
  change (is_file w1 p) with (is_file w p). rewrite Hfile. cbn [negb].
  unfold bind at 1. unfold open_rb, io_step.
  change (w_io_fault w1 (count_io (w_trace w1))) with (w_io_fault w (count_io (w_trace w))).
  rewrite Hio. cbn [w_fs w_cwd emit w1].
  revert Hfile. unfold is_file.
  destruct (open_walk (w_fs w) _ _) as [cls|f]; [done|].
  destruct (fs_lookup (w_fs w) f) as [[|b]|] eqn:Hf; [done| |done]. intros _.
  set (w2 := emit (EvOpenRead p) _).
  destruct (ocr_request_events (os_path_join (api_url (image_auth self)) ["v3/text"])
              (headers (image_auth self))
              (FormBody [("options_json", JsonText (PDict (results_options self)))]
                 [("file", f)]) w2) as (o & evs & Hrun & Hreq & Hcount & Ho).
  unfold with_file. rewrite Hrun. unfold file_close, io_step.
  exists f.
  destruct o as [v|e|]; [| |done].
  - clear Hio. destruct (w_io_fault (add_events evs w2) _) as [e'|];
      eexists _, evs, _;
      (split; [f_equal; apply world_eq; try reflexivity;
               cbn [w_trace emit add_events w2 w1 app]; by rewrite <- app_assoc|]);
      (split; [by exists b|]); by repeat split.
  - clear Hio. destruct (w_io_fault (add_events evs w2) _) as [e'|];
      eexists _, evs, _;
      (split; [f_equal; apply world_eq; try reflexivity;
               cbn [w_trace emit add_events w2 w1 app]; by rewrite <- app_assoc|]);
      (split; [by exists b|]); by repeat split.
Qed.

Lemma results_local_file_witness :
  ∃ f o evs m,
    results local_image (PBool false) (image_world (scripted [ocr_payload])) =
      (o, add_events (EvClose f :: evs ++ [EvOpenRead "eq.png"; EvLog INFO m])
            (image_world (scripted [ocr_payload])))
    ∧ requests_of evs = [local_image_request local_image f].
Proof.
  destruct (results_local_file local_image (PBool false)
              (image_world (scripted [ocr_payload])) "eq.png")
    as (f & o & evs & m & Hrun & _ & Hreq & _).
  - reflexivity.
  - discriminate.
  - reflexivity.
  - vm_compute. reflexivity.
  - reflexivity.
  - exists f, o, evs, m. split; [exact Hrun|exact Hreq].
Defined.

(** [Image.results] for a remote image that the service answers. *)
Lemma results_remote_ok self a w r p :
  py_truthy (file_path self) = false →
  json_dumpable (PDict (results_options self)) = true →
  w_server w (count_requests (w_trace w)) (remote_image_request self) = HttpOk r →
  resp_raise_for_status r = None →
  resp_json r = inr p →
  results self a w =
    (Ret p,
     add_events [EvLog INFO [Lit "OCR processing successful"];
                 EvRequest (remote_image_request self);
                 EvLog INFO [Lit "Processing image: path="; Val (file_path self);
                             Lit ", url="; Val (file_url self)]] w).
Proof.
  intros Hfp Hjson Hserver Hstatus Hbody.
  unfold results. unfold bind at 1, logger_info at 1, tell at 1.
  unfold bind at 1, json_dumps, lift. rewrite Hjson. unfold ret at 1.
  rewrite Hfp.
  unfold ocr_request, try_except_request, bind, post, send.
  cbn [w_server w_trace emit].
  change (count_requests (EvLog _ _ :: w_trace w)) with (count_requests (w_trace w)).
  fold (remote_image_request self). rewrite Hserver.
  unfold raise_for_status. rewrite Hstatus.
  unfold ret, logger_info, tell, response_json, lift. by rewrite Hbody.
Qed.

(** X17. The text and the line data come from one kind of request.  For
    a remote image that the service answers with a JSON body,
    [Image.results] returns that body as it is, [mmd] returns its
    ["text"] and [lines_json] its ["line_data"], or the error of the
    subscript when the field is missing; the two calls send the same
    single request. *)
Theorem mmd_and_lines_json_read_one_response (self : Image) (w : World)
    (r : response) (p : pyval) :
  py_truthy (file_path self) = false →
  json_dumpable (PDict (results_options self)) = true →
  w_server w (count_requests (w_trace w)) (remote_image_request self) = HttpOk r →
  resp_raise_for_status r = None →
  resp_json r = inr p →
  (∀ a, fst (results self a w) = Ret p)
  ∧ fst (mmd self w) = subscript_outcome p "text"
  ∧ fst (lines_json self w) = subscript_outcome p "line_data"
  ∧ requests_of (w_trace (snd (mmd self w))) =
      remote_image_request self :: requests_of (w_trace w)
  ∧ requests_of (w_trace (snd (lines_json self w))) =
      remote_image_request self :: requests_of (w_trace w).
Proof.
  intros Hfp Hjson Hserver Hstatus Hbody.
  split; [intros a; by rewrite (results_remote_ok self a w r p)|].
  assert (∀ m a key,
            (logger_info m >>
             let! result := results self a in
             lift (py_getitem result (PStr key))) w =
            (subscript_outcome p key,
             add_events [EvLog INFO [Lit "OCR processing successful"];
                         EvRequest (remote_image_request self);
                         EvLog INFO [Lit "Processing image: path="; Val (file_path self);
                                     Lit ", url="; Val (file_url self)];
                         EvLog INFO m] w)) as Hcall.
  { intros m a key. unfold bind at 1, logger_info at 1, tell at 1.
    unfold bind at 1.
    rewrite (results_remote_ok self a (emit (EvLog INFO m) w) r p Hfp Hjson Hserver
               Hstatus Hbody).
    unfold lift, subscript_outcome. by destruct (py_getitem p (PStr key)). }
  unfold mmd, lines_json. rewrite !Hcall. by repeat split.
Qed.

Lemma mmd_and_lines_json_read_one_response_witness :
  fst (mmd demo_image (world_of (scripted [ocr_payload]))) = Ret (PStr "\( x^2 \)")
  ∧ (∃ e, fst (lines_json demo_image (world_of (scripted [ocr_payload]))) = Raise e
          ∧ exn_cls e = KeyError).
Proof.
  destruct (mmd_and_lines_json_read_one_response demo_image
              (world_of (scripted [ocr_payload])) (json_reply ocr_payload) ocr_payload)
    as (_ & Hmmd & Hlines & _); try reflexivity.
  split; [exact Hmmd|]. eexists. split; [exact Hlines|reflexivity].
Defined.

(** ** The factory *)

Lemma threshold_invalid_TypeError v e : threshold_invalid v = inl e → exn_cls e = TypeError.
Proof.
  unfold threshold_invalid, py_lt_0, py_gt_1.
  destruct v as [|b|z|f|s|l|l|d]; cbn [is_None]; try by intros [= <-].
  - by destruct (z <? 0).
  - by destruct (PrimFloat.ltb f 0).
Qed.

Lemma py_len_TypeError v e : py_len v = inl e → exn_cls e = TypeError.
Proof. destruct v; simpl; by intros [= <-]. Qed.

Lemma dict_display_TypeError entries :
  ∀ acc e, dict_display entries acc = inl e → exn_cls e = TypeError.
Proof.
  induction entries as [|[k v] entries IH]; intros acc e; simpl; [done|].
  destruct (py_hashable k); [by apply IH|]. by intros [= <-].
Qed.

Lemma check_threshold_outcomes v name w :
  (check_threshold v name w = (Ret tt, w) ∧ is_str v = false)
  ∨ (∃ e, check_threshold v name w = (Raise e, w) ∧ exn_cls e = TypeError)
  ∨ (∃ e m, check_threshold v name w = (Raise e, add_events [EvLog ERROR m] w)
            ∧ exn_cls e = ValidationError).
Proof.
  unfold check_threshold, bind, lift.
  destruct (threshold_invalid v) as [e|[]] eqn:Hv.
  - right. left. exists e. split; [done|]. by apply (threshold_invalid_TypeError v).
  - right. right. by eexists _, _.
  - left. split; [done|]. by apply (threshold_invalid_not_str v false).
Qed.

(** X18. [image_new] stays offline.  Whatever its arguments, the call
    raises without a request and without a file-system operation.  It
    raises a [ValidationError] after exactly one error line in the log, or
    a [TypeError] with nothing logged but, at most, the line announcing the
    new image. *)
Theorem image_new_offline (self : MathpixClient) (fp fu : pyval) (o : image_options)
    (w : World) :
  ∃ e evs,
    image_new self fp fu o w = (Raise e, add_events evs w)
    ∧ ((exn_cls e = ValidationError ∧ ∃ m, evs = [EvLog ERROR m])
       ∨ (exn_cls e = TypeError ∧ (evs = [] ∨ ∃ m, evs = [EvLog INFO m]))).
Proof.
  assert (∀ w, w = add_events [] w) as Hnil by by intros [].
  unfold image_new.
  destruct (_ || _).
  { eexists _, [_]. split; [reflexivity|]. left. split; [done|]. by eexists. }
  unfold bind at 1, lift at 1.
  destruct (py_len (formats o)) as [e|n] eqn:Hlen.
  { exists e, []. split; [by rewrite <- Hnil|]. right.
    split; [by apply (py_len_TypeError (formats o))|by left]. }
  unfold ret at 1.
  destruct (negb (n =? 1)).
  { eexists _, [_]. split; [reflexivity|]. left. split; [done|]. by eexists. }
  unfold bind at 1.
  destruct (check_threshold_outcomes (confidence_threshold o) "confidence_threshold" w)
    as [[-> Hstr]|[(e & -> & He)|(e & m & -> & He)]].
  2:{ exists e, []. split; [by rewrite <- Hnil|]. right. split; [done|by left]. }
  2:{ exists e, [EvLog ERROR m]. split; [done|]. left. split; [done|]. by eexists. }
  unfold bind at 1.
  destruct (check_threshold_outcomes (confidence_rate_threshold o)
              "confidence_rate_threshold" w)
    as [[-> _]|[(e & -> & He)|(e & m & -> & He)]].
  2:{ exists e, []. split; [by rewrite <- Hnil|]. right. split; [done|by left]. }
  2:{ exists e, [EvLog ERROR m]. split; [done|]. left. split; [done|]. by eexists. }
  unfold bind at 1.
  destruct (check_threshold_outcomes (auto_rotate_confidence_threshold o)
              "auto_rotate_confidence_threshold" w)
    as [[-> _]|[(e & -> & He)|(e & m & -> & He)]].
  2:{ exists e, []. split; [by rewrite <- Hnil|]. right. split; [done|by left]. }
  2:{ exists e, [EvLog ERROR m]. split; [done|]. left. split; [done|]. by eexists. }
  unfold bind at 1, lift at 1.
  destruct (dict_display (image_options_entries o) []) as [e|d] eqn:Hd.
  { exists e, []. split; [by rewrite <- Hnil|]. right.
    split; [by apply (dict_display_TypeError _ _ _ Hd)|by left]. }
  unfold ret at 1.
  destruct (dict_display_keys _ _ _ Hd) as [_ Hkeys].
  destruct (Hkeys (confidence_threshold o)) as (k' & Hin & Hk').
  { unfold image_options_entries. rewrite map_map. simpl.
    do 7 (apply elem_of_cons; right). apply elem_of_cons. by left. }
  pose proof (py_key_eqb_not_str k' _ Hstr Hk') as Hk'str.
  unfold bind at 1.
  destruct (py_truthy fp); unfold bind at 1, logger_info at 1, tell at 1, ret at 1;
    erewrite Image_call_non_str by (try apply dict_set_keeps_keys; done);
    (eexists _, [_]; split; [reflexivity|]; right; split; [done|]; right; by eexists).
Qed.

Lemma py_getitem_error obj key e :
  py_getitem obj key = inl e →
  exn_cls e = KeyError ∨ exn_cls e = TypeError ∨ exn_cls e = IndexError.
Proof.
  unfold py_getitem, not_subscriptable.
  destruct obj; try (intros [= <-]; tauto).
  - destruct (int_value key) as [i|]; [|intros [= <-]; tauto].
    destruct (seq_index _ i); [done|]. intros [= <-]. tauto.
  - destruct (int_value key) as [i|]; [|intros [= <-]; tauto].
    destruct (seq_index _ i); [done|]. intros [= <-]. tauto.
  - destruct (int_value key) as [i|]; [|intros [= <-]; tauto].
    destruct (seq_index _ i); [done|]. intros [= <-]. tauto.
  - destruct (py_hashable key); [|intros [= <-]; tauto].
    destruct (dict_get _ key); [done|]. intros [= <-]. tauto.
Qed.

(** X19. What the guard of [file_batch_new] lets through.  Off the
    production API the call sends its one request.  Its handler catches
    [RequestException] only: any other failure of the request reaches the
    caller as it is, and so does the error of the subscript when the
    answer has no usable ["file_batch_uuid"], which is a [KeyError],
    [TypeError] or [IndexError] outside the typed errors. *)
Theorem file_batch_new_unguarded (self : MathpixClient) (w : World) :
  api_url (client_auth self) ≠ production_url →
  (∀ e, request_fails w (count_requests (w_trace w)) (batch_request self) e →
        is_RequestException e = false →
        ∃ evs, file_batch_new self w = (Raise e, add_events evs w)
               ∧ requests_of evs = [batch_request self]
               ∧ count_io evs = 0%nat)
  ∧ (∀ r p e,
        w_server w (count_requests (w_trace w)) (batch_request self) = HttpOk r →
        resp_raise_for_status r = None →
        resp_json r = inr p →
        py_getitem p (PStr "file_batch_uuid") = inl e →
        ∃ evs, file_batch_new self w = (Raise e, add_events evs w)
               ∧ requests_of evs = [batch_request self]
               ∧ count_io evs = 0%nat
               ∧ spec_error_of (exn_cls e) = None).
Proof.
  intros Hprod.
  split.
  - intros e Hfail He. unfold file_batch_new.
    destruct (String.eqb_spec (api_url (client_auth self)) production_url); [done|].
    unfold bind at 1, logger_info at 1, tell at 1.
    unfold try_except_request, bind, post, send.
    cbn [w_server w_trace emit].
    change (count_requests (EvLog _ _ :: w_trace w)) with (count_requests (w_trace w)).
    fold (batch_request self).
    destruct Hfail as [->|(r & -> & [Hr|[Hr Hj]])].
    + rewrite He. by eexists [_; _].
    + unfold raise_for_status. rewrite Hr. unfold raise. rewrite He. by eexists [_; _].
    + unfold raise_for_status. rewrite Hr. unfold response_json, lift, ret, raise.
      rewrite Hj. cbn beta iota. rewrite He. by eexists [_; _].
  - intros r p e Hserver Hstatus Hbody Hkey.
    destruct (py_getitem_error _ _ _ Hkey) as [Hcls|[Hcls|Hcls]];
      (unfold file_batch_new;
       destruct (String.eqb_spec (api_url (client_auth self)) production_url); [done|];
       unfold bind at 1, logger_info at 1, tell at 1;
       unfold try_except_request, bind, post, send;
       cbn [w_server w_trace emit];
       change (count_requests (EvLog _ _ :: w_trace w)) with (count_requests (w_trace w));
       fold (batch_request self); rewrite Hserver;
       unfold raise_for_status; rewrite Hstatus; unfold response_json, lift, ret, raise;
       rewrite Hbody; cbn beta iota; rewrite Hkey;
       unfold is_RequestException; cbn beta iota; rewrite Hcls;
       eexists [_; _]; by repeat split).
Qed.

Lemma file_batch_new_unguarded_witness :
  ∃ evs,
    file_batch_new local_client (world_of (scripted [PDict [(PStr "id", PStr "b1")]])) =
      (Raise (new_exn KeyError [Val (PStr "file_batch_uuid")]),
       add_events evs (world_of (scripted [PDict [(PStr "id", PStr "b1")]])))
    ∧ requests_of evs = [batch_request local_client].
Proof.
  destruct (file_batch_new_unguarded local_client
              (world_of (scripted [PDict [(PStr "id", PStr "b1")]]))) as [_ Hkey].
  - discriminate.
  - destruct (Hkey (json_reply (PDict [(PStr "id", PStr "b1")]))
                (PDict [(PStr "id", PStr "b1")])
                (new_exn KeyError [Val (PStr "file_batch_uuid")]))
      as (evs & Hrun & Hreq & _); try reflexivity.
    exists evs. split; [exact Hrun|exact Hreq].
Defined.

(** ** [conversion_new] *)

(** On an identifier that is a string or [None], the constructor of any
    value agrees with [Conversion_init]. *)
Lemma Conversion_call_typed a cid fmts w :
  match Conversion_init (Some a) cid fmts w with
  | (Ret c, w') =>
      ∃ obj, Conversion_call a (opt_val cid) fmts w = (Ret obj, w')
             ∧ typed_conversion obj = Some c
  | (Raise e, w') => Conversion_call a (opt_val cid) fmts w = (Raise e, w')
  | (OutOfFuel, _) => False
  end.
Proof.
  unfold Conversion_init, Conversion_call, py_or. destruct cid as [s|]; simpl.
  - destruct (String.eqb_spec s "") as [->|Hs]; simpl; [done|].
    destruct (String.eqb_spec s ""); [done|]. simpl. by eexists.
  - done.
Qed.

Lemma ends_with_sep_app a b : b ≠ "" → ends_with_sep (a +:+ b) = ends_with_sep b.
Proof.
  intros Hb. induction a as [|x a IH]; [done|].
  change (String x a +:+ b) with (String x (a +:+ b)).
  destruct (a +:+ b) as [|y s] eqn:Hab.
  - destruct a; [|done]. by change ("" +:+ b) with b in Hab.
  - by rewrite <- IH.
Qed.

(** The prefix of what [conversion_new] does when the service answers
    with a JSON body. *)
Lemma conversion_new_answered self mmd_text fmts w r p :
  w_server w (count_requests (w_trace w)) (conversion_request self mmd_text fmts) = HttpOk r →
  resp_raise_for_status r = None →
  resp_json r = inr p →
  conversion_new self mmd_text fmts w =
    match py_contains_str "error" p with
    | inl e => (Raise e, add_events [EvRequest (conversion_request self mmd_text fmts);
                                     EvLog INFO [Lit "Starting new MMD conversions to: ";
                                                 Val fmts]] w)
    | inr true =>
        (Raise (new_exn MathpixClientError [Lit "Conversion failed: "; Val p]),
         add_events [EvLog ERROR [Lit "Conversion failed: "; Val p];
                     EvRequest (conversion_request self mmd_text fmts);
                     EvLog INFO [Lit "Starting new MMD conversions to: "; Val fmts]] w)
    | inr false =>
        match py_getitem p (PStr "conversion_id") with
        | inl e => (Raise e, add_events [EvRequest (conversion_request self mmd_text fmts);
                                         EvLog INFO [Lit "Starting new MMD conversions to: ";
                                                     Val fmts]] w)
        | inr cid =>
            Conversion_call (client_auth self) cid fmts
              (add_events [EvLog INFO [Lit "Conversion created, ID: "; Val cid];
                           EvRequest (conversion_request self mmd_text fmts);
                           EvLog INFO [Lit "Starting new MMD conversions to: ";
                                       Val fmts]] w)
        end
    end.
Proof.
  intros Hserver Hstatus Hbody.
  unfold conversion_new. unfold bind at 1, logger_info at 1, tell at 1.
  unfold try_except_request, bind, post, send.
  cbn [w_server w_trace emit].
  change (count_requests (EvLog _ _ :: w_trace w)) with (count_requests (w_trace w)).
  fold (conversion_request self mmd_text fmts). rewrite Hserver.
  unfold raise_for_status. rewrite Hstatus. unfold response_json, lift, ret, raise.
  rewrite Hbody. cbn beta iota.
  destruct (py_contains_str "error" p) as [e|[]] eqn:Herr.
  - assert (exn_cls e = TypeError) as Hcls.
    { destruct p; simpl in Herr; by simplify_eq. }
    unfold is_RequestException. by rewrite Hcls.
  - reflexivity.
  - destruct (py_getitem p (PStr "conversion_id")) as [e|cid] eqn:Hid.
    + unfold is_RequestException.
      by destruct (py_getitem_error _ _ _ Hid) as [->|[->| ->]].
    + unfold logger_info, tell. cbn beta iota.
      unfold Conversion_call, py_or.
      destruct (py_truthy cid) eqn:Hcid; rewrite ?Hcid; reflexivity.
Qed.

(** X20. An answer with an ["error"] field is a failed conversion.  When
    the service answers [conversion_new] with a body that has the key
    ["error"], the call raises [MathpixClientError] itself, with the whole
    body in the message and no context, also when the body names a
    [conversion_id]; no conversion is built, and the one request made is
    the POST of the Markdown and the formats to [v3/converter]. *)
Theorem conversion_new_error_field (self : MathpixClient) (mmd_text fmts : pyval)
    (w : World) (r : response) (d : list (pyval * pyval)) (v : pyval) :
  w_server w (count_requests (w_trace w)) (conversion_request self mmd_text fmts) = HttpOk r →
  resp_raise_for_status r = None →
  resp_json r = inr (PDict d) →
  dict_get d (PStr "error") = Some v →
  ∃ e evs,
    conversion_new self mmd_text fmts w = (Raise e, add_events evs w)
    ∧ e = new_exn MathpixClientError [Lit "Conversion failed: "; Val (PDict d)]
    ∧ exn_context e = None
    ∧ spec_error_of (exn_cls e) = Some RemoteError
    ∧ requests_of evs = [conversion_request self mmd_text fmts]
    ∧ count_io evs = 0%nat.
Proof.
  intros Hserver Hstatus Hbody Herr.
  rewrite (conversion_new_answered self mmd_text fmts w r (PDict d) Hserver Hstatus Hbody).
  cbn [py_contains_str]. rewrite Herr.
  eexists _, _. split; [reflexivity|]. by repeat split.
Qed.

Lemma conversion_new_error_field_witness :
  ∃ e evs,
    conversion_new demo_client (PStr "\( x \)") docx_formats
      (world_of (scripted [PDict [(PStr "conversion_id", PStr "c42");
                                  (PStr "error", PStr "mmd too long")]]))
    = (Raise e,
       add_events evs
         (world_of (scripted [PDict [(PStr "conversion_id", PStr "c42");
                                     (PStr "error", PStr "mmd too long")]])))
    ∧ exn_cls e = MathpixClientError
    ∧ requests_of evs = [conversion_request demo_client (PStr "\( x \)") docx_formats].
Proof.
  destruct (conversion_new_error_field demo_client (PStr "\( x \)") docx_formats
              (world_of (scripted [PDict [(PStr "conversion_id", PStr "c42");
                                          (PStr "error", PStr "mmd too long")]]))
              (json_reply (PDict [(PStr "conversion_id", PStr "c42");
                                  (PStr "error", PStr "mmd too long")]))
              [(PStr "conversion_id", PStr "c42"); (PStr "error", PStr "mmd too long")]
              (PStr "mmd too long"))
    as (e & evs & Hrun & -> & _ & _ & Hreq & _); try reflexivity.
  eexists _, evs. split; [exact Hrun|]. split; [reflexivity|exact Hreq].
Defined.

(** X21. The conversion that was created is the one that is polled.  When
    the service answers [conversion_new] with a body without ["error"]
    whose ["conversion_id"] is a non-empty string, the call returns a
    conversion with that identifier, the client's credentials and the
    formats as the caller gave them, after one request.  Its status is
    then fetched from the endpoint of the creation followed by ["/"] and
    the identifier, unless the identifier begins with ["/"]: then the
    status URL is the identifier alone. *)
Theorem conversion_new_creates (self : MathpixClient) (mmd_text fmts : pyval)
    (w : World) (r : response) (p : pyval) (s : string) :
  w_server w (count_requests (w_trace w)) (conversion_request self mmd_text fmts) = HttpOk r →
  resp_raise_for_status r = None →
  resp_json r = inr p →
  py_contains_str "error" p = inr false →
  py_getitem p (PStr "conversion_id") = inr (PStr s) →
  s ≠ "" →
  ∃ obj c evs,
    conversion_new self mmd_text fmts w = (Ret obj, add_events evs w)
    ∧ typed_conversion obj = Some c
    ∧ c = {| auth := client_auth self; conversion_id := s; conversion_formats := fmts |}
    ∧ requests_of evs = [conversion_request self mmd_text fmts]
    ∧ count_io evs = 0%nat
    ∧ status_url c =
        if starts_with_sep s then s
        else req_url (conversion_request self mmd_text fmts) +:+ "/" +:+ s.
Proof.
  intros Hserver Hstatus Hbody Herr Hid Hs.
  rewrite (conversion_new_answered self mmd_text fmts w r p Hserver Hstatus Hbody).
  rewrite Herr, Hid. unfold Conversion_call, py_or.
  assert (py_truthy (PStr s) = true) as Htruthy.
  { simpl. by destruct (String.eqb_spec s ""). }
  rewrite !Htruthy. cbn [negb].
  eexists _, {| auth := client_auth self; conversion_id := s;
                conversion_formats := fmts |}, [_; _; _].
  split; [reflexivity|].
  split; [reflexivity|]. split; [reflexivity|]. split; [reflexivity|].
  split; [reflexivity|].
  unfold status_url, os_path_join. cbn [fold_left conversion_id auth req_url conversion_request].
  set (base := join_step (api_url (client_auth self)) "v3/converter").
  unfold join_step at 1. destruct (starts_with_sep s); [done|].
  assert (∃ b, b ≠ "" ∧ ends_with_sep b = false
               ∧ base = api_url (client_auth self) +:+ b) as (b & Hb & Hend & Hbase).
  { subst base. unfold join_step. change (starts_with_sep "v3/converter") with false.
    cbv iota. destruct (_ || _); [by exists "v3/converter"|by exists "/v3/converter"]. }
  assert (base ≠ "") as Hne.
  { rewrite Hbase. destruct (api_url (client_auth self)); [done|discriminate]. }
  destruct (String.eqb_spec base ""); [done|].
  change (os_path_join (api_url (client_auth self)) ["v3/converter"]) with base.
  by rewrite Hbase, ends_with_sep_app, Hend.
Qed.

Lemma conversion_new_creates_witness :
  ∃ obj evs,
    conversion_new demo_client (PStr "\( x \)") docx_formats
      (world_of (scripted [PDict [(PStr "conversion_id", PStr "c42")]]))
    = (Ret obj,
       add_events evs (world_of (scripted [PDict [(PStr "conversion_id", PStr "c42")]])))
    ∧ typed_conversion obj =
        Some {| auth := demo_auth; conversion_id := "c42";
                conversion_formats := docx_formats |}
    ∧ status_url {| auth := demo_auth; conversion_id := "c42";
                    conversion_formats := docx_formats |}
      = "https://api.mathpix.com/v3/converter/c42".
Proof.
  destruct (conversion_new_creates demo_client (PStr "\( x \)") docx_formats
              (world_of (scripted [PDict [(PStr "conversion_id", PStr "c42")]]))
              (json_reply (PDict [(PStr "conversion_id", PStr "c42")]))
              (PDict [(PStr "conversion_id", PStr "c42")]) "c42")
    as (obj & c & evs & Hrun & Htyped & -> & _ & _ & Hurl); try reflexivity.
  - discriminate.
  - exists obj, evs. split; [exact Hrun|]. split; [exact Htyped|exact Hurl].
Defined.

(** ** [pdf_new] *)


Lemma pdf_production_check_cases self args w :
  (pdf_allowed self args = true ∧ pdf_production_check self args w = (Ret tt, w))
  ∨ (pdf_allowed self args = false
     ∧ ∃ e m, pdf_production_check self args w = (Raise e, add_events [EvLog WARNING m] w)
              ∧ exn_cls e = NotImplementedError).
Proof.
  unfold pdf_allowed, pdf_production_check.
  destruct (String.eqb _ production_url); cbn [negb orb]; [|by left].
  destruct (any_webhook args); cbn [negb andb].
  - right. split; [done|]. by eexists _, _.
  - destruct (py_truthy (pdf_file_batch_uuid args)); cbn [negb].
    + right. split; [done|]. by eexists _, _.
    + by left.
Qed.

Lemma exactly_one_given_check fp fu :
  (is_None fp && is_None fu) || (negb (is_None fp) && negb (is_None fu)) = false
  ↔ exactly_one_given fp fu.
Proof. unfold exactly_one_given. destruct (is_None fp), (is_None fu); simpl; split; done. Qed.

Section pdf_new_properties.

Context {Pdf : Type} (Pdf_call : Auth → Pdf_keywords → M Pdf).


(** X24. A falsy [file_path] means an upload by URL.  When the checks
    pass and [file_path] is not truthy, the one request of [pdf_new] is the
    JSON body of the options with ["url"] set to [file_url]; this is also
    the branch taken for [file_path=''] with no [file_url], where the body
    says ["url": None].  A [RequestException] of that request reaches the
    caller as a [MathpixClientError] raised while it was handled; no file
    is opened. *)
Theorem pdf_new_url_upload_failure (self : MathpixClient) (fp fu : pyval)
    (args : pdf_arguments) (w : World) (e : exn) :
  pdf_allowed self args = true →
  exactly_one_given fp fu →
  json_dumpable (PDict (pdf_options args)) = true →
  py_truthy fp = false →
  is_RequestException e = true →
  request_fails w (count_requests (w_trace w)) (pdf_url_request self fu args) e →
  ∃ e' evs,
    pdf_new Pdf_call self fp fu args w = (Raise e', add_events evs w)
    ∧ exn_cls e' = MathpixClientError
    ∧ exn_context e' = Some e
    ∧ requests_of evs = [pdf_url_request self fu args]
    ∧ count_io evs = 0%nat.
Proof.
  intros Hallowed Hone Hjson Hfp He Hfail.
  unfold pdf_new. unfold bind at 1.
  destruct (pdf_production_check_cases self args w)
    as [[_ ->]|[Hno _]]; [|congruence].
  apply exactly_one_given_check in Hone. rewrite Hone.
  unfold bind at 1, json_dumps, lift. rewrite Hjson. unfold ret at 1.
  rewrite Hfp.
  unfold bind at 1, logger_info at 1, tell at 1.
  unfold try_except_request, bind, post, send.
  cbn [w_server w_trace emit].
  change (count_requests (EvLog _ _ :: w_trace w)) with (count_requests (w_trace w)).
  fold (pdf_url_request self fu args).
  destruct Hfail as [->|(r & -> & [Hr|[Hr Hj]])].
  - rewrite He. by eexists _, [_; _; _].
  - unfold raise_for_status. rewrite Hr. unfold raise. rewrite He.
    by eexists _, [_; _; _].
  - unfold raise_for_status. rewrite Hr. unfold response_json, lift, ret, raise.
    rewrite Hj. cbn beta iota. rewrite He. by eexists _, [_; _; _].
Qed.

(** X25. What the constructor of [Pdf] is given.  When the upload by URL
    is answered with a body that has a ["pdf_id"], [pdf_new] calls the
    constructor with that identifier, [file_url] and the optional
    arguments as the caller gave them, and without a [file_path]; what the
    constructor returns is what [pdf_new] returns.  By then one request
    was made and the body of the answer was logged. *)
Theorem pdf_new_constructs (self : MathpixClient) (fp fu : pyval)
    (args : pdf_arguments) (w : World) (r : response) (p pid : pyval)
    (pdf : Pdf) (w' : World) :
  pdf_allowed self args = true →
  exactly_one_given fp fu →
  json_dumpable (PDict (pdf_options args)) = true →
  py_truthy fp = false →
  w_server w (count_requests (w_trace w)) (pdf_url_request self fu args) = HttpOk r →
  resp_raise_for_status r = None →
  resp_json r = inr p →
  py_getitem p (PStr "pdf_id") = inr pid →
  Pdf_call (client_auth self)
    {| kw_pdf_id := pid; kw_file_path := None; kw_file_url := Some fu;
       kw_arguments := args |}
    (add_events [EvLog INFO [Lit "PDF from URL processing started, PDF ID: "; Val pid];
                 EvLog INFO [Val p];
                 EvRequest (pdf_url_request self fu args);
                 EvLog INFO [Lit "Creating new PDF: url="; Val fu]] w)
    = (Ret pdf, w') →
  pdf_new Pdf_call self fp fu args w = (Ret pdf, w').
Proof.
  intros Hallowed Hone Hjson Hfp Hserver Hstatus Hbody Hid Hcall.
  unfold pdf_new. unfold bind at 1.
  destruct (pdf_production_check_cases self args w)
    as [[_ ->]|[Hno _]]; [|congruence].
  apply exactly_one_given_check in Hone. rewrite Hone.
  unfold bind at 1, json_dumps, lift. rewrite Hjson. unfold ret at 1.
  rewrite Hfp.
  unfold bind at 1, logger_info at 1, tell at 1.
  unfold try_except_request, bind, post, send.
  cbn [w_server w_trace emit].
  change (count_requests (EvLog _ _ :: w_trace w)) with (count_requests (w_trace w)).
  fold (pdf_url_request self fu args). rewrite Hserver.
  unfold raise_for_status. rewrite Hstatus. unfold response_json, lift, ret, raise.
  rewrite Hbody. cbn beta iota. unfold logger_info, tell. cbn beta iota.
  rewrite Hid. cbn beta iota.
  change (emit (EvLog INFO [Lit "PDF from URL processing started, PDF ID: "; Val pid]) _)
    with (add_events [EvLog INFO [Lit "PDF from URL processing started, PDF ID: "; Val pid];
                      EvLog INFO [Val p];
                      EvRequest (pdf_url_request self fu args);
                      EvLog INFO [Lit "Creating new PDF: url="; Val fu]] w).
  by rewrite Hcall.
Qed.

(** X26. A local PDF is closed again when its upload fails.  When
    [file_path] leads to a regular file and the disk does not fail,
    [pdf_new] opens the file, posts the form with the options and the open
    file, and, when that request fails with a [RequestException], closes
    the file before the [MathpixClientError] reaches the caller: the close
    is its last event, and the files on disk are as before. *)
Theorem pdf_new_local_upload_failure (self : MathpixClient) (p : string) (fu : pyval)
    (args : pdf_arguments) (w : World) (f : list string) (e : exn) :
  pdf_allowed self args = true →
  fu = PNone →
  p ≠ "" →
  json_dumpable (PDict (pdf_options args)) = true →
  no_faults w →
  open_walk (w_fs w) (start_dir (w_cwd w) p) (split_sep p) = inr f →
  (∃ b, fs_lookup (w_fs w) f = Some (File b)) →
  is_RequestException e = true →
  request_fails w (count_requests (w_trace w)) (pdf_upload_request self args f) e →
  ∃ e' evs,
    pdf_new Pdf_call self (PStr p) fu args w =
      (Raise e', add_events (EvClose f :: evs ++ [EvOpenRead p]
                               ++ [EvLog INFO [Lit "Creating new PDF: path=";
                                               Val (PStr p)]]) w)
    ∧ exn_cls e' = MathpixClientError
    ∧ exn_context e' = Some e
    ∧ requests_of evs = [pdf_upload_request self args f]
    ∧ count_io evs = 0%nat.
Proof.
  intros Hallowed -> Hp Hjson Hnf Hwalk [b Hf] He Hfail.
  unfold pdf_new. unfold bind at 1.
  destruct (pdf_production_check_cases self args w)
    as [[_ ->]|[Hno _]]; [|congruence].
  cbn [is_None andb orb negb].
  unfold bind at 1, json_dumps. unfold lift at 1. rewrite Hjson. unfold ret at 1.
  assert (py_truthy (PStr p) = true) as ->.
  { simpl. by destruct (String.eqb_spec p ""). }
  unfold bind at 1, logger_info at 1, tell at 1.
  set (w1 := emit _ w).
  assert (is_file w1 p = true) as ->.
  { unfold is_file. cbn [w_fs w_cwd emit w1]. by rewrite Hwalk, Hf. }
  cbn [negb]. unfold bind at 1. unfold open_rb.
  rewrite io_step_no_fault by (intros n; apply Hnf).
  cbn [w_fs w_cwd emit w1]. rewrite Hwalk, Hf.
  set (w2 := emit (EvOpenRead p) _).
  assert (∃ e' evs,
            try_except_request
              (let! response := post (os_path_join (api_url (client_auth self)) ["v3/pdf"])
                                  (headers (client_auth self))
                                  (FormBody [("options_json",
                                              JsonText (PDict (pdf_options args)))]
                                     [("file", f)]) in
               raise_for_status response >>
               let! response_json := response_json response in
               let! pdf_id := lift (py_getitem response_json (PStr "pdf_id")) in
               logger_info [Lit "PDF from local path processing started, PDF ID: ";
                            Val pdf_id] >>
               Pdf_call (client_auth self)
                 {| kw_pdf_id := pdf_id; kw_file_path := Some (PStr p);
                    kw_file_url := None; kw_arguments := args |})
              (λ e0,
                 logger_error [Lit "PDF upload failed: "; StrOf e0] >>
                 raise (with_context e0
                          (new_exn MathpixClientError
                             [Lit "Mathpix PDF request failed: "; StrOf e0]))) w2
            = (Raise e', add_events evs w2)
            ∧ exn_cls e' = MathpixClientError
            ∧ exn_context e' = Some e
            ∧ requests_of evs = [pdf_upload_request self args f]
            ∧ count_io evs = 0%nat) as (e' & evs & Hrun & Hcls & Hctx & Hreq & Hio).
  { unfold try_except_request, bind, post, send.
    cbn [w_server w_trace emit w2 w1].
    change (count_requests (EvOpenRead p :: EvLog _ _ :: w_trace w))
      with (count_requests (w_trace w)).
    fold (pdf_upload_request self args f).
    destruct Hfail as [->|(r & -> & [Hr|[Hr Hj]])].
    - rewrite He. by eexists _, [_; _].
    - unfold raise_for_status. rewrite Hr. unfold raise. rewrite He.
      by eexists _, [_; _].
    - unfold raise_for_status. rewrite Hr. unfold response_json, lift, ret, raise.
      rewrite Hj. cbn beta iota. rewrite He. by eexists _, [_; _]. }
  cbv beta iota zeta. unfold with_file. rewrite Hrun. unfold file_close.
  rewrite io_step_no_fault by (intros n; apply Hnf).
  exists e', evs. split; [|done].
  f_equal. apply world_eq; try reflexivity.
  cbn [w_trace emit add_events w2 w1 app]. by rewrite <- app_assoc.
Qed.

End pdf_new_properties.

Lemma pdf_new_url_upload_failure_witness :
  ∃ e' evs,
    pdf_new keep_keywords local_client (PStr "") PNone no_arguments (world_of unreachable)
      = (Raise e', add_events evs (world_of unreachable))
    ∧ exn_cls e' = MathpixClientError
    ∧ requests_of evs = [pdf_url_request local_client PNone no_arguments].
Proof.
  destruct (pdf_new_url_upload_failure keep_keywords local_client (PStr "") PNone
              no_arguments (world_of unreachable) connection_error)
    as (e' & evs & Hrun & Hcls & _ & Hreq & _).
  - reflexivity.
  - discriminate.
  - reflexivity.
  - reflexivity.
  - reflexivity.
  - left. reflexivity.
  - exists e', evs. split; [exact Hrun|]. split; [exact Hcls|exact Hreq].
Defined.

Lemma pdf_new_constructs_witness :
  fst (pdf_new keep_keywords demo_client PNone (PStr "https://example.org/paper.pdf")
         no_arguments (world_of (scripted [PDict [(PStr "pdf_id", PStr "p7")]])))
  = Ret (demo_auth,
         {| kw_pdf_id := PStr "p7"; kw_file_path := None;
            kw_file_url := Some (PStr "https://example.org/paper.pdf");
            kw_arguments := no_arguments |}).
Proof.
  rewrite (pdf_new_constructs keep_keywords demo_client PNone
             (PStr "https://example.org/paper.pdf") no_arguments
             (world_of (scripted [PDict [(PStr "pdf_id", PStr "p7")]]))
             (json_reply (PDict [(PStr "pdf_id", PStr "p7")]))
             (PDict [(PStr "pdf_id", PStr "p7")]) (PStr "p7")
             (demo_auth,
              {| kw_pdf_id := PStr "p7"; kw_file_path := None;
                 kw_file_url := Some (PStr "https://example.org/paper.pdf");
                 kw_arguments := no_arguments |})
             (add_events
                [EvLog INFO [Lit "PDF from URL processing started, PDF ID: ";
                             Val (PStr "p7")];
                 EvLog INFO [Val (PDict [(PStr "pdf_id", PStr "p7")])];
                 EvRequest (pdf_url_request demo_client
                              (PStr "https://example.org/paper.pdf") no_arguments);
                 EvLog INFO [Lit "Creating new PDF: url=";
                             Val (PStr "https://example.org/paper.pdf")]]
                (world_of (scripted [PDict [(PStr "pdf_id", PStr "p7")]]))));
    try reflexivity.
  discriminate.
Defined.

Lemma pdf_new_local_upload_failure_witness :
  ∃ e' evs,
    pdf_new keep_keywords local_client (PStr "paper.pdf") PNone no_arguments
      (pdf_world unreachable)
      = (Raise e',
         add_events (EvClose ["home"; "paper.pdf"] :: evs ++ [EvOpenRead "paper.pdf"]
                       ++ [EvLog INFO [Lit "Creating new PDF: path=";
                                       Val (PStr "paper.pdf")]])
           (pdf_world unreachable))
    ∧ exn_cls e' = MathpixClientError
    ∧ requests_of evs =
        [pdf_upload_request local_client no_arguments ["home"; "paper.pdf"]].
Proof.
  destruct (pdf_new_local_upload_failure keep_keywords local_client "paper.pdf" PNone
              no_arguments (pdf_world unreachable) ["home"; "paper.pdf"] connection_error)
    as (e' & evs & Hrun & Hcls & _ & Hreq & _).
  - reflexivity.
  - reflexivity.
  - discriminate.
  - reflexivity.
  - intros n. reflexivity.
  - vm_compute. reflexivity.
  - eexists. vm_compute. reflexivity.
  - reflexivity.
  - left. reflexivity.
  - exists e', evs. split; [exact Hrun|]. split; [exact Hcls|exact Hreq].
Defined.
